(** * i18n translation bots: chunked synchronisation and merge

    A shallow embedding of the three scripts of the repository,

      - [translate.py]            (bulk translation, module [Translate]),
      - [translation_sync.py]     (incremental sync, module [Sync]),
      - [translation_checker.py]  (QA pass, module [Checker]),

    together with the Python builtins they rely on.

    Modelling conventions
      - a Python [str] is a list of Unicode code points ([pystr]);
      - a decoded JSON value is a [json]; a Python [dict] with string keys is
        an association list in insertion order ([dict]), updated the way
        Python updates a dict: an existing key keeps its position;
      - JSON numbers are integers (the string tables hold strings and
        update-directive records; floats do not occur in them);
      - an exception is a [Raise] result; [try]/[except] is a [match];
      - the file system, the console and the number of remote calls form the
        [world], threaded explicitly through the three entry points;
      - the remote completion endpoint, the JSON decoder and the matching
        engine of [re] are external: they are section variables, so every
        theorem holds for all their behaviours.  A decoded response is taken
        to be an object, as the [-> dict] annotations of [translate_chunk]
        and [check_translation_chunk] say;
      - the file system holds files only, under paths taken as written: a
        path that holds no file, and has no ancestor that does, is a
        directory or can be made one ([os.makedirs]);
      - the progress bar ([tqdm]) and failing file writes are not
        modelled. *)

From Stdlib Require Import String Ascii DecimalString.
From Stdlib Require Import List ZArith NArith Lia Bool.
Import ListNotations.

Set Warnings "-register-all".

Local Open Scope Z_scope.

(* ================================================================== *)
(** * Python strings *)
(* ================================================================== *)

(** A [str] is a sequence of code points. *)
Definition pystr := list N.

(** An ASCII literal of the source. *)
Definition lit (s : string) : pystr :=
  map N_of_ascii (list_ascii_of_string s).

Fixpoint str_eqb (a b : pystr) : bool :=
  match a, b with
  | [], [] => true
  | x :: a', y :: b' => N.eqb x y && str_eqb a' b'
  | _, _ => false
  end.

(** [c in chars] for a character. *)
Definition char_in (c : N) (chars : pystr) : bool :=
  existsb (N.eqb c) chars.

(** [str.isspace] on one character: the code points Python treats as
    whitespace in [str.strip()]. *)
Definition is_space (c : N) : bool :=
  ((9 <=? c) && (c <=? 13))%N || ((28 <=? c) && (c <=? 32))%N
  || (c =? 133)%N || (c =? 160)%N || (c =? 5760)%N
  || ((8192 <=? c) && (c <=? 8202))%N
  || (c =? 8232)%N || (c =? 8233)%N || (c =? 8239)%N || (c =? 8287)%N
  || (c =? 12288)%N.

(** Drop the longest prefix of characters satisfying [p]. *)
Fixpoint lstrip_by (p : N -> bool) (s : pystr) : pystr :=
  match s with
  | [] => []
  | c :: s' => if p c then lstrip_by p s' else s
  end.

Definition rstrip_by (p : N -> bool) (s : pystr) : pystr :=
  rev (lstrip_by p (rev s)).

(** [s.strip()] *)
Definition strip (s : pystr) : pystr :=
  rstrip_by is_space (lstrip_by is_space s).

(** [s.lstrip(chars)] and [s.rstrip(chars)]: [chars] is a SET of characters,
    not a prefix. *)
Definition lstrip_chars (chars s : pystr) : pystr :=
  lstrip_by (fun c => char_in c chars) s.

Definition rstrip_chars (chars s : pystr) : pystr :=
  rstrip_by (fun c => char_in c chars) s.

(** [s.startswith(prefix)] *)
Fixpoint startswith (prefix s : pystr) : bool :=
  match prefix, s with
  | [], _ => true
  | p :: prefix', c :: s' => N.eqb p c && startswith prefix' s'
  | _ :: _, [] => false
  end.

(** [s.endswith(suffix)] *)
Definition endswith (suffix s : pystr) : bool :=
  startswith (rev suffix) (rev s).

(** [s.replace(old, new)] for a one-character [old]. *)
Definition replace_char (old : N) (new : pystr) (s : pystr) : pystr :=
  flat_map (fun c => if N.eqb c old then new else [c]) s.

(** [str(n)] for a non-negative integer. *)
Definition str_of_nat (n : nat) : pystr :=
  lit (NilZero.string_of_uint (Nat.to_uint n)).

(* ================================================================== *)
(** * Sequences: slices and [range] *)
(* ================================================================== *)

(** Python normalises a slice bound against the length: a negative bound
    counts from the end, and the result is clamped to [0, len]. *)
Definition slice_bound (len i : Z) : Z :=
  if i <? 0 then Z.max 0 (i + len) else Z.min i len.

(** [l[lo:hi]] *)
Definition py_slice {A : Type} (l : list A) (lo hi : Z) : list A :=
  let n := Z.of_nat (length l) in
  let a := slice_bound n lo in
  let b := slice_bound n hi in
  firstn (Z.to_nat (b - a)) (skipn (Z.to_nat a) l).

(** [l[lo:]] *)
Definition py_slice_from {A : Type} (l : list A) (lo : Z) : list A :=
  skipn (Z.to_nat (slice_bound (Z.of_nat (length l)) lo)) l.

(** [len(range(start, stop, step))], as CPython computes it. *)
Definition range_len (start stop step : Z) : Z :=
  if 0 <? step then
    if start <? stop then (stop - start - 1) / step + 1 else 0
  else
    if stop <? start then (start - stop - 1) / (- step) + 1 else 0.

(* ================================================================== *)
(** * Exceptions and results *)
(* ================================================================== *)

Inductive exn : Type :=
| ValueError (msg : pystr)
| KeyError (key : pystr)
| ReError (msg : pystr)
| FileNotFoundError (path : pystr)
| FileExistsError (path : pystr)
| NotADirectoryError (path : pystr)
| JSONDecodeError (msg : pystr)
| RemoteError (msg : pystr).

(** [str(e)] *)
Definition str_of_exn (e : exn) : pystr :=
  match e with
  | ValueError m => m
  | KeyError k => lit "'" ++ k ++ lit "'"
  | ReError m => m
  | FileNotFoundError p => p
  | FileExistsError p => p
  | NotADirectoryError p => p
  | JSONDecodeError m => m
  | RemoteError m => m
  end.

Inductive result (A : Type) : Type :=
| Return (a : A)
| Raise (e : exn).

Arguments Return {A} a.
Arguments Raise {A} e.

Definition bind {A B : Type} (r : result A) (k : A -> result B) : result B :=
  match r with
  | Return a => k a
  | Raise e => Raise e
  end.

(** [range(start, stop, step)]: the arithmetic progression
    [start + i*step], [0 <= i < len]; a zero step is a [ValueError]. *)
Definition py_range (start stop step : Z) : result (list Z) :=
  if step =? 0 then Raise (ValueError (lit "range() arg 3 must not be zero"))
  else Return (map (fun i => start + Z.of_nat i * step)
                   (seq 0 (Z.to_nat (range_len start stop step)))).

(* ================================================================== *)
(** * JSON values and dicts *)
(* ================================================================== *)

Inductive json : Type :=
| JNull
| JBool (b : bool)
| JNum (n : Z)
| JStr (s : pystr)
| JArr (l : list json)
| JObj (d : list (pystr * json)).

(** A dict with string keys, in insertion order. *)
Definition dict := list (pystr * json).

Definition keys (d : dict) : list pystr := map fst d.

(** [isinstance(v, dict)] *)
Definition is_dict (v : json) : bool :=
  match v with JObj _ => true | _ => false end.

(** Python truthiness of a decoded JSON value. *)
Definition truthy (v : json) : bool :=
  match v with
  | JNull => false
  | JBool b => b
  | JNum n => negb (n =? 0)
  | JStr s => match s with [] => false | _ => true end
  | JArr l => match l with [] => false | _ => true end
  | JObj d => match d with [] => false | _ => true end
  end.

(** Association lists keyed by strings: the representation of dicts and of
    the file system. *)
Fixpoint assoc_get {V : Type} (d : list (pystr * V)) (k : pystr) : option V :=
  match d with
  | [] => None
  | (k', v) :: d' => if str_eqb k k' then Some v else assoc_get d' k
  end.

(** An existing key keeps its place, a new one goes last. *)
Fixpoint assoc_set {V : Type} (d : list (pystr * V)) (k : pystr) (v : V)
  : list (pystr * V) :=
  match d with
  | [] => [(k, v)]
  | (k', v') :: d' =>
      if str_eqb k k' then (k', v) :: d' else (k', v') :: assoc_set d' k v
  end.

Fixpoint assoc_del {V : Type} (d : list (pystr * V)) (k : pystr)
  : list (pystr * V) :=
  match d with
  | [] => []
  | (k', v') :: d' =>
      if str_eqb k k' then assoc_del d' k else (k', v') :: assoc_del d' k
  end.

(** [d.get(k)] as an option ([None] for Python's [None] default). *)
Definition dict_get (d : dict) (k : pystr) : option json := assoc_get d k.

(** [k in d] *)
Definition dict_mem (k : pystr) (d : dict) : bool :=
  match dict_get d k with Some _ => true | None => false end.

(** [d[k] = v] *)
Definition dict_set (d : dict) (k : pystr) (v : json) : dict := assoc_set d k v.

(** [d.update(d')] *)
Definition dict_update (d d' : dict) : dict :=
  fold_left (fun acc kv => dict_set acc (fst kv) (snd kv)) d' d.

(** [dict(items)] and the dict comprehension [{k: v for k, v in items}]. *)
Definition dict_of_items (items : list (pystr * json)) : dict :=
  dict_update [] items.

(** [bool(d)] for a dict. *)
Definition dict_nonempty (d : dict) : bool :=
  match d with [] => false | _ => true end.

(* ================================================================== *)
(** * The Chunker (identical in the three scripts) *)
(* ================================================================== *)

(** [[
def chunk_dict(data: dict, chunk_size: int):
    items = list(data.items())
    for i in range(0, len(items), chunk_size):
        yield dict(items[i:i + chunk_size])
]]
    The generator is always consumed by [list(...)]; its result is the list
    of chunks, or the exception [range] raises. *)
Definition chunk_dict (data : dict) (chunk_size : Z) : result (list dict) :=
  let items := data in
  bind (py_range 0 (Z.of_nat (length items)) chunk_size) (fun idxs =>
  Return (map (fun i => dict_of_items (py_slice items i (i + chunk_size))) idxs)).

(* ================================================================== *)
(** * The world: files, console, remote calls *)
(* ================================================================== *)

(** What a file holds: the [json.dump] of a dict, or text written with
    [f.write].  [json.load] gives back the dict that [json.dump] wrote. *)
Inductive content : Type :=
| FJson (d : dict)
| FText (s : pystr).

(** The lines the scripts print, one constructor per [print] call. *)
Inductive message : Type :=
(* translate.py *)
| MsgLoadingEnglish
| MsgEnglishLoaded
| MsgStarting (lang : pystr)
| MsgTranslatingChunk (lang : pystr)
| MsgChunkTranslated
| MsgDecodeError (e : pystr)
| MsgRawContent (raw : pystr)
| MsgSkippingChunk (idx total : nat) (e : exn)
| MsgSaved (lang out_file : pystr)
| MsgTempRemoved (temp_file : pystr)
| MsgNoTranslationData (lang : pystr)
(* translation_sync.py *)
| MsgLoadingSource
| MsgCounts (new_keys updates : nat)
| MsgSyncing (lang : pystr)
| MsgNoTranslationNeeded
| MsgErrorTranslatingChunk (e : exn)
| MsgSynced (lang : pystr)
| MsgCleanedUp
(* translation_checker.py *)
| MsgLoadingEnglishSource
| MsgNotFound (lang_file : pystr)
| MsgChecking (lang : pystr)
| MsgCouldNotParse (lang log_path : pystr)
| MsgUpdatedWritten (lang_file : pystr)
| MsgNoIssues (lang : pystr).

Inductive event : Type :=
| EvPrint (m : message)
| EvWrite (path : pystr) (c : content)
| EvRemove (path : pystr).

(** [files]: the file system; [trace]: everything printed, written and
    removed so far, oldest first; [calls]: how many requests were sent to the
    remote endpoint. *)
Record world : Type := mkWorld {
  files : list (pystr * content);
  trace : list event;
  calls : nat
}.

(** A computation reads and changes the world and returns or raises; what it
    did before raising stays done. *)
Definition M (A : Type) : Type := world -> result A * world.

Definition ret {A : Type} (a : A) : M A := fun w => (Return a, w).

Definition throw {A : Type} (e : exn) : M A := fun w => (Raise e, w).

Definition bindM {A B : Type} (m : M A) (k : A -> M B) : M B :=
  fun w =>
    match m w with
    | (Return a, w') => k a w'
    | (Raise e, w') => (Raise e, w')
    end.

(** [try: m  except Exception as e: h e] *)
Definition try_except {A : Type} (m : M A) (h : exn -> M A) : M A :=
  fun w =>
    match m w with
    | (Return a, w') => (Return a, w')
    | (Raise e, w') => h e w'
    end.

Declare Scope M_scope.
Delimit Scope M_scope with M.
Bind Scope M_scope with M.

Notation "x <- m ;; k" := (bindM m (fun x => k))
  (at level 61, m at next level, right associativity) : M_scope.
Notation "m ;; k" := (bindM m (fun _ => k))
  (at level 61, right associativity) : M_scope.

Local Open Scope M_scope.

(** A [for] loop that carries the variables it assigns in [s]. *)
Fixpoint for_loop {S A : Type} (body : S -> A -> M S) (l : list A) (s : S)
  : M S :=
  match l with
  | [] => ret s
  | a :: l' => s' <- body s a ;; for_loop body l' s'
  end.

(** [enumerate(l)] *)
Definition enumerate {A : Type} (l : list A) : list (nat * A) :=
  combine (seq 0 (length l)) l.

Definition lift {A : Type} (r : result A) : M A := fun w => (r, w).

Definition emit (e : event) : M unit :=
  fun w => (Return tt, mkWorld (files w) (trace w ++ [e]) (calls w)).

(** [print(...)] *)
Definition print (m : message) : M unit := emit (EvPrint m).

(** [with open(path, 'w') as f: ...]: the file is created or replaced. *)
Definition write_file (path : pystr) (c : content) : M unit :=
  fun w => (Return tt,
            mkWorld (assoc_set (files w) path c)
                    (trace w ++ [EvWrite path c]) (calls w)).

(** [os.remove(path)] of an existing file. *)
Definition remove_file (path : pystr) : M unit :=
  fun w => (Return tt,
            mkWorld (assoc_del (files w) path)
                    (trace w ++ [EvRemove path]) (calls w)).

(** [os.path.exists(path)] *)
Definition path_exists (path : pystr) : M bool :=
  fun w => (Return (match assoc_get (files w) path with
                    | Some _ => true | None => false end), w).

(** The proper ancestors of a path: its prefixes that end before a
    separator. *)
Fixpoint ancestors_from (pre rest : pystr) : list pystr :=
  match rest with
  | [] => []
  | c :: rest' =>
      (if N.eqb c 47%N then [pre] else [])
        ++ ancestors_from (pre ++ [c]) rest'
  end.

Definition is_file (fs : list (pystr * content)) (path : pystr) : bool :=
  match assoc_get fs path with Some _ => true | None => false end.

(** What stops [os.makedirs(path, exist_ok=True)]: the empty path (the
    [mkdir] of it fails), an ancestor that is a file, or a file under the
    path itself, trailing separators apart.  The exception carries the
    path asked for. *)
Definition makedirs_check (fs : list (pystr * content)) (path : pystr)
  : option exn :=
  let name := rstrip_chars (lit "/") path in
  match path with
  | [] => Some (FileNotFoundError path)
  | _ =>
      if existsb (is_file fs) (ancestors_from [] name)
      then Some (NotADirectoryError path)
      else if is_file fs name then Some (FileExistsError path)
      else None
  end.

(** [os.makedirs(path, exist_ok=True)]: directories hold no content, so a
    successful call changes no file. *)
Definition makedirs (path : pystr) : M unit :=
  fun w =>
    match makedirs_check (files w) path with
    | Some e => (Raise e, w)
    | None => (Return tt, w)
    end.

(** The outcome of [json.loads]. *)
Inductive decoded : Type :=
| Decoded (d : dict)
| DecodeError (msg : pystr).

(** [with open(path) as f: json.load(f)] *)
Definition read_json (json_loads : pystr -> decoded) (path : pystr) : M dict :=
  fun w =>
    match assoc_get (files w) path with
    | None => (Raise (FileNotFoundError path), w)
    | Some (FJson d) => (Return d, w)
    | Some (FText s) =>
        match json_loads s with
        | Decoded d => (Return d, w)
        | DecodeError msg => (Raise (JSONDecodeError msg), w)
        end
    end.

(** [os.path.join(a, b)] on POSIX. *)
Definition path_join (a b : pystr) : pystr :=
  if startswith (lit "/") b then b
  else match a with
       | [] => b
       | _ => if endswith (lit "/") a then a ++ b else a ++ lit "/" ++ b
       end.

(** The remote endpoint: the [n]-th request, for a chunk (with the
    translated counterpart on the QA pass) and a language, returns the
    message text or raises. *)
Definition endpoint : Type := nat -> dict -> pystr -> result pystr.

Definition request (complete : endpoint) (chunk : dict) (lang : pystr)
  : M pystr :=
  fun w => (complete (calls w) chunk lang,
            mkWorld (files w) (trace w) (Datatypes.S (calls w))).

(** The Markdown fence markers of the three scripts. *)
Definition fence_json : pystr := lit "```json".
Definition fence : pystr := lit "```".

(* ================================================================== *)
(** * translate.py *)
(* ================================================================== *)

Module Translate.
Section Script.

Variable complete : endpoint.
Variable json_loads : pystr -> decoded.

(** Lines 232-240: the fence markers are removed with [lstrip]/[rstrip]. *)
Definition clean_content (raw : pystr) : pystr :=
  let content := strip raw in
  let content :=
    if startswith fence_json content then
      strip (lstrip_chars fence_json content)
    else if startswith fence content then
      strip (lstrip_chars fence content)
    else content in
  if endswith fence content then strip (rstrip_chars fence content)
  else content.

(** Lines 242-250. *)
Definition decode_content (content : pystr) : M dict :=
  match json_loads content with
  | Decoded translated_chunk =>
      print MsgChunkTranslated ;;
      ret translated_chunk
  | DecodeError e =>
      print (MsgDecodeError e) ;;
      print (MsgRawContent content) ;;
      throw (ValueError
               (lit "Failed to decode JSON from API response: " ++ e))
  end.

Definition translate_chunk (chunk : dict) (target_language : pystr) : M dict :=
  print (MsgTranslatingChunk target_language) ;;
  raw <- request complete chunk target_language ;;
  decode_content (clean_content raw).

Definition out_file_of (output_base_folder lang : pystr) : pystr :=
  path_join output_base_folder (lang ++ lit ".json").

Definition temp_file_of (output_base_folder lang : pystr) : pystr :=
  path_join output_base_folder (lang ++ lit ".temp.json").

Definition error_log_of (output_base_folder lang : pystr) (idx : nat) : pystr :=
  path_join output_base_folder
    (lang ++ lit "_error_chunk_" ++ str_of_nat (idx + 1) ++ lit ".log").

(** Lines 274-292: the body of the chunk loop; [translated_data] is the
    variable the loop updates. *)
Definition chunk_step (output_base_folder lang : pystr) (total : nat)
    (translated_data : dict) (ic : nat * dict) : M dict :=
  let (idx, chunk) := ic in
  try_except
    (translated_chunk <- translate_chunk chunk lang ;;
     let translated_data := dict_update translated_data translated_chunk in
     write_file (temp_file_of output_base_folder lang) (FJson translated_data) ;;
     ret translated_data)
    (fun e =>
       print (MsgSkippingChunk (idx + 1) total e) ;;
       write_file (error_log_of output_base_folder lang idx)
                  (FText (str_of_exn e)) ;;
       ret translated_data).

(** Lines 267-305: the body of the language loop. *)
Definition translate_lang (original_data : dict) (output_base_folder : pystr)
    (chunk_size : Z) (lang : pystr) : M unit :=
  print (MsgStarting lang) ;;
  chunks <- lift (chunk_dict original_data chunk_size) ;;
  let out_file := out_file_of output_base_folder lang in
  let temp_file := temp_file_of output_base_folder lang in
  translated_data <-
    for_loop (chunk_step output_base_folder lang (length chunks))
             (enumerate chunks) [] ;;
  if dict_nonempty translated_data then
    write_file out_file (FJson translated_data) ;;
    print (MsgSaved lang out_file) ;;
    temp_exists <- path_exists temp_file ;;
    if temp_exists : bool then
      remove_file temp_file ;;
      print (MsgTempRemoved temp_file)
    else ret tt
  else
    print (MsgNoTranslationData lang).

(** Lines 253-305. *)
Definition translate_file (input_file output_base_folder : pystr)
    (target_languages : list pystr) (chunk_size : Z) : M unit :=
  print MsgLoadingEnglish ;;
  original_data <- read_json json_loads input_file ;;
  print MsgEnglishLoaded ;;
  makedirs output_base_folder ;;
  for_loop (fun _ lang =>
              translate_lang original_data output_base_folder chunk_size lang)
           target_languages tt.

End Script.
End Translate.

(* ================================================================== *)
(** * translation_sync.py *)
(* ================================================================== *)

(** [v[k]] for a dict [v]; a missing key is a [KeyError]. *)
Definition getitem (d : dict) (k : pystr) : result json :=
  match dict_get d k with
  | Some v => Return v
  | None => Raise (KeyError k)
  end.

Module Sync.

(** [isinstance(v, dict) and v.get("update")] *)
Definition is_update (v : json) : bool :=
  match v with
  | JObj d => match dict_get d (lit "update") with
              | Some u => truthy u
              | None => false
              end
  | _ => false
  end.

(** Line 128. *)
Definition updates_of (en_data : dict) : dict :=
  dict_of_items (filter (fun kv => is_update (snd kv)) en_data).

(** Line 129. *)
Definition new_keys_of (en_data updates : dict) : dict :=
  dict_of_items
    (filter (fun kv => negb (dict_mem (fst kv) updates)
                       && negb (is_dict (snd kv))) en_data).

(** Lines 145-147. *)
Definition add_new_keys (target_data new_keys to_translate : dict) : dict :=
  fold_left (fun to_translate kv =>
               if negb (dict_mem (fst kv) target_data)
               then dict_set to_translate (fst kv) (snd kv)
               else to_translate)
            new_keys to_translate.

(** Line 151: [update["text"] if isinstance(update, dict) else update]. *)
Definition update_text (update : json) : result json :=
  match update with
  | JObj d => getitem d (lit "text")
  | _ => Return update
  end.

(** Lines 149-151. *)
Fixpoint add_updates (en_data : dict) (updates : list (pystr * json))
    (to_translate : dict) : result dict :=
  match updates with
  | [] => Return to_translate
  | (key, update) :: rest =>
      if dict_mem key en_data then
        bind (update_text update) (fun text =>
        add_updates en_data rest (dict_set to_translate key text))
      else add_updates en_data rest to_translate
  end.

(** Lines 143-151: the Sync Planner's work-set for one locale. *)
Definition to_translate_of (en_data target_data : dict) : result dict :=
  let updates := updates_of en_data in
  let new_keys := new_keys_of en_data updates in
  add_updates en_data updates (add_new_keys target_data new_keys []).

(** Line 173: [updates[key]["text"] if "text" in updates[key] else updates[key]]. *)
Definition collapsed (update : json) : result json :=
  match update with
  | JObj d => if dict_mem (lit "text") d then getitem d (lit "text")
              else Return update
  | _ => Return update   (* not reached: [updates] holds dicts only *)
  end.

(** Lines 171-173. *)
Fixpoint clean_up (updates : dict) (ks : list pystr) (en_data : dict)
  : result dict :=
  match ks with
  | [] => Return en_data
  | key :: rest =>
      bind (getitem en_data key) (fun cur =>
      if is_dict cur then
        bind (getitem updates key) (fun u =>
        bind (collapsed u) (fun v =>
        clean_up updates rest (dict_set en_data key v)))
      else clean_up updates rest en_data)
  end.

Section Script.

Variable complete : endpoint.
Variable json_loads : pystr -> decoded.

(** Lines 110-116: the same fence removal as in translate.py. *)
Definition clean_content (raw : pystr) : pystr :=
  let content := strip raw in
  let content :=
    if startswith fence_json content then
      strip (lstrip_chars fence_json content)
    else if startswith fence content then
      strip (lstrip_chars fence content)
    else content in
  if endswith fence content then strip (rstrip_chars fence content)
  else content.

(** Lines 118-121. *)
Definition decode_content (content : pystr) : M dict :=
  match json_loads content with
  | Decoded d => ret d
  | DecodeError e =>
      throw (ValueError (lit "Invalid JSON in translation: " ++ e
                         ++ [10%N; 10%N] ++ content))
  end.

Definition translate_chunk (chunk : dict) (target_language : pystr) : M dict :=
  raw <- request complete chunk target_language ;;
  decode_content (clean_content raw).

Definition out_path_of (output_folder lang : pystr) : pystr :=
  path_join output_folder (lang ++ lit ".json").

(** Lines 159-163: the body of the chunk loop. *)
Definition chunk_step (lang : pystr) (translated_data chunk : dict) : M dict :=
  try_except
    (result <- translate_chunk chunk lang ;;
     ret (dict_update translated_data result))
    (fun e =>
       print (MsgErrorTranslatingChunk e) ;;
       ret translated_data).

(** Lines 157-163. *)
Definition translate_chunks (lang : pystr) (chunks : list dict) : M dict :=
  for_loop (chunk_step lang) chunks [].

(** Lines 134-168: the body of the language loop. *)
Definition sync_lang (en_data : dict) (output_folder : pystr)
    (chunk_size : Z) (lang : pystr) : M unit :=
  print (MsgSyncing lang) ;;
  let out_path := out_path_of output_folder lang in
  out_exists <- path_exists out_path ;;
  target_data <- (if out_exists : bool then read_json json_loads out_path
                  else ret []) ;;
  to_translate <- lift (to_translate_of en_data target_data) ;;
  if negb (dict_nonempty to_translate) then
    print MsgNoTranslationNeeded
  else
    chunks <- lift (chunk_dict to_translate chunk_size) ;;
    translated_data <- translate_chunks lang chunks ;;
    let target_data := dict_update target_data translated_data in
    write_file out_path (FJson target_data) ;;
    print (MsgSynced lang).

Definition translate_sync (input_file output_folder : pystr)
    (target_languages : list pystr) (chunk_size : Z) : M unit :=
  print MsgLoadingSource ;;
  en_data <- read_json json_loads input_file ;;
  let updates := updates_of en_data in
  let new_keys := new_keys_of en_data updates in
  print (MsgCounts (length new_keys) (length updates)) ;;
  for_loop (fun _ lang => sync_lang en_data output_folder chunk_size lang)
           target_languages tt ;;
  en_data <- lift (clean_up updates (keys updates) en_data) ;;
  write_file input_file (FJson en_data) ;;
  print MsgCleanedUp.

End Script.

(** Lines 78-85: the configuration of the script.  [listing] is what
    [os.listdir(OUTPUT_FOLDER)] returns. *)
Definition INPUT_FILE_PATH : pystr := lit "messages/en.json".
Definition OUTPUT_FOLDER : pystr := lit "messages".
Definition CHUNK_SIZE : Z := 36.

Definition LANGUAGES_TO_TRANSLATE (listing : list pystr) : list pystr :=
  map (fun lang => py_slice lang 0 (-5))
      (filter (fun lang => endswith (lit ".json") lang
                           && negb (str_eqb lang (lit "en.json")))
              listing).

End Sync.

(* ================================================================== *)
(** * translation_checker.py *)
(* ================================================================== *)

(** The part of Python's [re] the script touches.  A pattern is compiled
    before it is matched; compilation rejects a look-behind whose body can
    match strings of different lengths. *)
Inductive regex : Type :=
| ReLit (s : pystr)           (* literal characters *)
| ReAny                       (* [.] *)
| ReNoneOf (chars : pystr)    (* a negated class *)
| ReSeq (a b : regex)
| ReAlt (a b : regex)
| ReGroup (a : regex)
| ReOpt (a : regex)           (* [a?] *)
| ReStar (a : regex)          (* [a*] *)
| ReStarLazy (a : regex)      (* [a*?] *)
| ReLookbehind (a : regex).   (* [(?<=a)] *)

(** [getwidth]: the least and the greatest length of a match ([None]: no
    bound). *)
Fixpoint getwidth (r : regex) : nat * option nat :=
  match r with
  | ReLit s => (length s, Some (length s))
  | ReAny => (1%nat, Some 1%nat)
  | ReNoneOf _ => (1%nat, Some 1%nat)
  | ReSeq a b =>
      let (la, ha) := getwidth a in
      let (lb, hb) := getwidth b in
      ((la + lb)%nat,
       match ha, hb with
       | Some x, Some y => Some (x + y)%nat
       | _, _ => None
       end)
  | ReAlt a b =>
      let (la, ha) := getwidth a in
      let (lb, hb) := getwidth b in
      (Nat.min la lb,
       match ha, hb with
       | Some x, Some y => Some (Nat.max x y)
       | _, _ => None
       end)
  | ReGroup a => getwidth a
  | ReOpt a => (0%nat, snd (getwidth a))
  | ReStar a | ReStarLazy a =>
      (0%nat, match snd (getwidth a) with
              | Some 0%nat => Some 0%nat
              | _ => None
              end)
  | ReLookbehind _ => (0%nat, Some 0%nat)
  end.

Definition fixed_width (r : regex) : bool :=
  match getwidth r with
  | (lo, Some hi) => Nat.eqb lo hi
  | (_, None) => false
  end.

(** Every look-behind of the pattern has a fixed width. *)
Fixpoint compiles (r : regex) : bool :=
  match r with
  | ReLit _ | ReAny | ReNoneOf _ => true
  | ReSeq a b | ReAlt a b => compiles a && compiles b
  | ReGroup a | ReOpt a | ReStar a | ReStarLazy a => compiles a
  | ReLookbehind a => fixed_width a && compiles a
  end.

(** [re.compile] *)
Definition re_compile (r : regex) : result regex :=
  if compiles r then Return r
  else Raise (ReError (lit "look-behind requires fixed-width pattern")).

(** The matching engine, for patterns that compile. *)
Record re_engine : Type := mkEngine {
  (** [re.sub(pattern, repl, string)], [repl] applied to [m.group(0)] *)
  engine_sub : regex -> (pystr -> pystr) -> pystr -> pystr;
  (** [re.search(pattern, string, re.DOTALL)], giving [m.group(0)] *)
  engine_search : regex -> pystr -> option pystr
}.

Definition re_sub (eng : re_engine) (pattern : regex) (repl : pystr -> pystr)
    (s : pystr) : result pystr :=
  bind (re_compile pattern) (fun p => Return (engine_sub eng p repl s)).

Definition re_search (eng : re_engine) (pattern : regex) (s : pystr)
  : result (option pystr) :=
  bind (re_compile pattern) (fun p => Return (engine_search eng p s)).

Module Checker.

(** The double quote and the backslash. *)
Definition dquote : pystr := [34%N].
Definition backslash : pystr := [92%N].

(** Line 88, the raw string
    [(?<="translation":\\s?)"(.*?[^\\])"|(?<="issue":\\s?)"(.*?[^\\])"].
    In a raw string [\\s?] is an escaped backslash followed by an optional
    letter [s]; [[^\\]] is every character but the backslash. *)
Definition quoted_value_after (field : pystr) : regex :=
  ReSeq (ReLookbehind
           (ReSeq (ReLit (dquote ++ field ++ dquote ++ lit ":"))
                  (ReSeq (ReLit backslash) (ReOpt (ReLit (lit "s"))))))
        (ReSeq (ReLit dquote)
               (ReSeq (ReGroup (ReSeq (ReStarLazy ReAny) (ReNoneOf backslash)))
                      (ReLit dquote))).

Definition pattern : regex :=
  ReAlt (quoted_value_after (lit "translation"))
        (quoted_value_after (lit "issue")).

(** Line 119, [{.*}]. *)
Definition braces_pattern : regex :=
  ReSeq (ReLit (lit "{")) (ReSeq (ReStar ReAny) (ReLit (lit "}"))).

(** [TRANSLATION_FOLDER] *)
Definition TRANSLATION_FOLDER : pystr := lit "messages".

(** Lines 84-85 and the [lambda] of line 89, on [m.group(0)]. *)
Definition escape_inner_quotes (group0 : pystr) : pystr :=
  replace_char 34%N (backslash ++ dquote) group0.

Definition repl (group0 : pystr) : pystr :=
  dquote ++ escape_inner_quotes group0 ++ dquote.

Section Script.

Variable eng : re_engine.
Variable json_loads : pystr -> decoded.

(** Lines 76-89. *)
Definition clean_quotes_and_escape (content : pystr) : result pystr :=
  let content :=
    replace_char 187%N dquote
      (replace_char 171%N dquote
        (replace_char 8217%N (lit "'")
          (replace_char 8216%N (lit "'")
            (replace_char 8221%N dquote
              (replace_char 8220%N dquote content))))) in
  re_sub eng pattern repl content.

(** Lines 103-111: the fence markers are removed by slicing. *)
Definition clean_content (raw : pystr) : pystr :=
  let content := strip raw in
  let content :=
    if startswith fence_json content then
      strip (py_slice_from content (Z.of_nat (length fence_json)))
    else if startswith fence content then
      strip (py_slice_from content (Z.of_nat (length fence)))
    else content in
  if endswith fence content then strip (py_slice content 0 (-3))
  else content.

Definition parse_error_log_of (target_language : pystr) : pystr :=
  path_join TRANSLATION_FOLDER (target_language ++ lit "_parse_error.log").

(** Lines 127-131. *)
Definition report_failure (target_language content : pystr) : M dict :=
  let log_path := parse_error_log_of target_language in
  write_file log_path (FText content) ;;
  print (MsgCouldNotParse target_language log_path) ;;
  ret [(lit "error", JStr content)].

(** Lines 113-131. *)
Definition decode_content (target_language content : pystr) : M dict :=
  content <- lift (clean_quotes_and_escape content) ;;
  match json_loads content with
  | Decoded d => ret d
  | DecodeError _ =>
      json_match <- lift (re_search eng braces_pattern content) ;;
      match json_match with
      | Some group0 =>
          raw <- lift (clean_quotes_and_escape group0) ;;
          match json_loads raw with
          | Decoded d => ret d
          | DecodeError _ => report_failure target_language content
          end
      | None => report_failure target_language content
      end
  end.

(** The reviewing endpoint receives the English chunk and its translated
    counterpart. *)
Definition review_endpoint : Type :=
  nat -> dict -> dict -> pystr -> result pystr.

Variable complete : review_endpoint.

Definition review_request (en_chunk translated_chunk : dict)
    (target_language : pystr) : M pystr :=
  fun w => (complete (calls w) en_chunk translated_chunk target_language,
            mkWorld (files w) (trace w) (Datatypes.S (calls w))).

Definition check_translation_chunk (en_chunk translated_chunk : dict)
    (target_language : pystr) : M dict :=
  raw <- review_request en_chunk translated_chunk target_language ;;
  decode_content target_language (clean_content raw).

(** Line 156: [{k: translated_data.get(k, "") for k in chunk.keys()}]. *)
Definition translated_chunk_of (translated_data chunk : dict) : dict :=
  dict_of_items
    (map (fun k => (k, match dict_get translated_data k with
                       | Some v => v
                       | None => JStr []
                       end))
         (keys chunk)).

(** Lines 161-163. *)
Definition apply_problems (problems translated_data : dict) : dict :=
  fold_left (fun translated_data kv =>
               match snd kv with
               | JObj data =>
                   match dict_get data (lit "translation") with
                   | Some t => dict_set translated_data (fst kv) t
                   | None => translated_data
                   end
               | _ => translated_data
               end)
            problems translated_data.

(** [check_translations] with the chunk reviewer it calls as a parameter. *)
Section Reviewer.

Variable check_chunk : dict -> dict -> pystr -> M dict.

(** Lines 155-158. *)
Definition review_step (translated_data : dict) (lang : pystr)
    (problems chunk : dict) : M dict :=
  let translated_chunk := translated_chunk_of translated_data chunk in
  issues <- check_chunk chunk translated_chunk lang ;;
  ret (dict_update problems issues).

(** Lines 144-168: the body of the language loop. *)
Definition check_lang (en_data : dict) (folder : pystr) (chunk_size : Z)
    (lang : pystr) : M unit :=
  let lang_file := path_join folder (lang ++ lit ".json") in
  lang_exists <- path_exists lang_file ;;
  if negb lang_exists then
    print (MsgNotFound lang_file)
  else
    print (MsgChecking lang) ;;
    translated_data <- read_json json_loads lang_file ;;
    chunks <- lift (chunk_dict en_data chunk_size) ;;
    problems <- for_loop (review_step translated_data lang) chunks [] ;;
    if dict_nonempty problems then
      let translated_data := apply_problems problems translated_data in
      write_file lang_file (FJson translated_data) ;;
      print (MsgUpdatedWritten lang_file)
    else
      print (MsgNoIssues lang).

Definition check_translations_with (input_file folder : pystr)
    (languages : list pystr) (chunk_size : Z) : M unit :=
  print MsgLoadingEnglishSource ;;
  en_data <- read_json json_loads input_file ;;
  for_loop (fun _ lang => check_lang en_data folder chunk_size lang)
           languages tt.

End Reviewer.

(** Lines 138-168. *)
Definition check_translations : pystr -> pystr -> list pystr -> Z -> M unit :=
  check_translations_with check_translation_chunk.

End Script.

(** Lines 46-54: the configuration of the script.  [listing] is what
    [os.listdir(TRANSLATION_FOLDER)] returns. *)
Definition INPUT_FILE_PATH : pystr := lit "messages/en.json".

Definition LANGUAGES_TO_CHECK (listing : list pystr) : list pystr :=
  map (fun f => py_slice f 0 (-5))
      (filter (fun f => endswith (lit ".json") f
                        && negb (str_eqb f (lit "en.json")))
              listing).

End Checker.


(* ================================================================== *)
(** * Vocabulary of the statements *)
(* ================================================================== *)

(** ** The Sync Planner *)

(** The [text] of a directive record. *)
Definition directive_text (u : json) : option json :=
  match u with
  | JObj d => dict_get d (lit "text")
  | _ => None
  end.

(** The String Table entries that are no records and are missing from the
    Locale File [T], in String Table order. *)
Definition plain_items (S T : dict) : dict :=
  filter (fun kv => negb (is_dict (snd kv)) && negb (dict_mem (fst kv) T)) S.

(** The directives of the String Table with their [text], in String Table
    order. *)
Definition directive_items (S : dict) : dict :=
  flat_map (fun kv => if Sync.is_update (snd kv)
                      then match directive_text (snd kv) with
                           | Some t => [(fst kv, t)]
                           | None => []
                           end
                      else []) S.

(** A directive collapsed to its [text]; a directive without [text] and
    every other value stay as they are. *)
Definition collapse_value (v : json) : json :=
  if Sync.is_update v then
    match directive_text v with
    | Some t => t
    | None => v
    end
  else v.

Definition collapse (S : dict) : dict :=
  map (fun kv => (fst kv, collapse_value (snd kv))) S.

(** ** Worlds and traces *)

(** What an event does to the file system. *)
Definition apply_event (f : list (pystr * content)) (e : event)
  : list (pystr * content) :=
  match e with
  | EvPrint _ => f
  | EvWrite p c => assoc_set f p c
  | EvRemove p => assoc_del f p
  end.

Definition replay (tr : list event) (f : list (pystr * content))
  : list (pystr * content) :=
  fold_left apply_event tr f.

(** The world after the events [tr] and [c] more remote calls. *)
Definition advance (w : world) (tr : list event) (c : nat) : world :=
  mkWorld (replay tr (files w)) (trace w ++ tr) (calls w + c).

(** Events that touch the file system. *)
Definition is_effect (e : event) : bool :=
  match e with EvPrint _ => false | _ => true end.

Definition effects (tr : list event) : list event := filter is_effect tr.

(** A diagnostic artifact: a text file written by the run. *)
Definition is_artifact (e : event) : bool :=
  match e with EvWrite _ (FText _) => true | _ => false end.

Definition artifacts (tr : list event) : list event := filter is_artifact tr.

(** What was written to the path [p], oldest first. *)
Definition writes_to (p : pystr) (tr : list event) : list content :=
  flat_map (fun e => match e with
                     | EvWrite q c => if str_eqb q p then [c] else []
                     | _ => []
                     end) tr.

(** Some event writes or removes the path [p]. *)
Definition touches (p : pystr) (tr : list event) : bool :=
  existsb (fun e => match e with
                    | EvWrite q _ => str_eqb q p
                    | EvRemove q => str_eqb q p
                    | EvPrint _ => false
                    end) tr.

(** The chunk errors the sync script printed, oldest first. *)
Definition printed_errors (tr : list event) : list exn :=
  flat_map (fun e => match e with
                     | EvPrint (MsgErrorTranslatingChunk x) => [x]
                     | _ => []
                     end) tr.

(** The dict held by a JSON file of the world. *)
Definition json_file (w : world) (p : pystr) : option dict :=
  match assoc_get (files w) p with
  | Some (FJson d) => Some d
  | _ => None
  end.

(** A Locale File that is missing or holds a dict: what the sync script
    starts a locale from. *)
Definition locale_data (w : world) (p : pystr) : option dict :=
  match assoc_get (files w) p with
  | None => Some []
  | Some (FJson d) => Some d
  | Some (FText _) => None
  end.

(** ** Chunk outcomes *)

(** [acc.update(r)] when the chunk succeeded, [acc] when it failed. *)
Definition merge_outcome (acc : dict) (o : result dict) : dict :=
  match o with
  | Return r => dict_update acc r
  | Raise _ => acc
  end.

(** The translated data of a locale, from the outcomes of its chunks. *)
Definition merged (outs : list (result dict)) : dict :=
  fold_left merge_outcome outs [].

(** The response [r] decoded for a chunk keeps the chunk's key set (the
    contract of a Translation Result). *)
Definition same_keys (r chunk : dict) : Prop :=
  forall k, In k (keys r) <-> In k (keys chunk).

Section BulkOutcomes.

Variable complete : endpoint.
Variable json_loads : pystr -> decoded.
Variable folder lang : pystr.

(** What [Translate.translate_chunk] gives on the [n]-th remote call. *)
Definition bulk_outcome (n : nat) (chunk : dict) : result dict :=
  match complete n chunk lang with
  | Raise e => Raise e
  | Return raw =>
      match json_loads (Translate.clean_content raw) with
      | Decoded d => Return d
      | DecodeError e =>
          Raise (ValueError
                   (lit "Failed to decode JSON from API response: " ++ e))
      end
  end.

Fixpoint bulk_outcomes (n : nat) (chunks : list dict) : list (result dict) :=
  match chunks with
  | [] => []
  | chunk :: rest => bulk_outcome n chunk :: bulk_outcomes (Datatypes.S n) rest
  end.

(** The file a chunk step of translate.py writes: the intermediate file on
    success, the error log on failure. *)
Definition bulk_effect (idx : nat) (acc : dict) (o : result dict) : event :=
  match o with
  | Return r => EvWrite (Translate.temp_file_of folder lang)
                        (FJson (dict_update acc r))
  | Raise e => EvWrite (Translate.error_log_of folder lang idx)
                       (FText (str_of_exn e))
  end.

Fixpoint bulk_effects (idx : nat) (outs : list (result dict)) (acc : dict)
  : list event :=
  match outs with
  | [] => []
  | o :: rest =>
      bulk_effect idx acc o
        :: bulk_effects (Datatypes.S idx) rest (merge_outcome acc o)
  end.

(** What [Sync.translate_chunk] gives on the [n]-th remote call. *)
Definition sync_outcome (n : nat) (chunk : dict) : result dict :=
  match complete n chunk lang with
  | Raise e => Raise e
  | Return raw =>
      match json_loads (Sync.clean_content raw) with
      | Decoded d => Return d
      | DecodeError e =>
          Raise (ValueError (lit "Invalid JSON in translation: " ++ e
                             ++ [10%N; 10%N] ++ Sync.clean_content raw))
      end
  end.

Fixpoint sync_outcomes (n : nat) (chunks : list dict) : list (result dict) :=
  match chunks with
  | [] => []
  | chunk :: rest => sync_outcome n chunk :: sync_outcomes (Datatypes.S n) rest
  end.

End BulkOutcomes.

(** The exceptions among the outcomes, oldest first. *)
Definition failures (outs : list (result dict)) : list exn :=
  flat_map (fun o => match o with Raise e => [e] | Return _ => [] end) outs.

(** The lines the sync script prints for failed chunks. *)
Definition error_prints (es : list exn) : list event :=
  map (fun e => EvPrint (MsgErrorTranslatingChunk e)) es.

(** ** The QA pass *)

(** The reviewer [check_chunk] answers its [n]-th call with [outcome] and
    leaves the file [p] alone. *)
Definition reviews_as (check_chunk : dict -> dict -> pystr -> M dict)
    (outcome : nat -> dict -> dict -> pystr -> result dict) (p : pystr)
  : Prop :=
  forall en_chunk translated_chunk lang w,
  exists tr,
    touches p tr = false /\
    check_chunk en_chunk translated_chunk lang w =
    (outcome (calls w) en_chunk translated_chunk lang, advance w tr 1).

(** A simulated reviewer: answers with [outcome] and does nothing else. *)
Definition simulated_reviewer
    (outcome : nat -> dict -> dict -> pystr -> result dict)
  : dict -> dict -> pystr -> M dict :=
  fun en_chunk translated_chunk lang w =>
    (outcome (calls w) en_chunk translated_chunk lang,
     mkWorld (files w) (trace w) (Datatypes.S (calls w))).

Fixpoint review_outcomes
    (outcome : nat -> dict -> dict -> pystr -> result dict)
    (translated_data : dict) (lang : pystr) (n : nat) (chunks : list dict)
  : list (result dict) :=
  match chunks with
  | [] => []
  | chunk :: rest =>
      outcome n chunk (Checker.translated_chunk_of translated_data chunk) lang
        :: review_outcomes outcome translated_data lang (Datatypes.S n) rest
  end.

(** The problems accumulated over the chunks; the first exception ends the
    review. *)
Fixpoint review_fold (outs : list (result dict)) (problems : dict)
  : result dict :=
  match outs with
  | [] => Return problems
  | Return issues :: rest => review_fold rest (dict_update problems issues)
  | Raise e :: _ => Raise e
  end.

(** ** Fenced responses *)

(** The text of a JSON object: a brace-delimited body, whitespace around. *)
Definition object_text (t : pystr) : Prop :=
  exists pre body post,
    forallb is_space pre = true /\ forallb is_space post = true /\
    t = pre ++ lit "{" ++ body ++ lit "}" ++ post.

(** [t] in a fenced code block opened by [tag] ([fence_json] or [fence]),
    with the whitespace [ws1], [ws2] (line breaks, usually) inside. *)
Definition fenced (tag ws1 t ws2 : pystr) : pystr :=
  tag ++ ws1 ++ t ++ ws2 ++ fence.

Definition newline : pystr := [10%N].

(** ** Diagnostic artifacts of translate.py *)

(** The error logs of the failed chunks, numbered from [idx]. *)
Fixpoint error_logs (folder lang : pystr) (idx : nat)
    (outs : list (result dict)) : list event :=
  match outs with
  | [] => []
  | Return _ :: rest => error_logs folder lang (Datatypes.S idx) rest
  | Raise e :: rest =>
      EvWrite (Translate.error_log_of folder lang idx) (FText (str_of_exn e))
        :: error_logs folder lang (Datatypes.S idx) rest
  end.

(** [lstrip_by p] stops at [s]: [s] is empty or starts outside [p]. *)
Definition stops (p : N -> bool) (s : pystr) : Prop :=
  match s with
  | [] => True
  | c :: _ => p c = false
  end.

(** ** The QA pass, continued *)

(** How many chunks are reviewed: all of them, or those up to the first
    exception. *)
Fixpoint reviewed (outs : list (result dict)) : nat :=
  match outs with
  | [] => 0
  | Return _ :: rest => Datatypes.S (reviewed rest)
  | Raise _ :: _ => 1
  end.

(** What the repository's own [check_translation_chunk] answers: the
    exception of the remote call, or the one of [re.sub]. *)
Definition checker_outcome (complete : Checker.review_endpoint)
  : nat -> dict -> dict -> pystr -> result dict :=
  fun n en_chunk translated_chunk lang =>
    match complete n en_chunk translated_chunk lang with
    | Return _ =>
        Raise (ReError (lit "look-behind requires fixed-width pattern"))
    | Raise e => Raise e
    end.

(** ** Simulated collaborators *)

(** A Translation Client that answers its [n]-th request with the [n]-th
    reply of a script. *)
Definition scripted (replies : list (result pystr)) : endpoint :=
  fun n _ _ => nth n replies (Raise (RemoteError (lit "no reply"))).

(** A decoder that knows the texts of a table. *)
Definition table_loads (table : list (pystr * dict)) : pystr -> decoded :=
  fun s => match assoc_get table s with
           | Some d => Decoded d
           | None => DecodeError (lit "Expecting value")
           end.

(** A world with the given files, nothing printed, no request sent. *)
Definition start (fs : list (pystr * content)) : world := mkWorld fs [] 0.

(** The keys of a list are pairwise distinct. *)
Fixpoint distinct (l : list pystr) : bool :=
  match l with
  | [] => true
  | k :: rest => negb (existsb (str_eqb k) rest) && distinct rest
  end.

(** The reviewer answers with Problem Records: every entry of an answer
    is a record with a [translation]. *)
Definition problem_records
    (outcome : nat -> dict -> dict -> pystr -> result dict) : Prop :=
  forall i en_chunk translated_chunk lang issues k v,
    outcome i en_chunk translated_chunk lang = Return issues ->
    In (k, v) issues ->
    exists data t,
      v = JObj data /\ dict_get data (lit "translation") = Some t.

(** A computation that leaves the file system alone: it prints and calls
    the endpoint at most. *)
Definition quiet {A : Type} (m : M A) : Prop :=
  forall w, exists tr c, snd (m w) = advance w tr c /\ effects tr = [].

(** A text that can be written to a UTF-8 file: code points of the Unicode
    range, no surrogates.  A file write or a [print] of any other text
    raises [UnicodeEncodeError] in Python. *)
Definition utf8_char (c : N) : bool :=
  ((c <=? 1114111) && negb ((55296 <=? c) && (c <=? 57343)))%N.

Definition utf8_text (s : pystr) : bool := forallb utf8_char s.

Fixpoint utf8_json (v : json) : bool :=
  match v with
  | JStr s => utf8_text s
  | JArr l => forallb utf8_json l
  | JObj d => forallb (fun kv => utf8_text (fst kv) && utf8_json (snd kv)) d
  | _ => true
  end.

(** What a chunk step of translate.py writes for an outcome, the data or
    the text of the exception, can be written. *)
Definition writable_outcome (o : result dict) : bool :=
  match o with
  | Return r => utf8_json (JObj r)
  | Raise e => utf8_text (str_of_exn e)
  end.

(** ** Examples *)

Module Example.

Definition folder : pystr := lit "messages".
Definition en_path : pystr := lit "messages/en.json".
Definition fr : pystr := lit "fr".
Definition fr_path : pystr := lit "messages/fr.json".
Definition es : pystr := lit "es".
Definition es_path : pystr := lit "messages/es.json".

(** The String Table of the end-to-end scenario:
    [{"a": "Hello", "b": {"text": "Goodbye", "update": true}}]. *)
Definition table : dict :=
  [(lit "a", JStr (lit "Hello"));
   (lit "b", JObj [(lit "text", JStr (lit "Goodbye"));
                   (lit "update", JBool true)])].

(** Three plain entries, one chunk each at chunk size 1. *)
Definition three : dict :=
  [(lit "a", JStr (lit "Hello"));
   (lit "b", JStr (lit "Goodbye"));
   (lit "c", JStr (lit "Thanks"))].

(** [{"a": {"text": "Hi", "update": false}}]: a record that is no update
    directive. *)
Definition unflagged : dict :=
  [(lit "a", JObj [(lit "text", JStr (lit "Hi"));
                   (lit "update", JBool false)])].

(** [{"k": {"update": true}}]: a directive without [text]. *)
Definition textless : dict :=
  [(lit "k", JObj [(lit "update", JBool true)])].

(** Responses, as texts and decoded. *)
Definition reply_a : pystr := lit "{a: Bonjour}".
Definition reply_b : pystr := lit "{b: Au revoir}".
Definition reply_c : pystr := lit "{c: Merci}".
Definition reply_zz : pystr := lit "{zz: Surprise}".

Definition decoder : pystr -> decoded :=
  table_loads
    [(reply_a, [(lit "a", JStr (lit "Bonjour"))]);
     (reply_b, [(lit "b", JStr (lit "Au revoir"))]);
     (reply_c, [(lit "c", JStr (lit "Merci"))]);
     (reply_zz, [(lit "zz", JStr (lit "Surprise"))])].

Definition timed_out : exn := RemoteError (lit "timeout").

(** The client fails on the second of three chunks; the first response
    comes in a tagged fence, the third in an untagged one. *)
Definition flaky : endpoint :=
  scripted [Return (fence_json ++ [10%N] ++ reply_a ++ [10%N] ++ fence);
            Raise timed_out;
            Return (fence ++ [10%N] ++ reply_c ++ [10%N] ++ fence)].

(** The client fails on every chunk. *)
Definition down : endpoint := scripted [].

(** The client answers the first chunk with a key nobody asked for. *)
Definition inventive : endpoint :=
  scripted [Return reply_zz; Return reply_b; Return reply_c].

(** The client answers the first two chunks with the same key, which is
    in no chunk. *)
Definition reply_zz_again : pystr := lit "{zz: Encore}".

Definition decoder_again : pystr -> decoded :=
  table_loads
    [(reply_zz, [(lit "zz", JStr (lit "Surprise"))]);
     (reply_zz_again, [(lit "zz", JStr (lit "Encore"))]);
     (reply_c, [(lit "c", JStr (lit "Merci"))])].

Definition repeating : endpoint :=
  scripted [Return reply_zz; Return reply_zz_again; Return reply_c].

(** An existing Locale File. *)
Definition old_fr : dict := [(lit "z", JStr (lit "Zut"))].

(** The QA scenario: Locale File [{"x": "Mal traducido"}]. *)
Definition en_x : dict := [(lit "x", JStr (lit "Badly translated"))].
Definition es_x : dict := [(lit "x", JStr (lit "Mal traducido"))].

(** A Problem Record with a correction, one with an issue only, and one for
    a key the Locale File never had. *)
Definition corrected_x : dict :=
  [(lit "x", JObj [(lit "translation", JStr (lit "Bien traducido"));
                   (lit "issue", JStr (lit "tone"))])].
Definition issue_only_x : dict :=
  [(lit "x", JObj [(lit "issue", JStr (lit "tone"))])].
Definition corrected_y : dict :=
  [(lit "y", JObj [(lit "translation", JStr (lit "Nuevo"));
                   (lit "issue", JStr (lit "missing"))])].

Definition reviewer_of (answer : dict)
  : nat -> dict -> dict -> pystr -> result dict :=
  fun _ _ _ _ => Return answer.

End Example.
(* ================================================================== *)
(** * Properties of the prelude *)
(* ================================================================== *)

Lemma str_eqb_eq (a b : pystr) : str_eqb a b = true <-> a = b.
Proof.
  revert b; induction a as [|x a IH]; intros [|y b]; simpl;
    try (split; [discriminate | congruence]); try tauto.
  rewrite andb_true_iff, N.eqb_eq, IH. split.
  - intros [-> ->]; reflexivity.
  - intros E; inversion E; auto.
Qed.

Lemma str_eqb_refl (a : pystr) : str_eqb a a = true.
Proof. apply str_eqb_eq; reflexivity. Qed.

Lemma str_eqb_neq (a b : pystr) : str_eqb a b = false <-> a <> b.
Proof.
  rewrite <- str_eqb_eq. destruct (str_eqb a b); split; congruence.
Qed.

Ltac str_cases a b :=
  let E := fresh "E" in
  destruct (str_eqb a b) eqn:E;
  [apply str_eqb_eq in E; try subst | apply str_eqb_neq in E].

Section Assoc.

Context {V : Type}.
Implicit Types (d : list (pystr * V)) (k : pystr) (v : V).

Lemma assoc_get_none d k : assoc_get d k = None <-> ~ In k (map fst d).
Proof.
  induction d as [|[k' v'] d IH]; simpl; [tauto|].
  str_cases k k'.
  - split; [discriminate | intros H; exfalso; apply H; auto].
  - rewrite IH. split; [intros H [?|?]; [congruence | tauto] | tauto].
Qed.

Lemma assoc_get_some_in d k v : assoc_get d k = Some v -> In (k, v) d.
Proof.
  induction d as [|[k' v'] d IH]; simpl; [discriminate|].
  str_cases k k'.
  - intros [= ->]; auto.
  - auto.
Qed.

Lemma assoc_get_in d k : In k (map fst d) <-> exists v, assoc_get d k = Some v.
Proof.
  destruct (assoc_get d k) as [v|] eqn:E.
  - split; [eauto | intros _].
    apply assoc_get_some_in in E. apply (in_map fst) in E. exact E.
  - apply assoc_get_none in E. split; [tauto | intros [v ?]; discriminate].
Qed.

Lemma in_assoc_get d k v :
  NoDup (map fst d) -> In (k, v) d -> assoc_get d k = Some v.
Proof.
  induction d as [|[k' v'] d IH]; simpl; [tauto|].
  intros ND [E|I]; inversion ND as [|? ? Hn ND']; subst.
  - inversion E; subst. rewrite str_eqb_refl. reflexivity.
  - str_cases k k'.
    + exfalso. apply Hn. apply (in_map fst) in I. exact I.
    + auto.
Qed.

Lemma assoc_set_fresh d k v :
  ~ In k (map fst d) -> assoc_set d k v = d ++ [(k, v)].
Proof.
  induction d as [|[k' v'] d IH]; simpl; [reflexivity|].
  intros H. str_cases k k'; [tauto|].
  rewrite IH; tauto.
Qed.

Lemma assoc_get_set d k v k' :
  assoc_get (assoc_set d k v) k' =
  if str_eqb k' k then Some v else assoc_get d k'.
Proof.
  induction d as [|[k0 v0] d IH]; simpl.
  - destruct (str_eqb k' k); reflexivity.
  - destruct (str_eqb k k0) eqn:E; simpl.
    + apply str_eqb_eq in E. subst k0.
      destruct (str_eqb k' k); reflexivity.
    + rewrite IH. destruct (str_eqb k' k0) eqn:E'; [|reflexivity].
      apply str_eqb_eq in E'. subst k0.
      apply str_eqb_neq in E.
      rewrite (proj2 (str_eqb_neq k' k)); [reflexivity | congruence].
Qed.

Lemma assoc_set_keys d k v :
  In k (map fst d) -> map fst (assoc_set d k v) = map fst d.
Proof.
  induction d as [|[k0 v0] d IH]; simpl; [tauto|].
  intros H. str_cases k k0; simpl; [reflexivity|].
  rewrite IH; [reflexivity|]. destruct H; congruence.
Qed.

Lemma assoc_set_keys_in d k v k' :
  In k' (map fst (assoc_set d k v)) <-> k' = k \/ In k' (map fst d).
Proof.
  rewrite !assoc_get_in. setoid_rewrite assoc_get_set.
  str_cases k' k.
  - split; eauto.
  - split; [auto | intros [?|?]; [congruence | auto]].
Qed.

Lemma assoc_set_nodup d k v :
  NoDup (map fst d) -> NoDup (map fst (assoc_set d k v)).
Proof.
  intros ND. destruct (in_dec (list_eq_dec N.eq_dec) k (map fst d)) as [I|I].
  - rewrite assoc_set_keys; auto.
  - rewrite assoc_set_fresh, map_app by auto. simpl.
    apply NoDup_app; [exact ND | repeat constructor; simpl; tauto |].
    intros x Hx [<-|[]]. tauto.
Qed.

Lemma assoc_get_app d d' k :
  assoc_get (d ++ d') k =
  match assoc_get d k with Some v => Some v | None => assoc_get d' k end.
Proof.
  induction d as [|[k0 v0] d IH]; simpl; [reflexivity|].
  destruct (str_eqb k k0); auto.
Qed.

Lemma assoc_get_del d k k' :
  assoc_get (assoc_del d k) k' =
  if str_eqb k' k then None else assoc_get d k'.
Proof.
  induction d as [|[k0 v0] d IH]; simpl.
  - destruct (str_eqb k' k); reflexivity.
  - destruct (str_eqb k k0) eqn:E; simpl.
    + apply str_eqb_eq in E. subst k0. rewrite IH.
      destruct (str_eqb k' k); reflexivity.
    + rewrite IH. destruct (str_eqb k' k0) eqn:E'; [|reflexivity].
      apply str_eqb_eq in E'. subst k0.
      apply str_eqb_neq in E.
      rewrite (proj2 (str_eqb_neq k' k)); [reflexivity | congruence].
Qed.

End Assoc.

(** [d.update(d')] looks up in [d'] first (its last binding), then in [d]. *)
Lemma dict_update_nodup (d d' : dict) :
  NoDup (keys d) -> NoDup (keys (dict_update d d')).
Proof.
  unfold dict_update. revert d.
  induction d' as [|[k v] d' IH]; simpl; intros d ND; [exact ND|].
  apply IH. apply assoc_set_nodup. exact ND.
Qed.

Lemma dict_update_fresh (d d' : dict) :
  NoDup (keys d') -> (forall k, In k (keys d') -> ~ In k (keys d)) ->
  dict_update d d' = d ++ d'.
Proof.
  unfold dict_update, keys. revert d.
  induction d' as [|[k v] d' IH]; simpl; intros d ND F.
  - rewrite app_nil_r. reflexivity.
  - inversion ND as [|? ? Hn ND']; subst.
    unfold dict_set. rewrite assoc_set_fresh by (apply F; auto).
    rewrite IH; auto.
    + rewrite <- app_assoc. reflexivity.
    + intros k' I. rewrite map_app, in_app_iff. simpl.
      intros [J|[J|[]]]; [apply (F k'); auto | congruence].
Qed.

Lemma dict_of_items_nodup (items : dict) :
  NoDup (keys items) -> dict_of_items items = items.
Proof.
  intros ND. unfold dict_of_items. rewrite dict_update_fresh; auto.
Qed.

Lemma dict_get_update (d d' : dict) (k : pystr) :
  NoDup (keys d') ->
  dict_get (dict_update d d') k =
  match dict_get d' k with Some v => Some v | None => dict_get d k end.
Proof.
  unfold dict_update, dict_get, keys. revert d.
  induction d' as [|[k0 v0] d' IH]; simpl; intros d ND; [reflexivity|].
  inversion ND as [|? ? Hn ND']; subst.
  rewrite IH by exact ND'. unfold dict_set.
  destruct (assoc_get d' k) as [v|] eqn:G.
  - str_cases k k0; [|reflexivity].
    exfalso. apply Hn. apply assoc_get_in. eauto.
  - rewrite assoc_get_set. destruct (str_eqb k k0); reflexivity.
Qed.

Lemma dict_update_keys_in (d d' : dict) (k : pystr) :
  In k (keys (dict_update d d')) <-> In k (keys d) \/ In k (keys d').
Proof.
  unfold dict_update, keys. revert d.
  induction d' as [|[k0 v0] d' IH]; simpl; intros d; [tauto|].
  rewrite IH. unfold dict_set. rewrite assoc_set_keys_in.
  split; intros H; intuition (subst; auto).
Qed.

Lemma NoDup_firstn {A : Type} (n : nat) (l : list A) :
  NoDup l -> NoDup (firstn n l).
Proof.
  intros ND. rewrite <- (firstn_skipn n l) in ND.
  apply NoDup_app_remove_r in ND. exact ND.
Qed.

Lemma NoDup_skipn {A : Type} (n : nat) (l : list A) :
  NoDup l -> NoDup (skipn n l).
Proof.
  intros ND. rewrite <- (firstn_skipn n l) in ND.
  apply NoDup_app_remove_l in ND. exact ND.
Qed.

(* ================================================================== *)
(** * The Chunker *)
(* ================================================================== *)

Lemma py_slice_chunk {A : Type} (l : list A) (i n : Z) :
  0 <= i <= Z.of_nat (length l) -> 0 < n ->
  py_slice l i (i + n) = firstn (Z.to_nat n) (skipn (Z.to_nat i) l).
Proof.
  intros Hi Hn. unfold py_slice, slice_bound.
  destruct (Z.ltb_spec i 0); [lia|].
  destruct (Z.ltb_spec (i + n) 0); [lia|].
  rewrite (Z.min_l i) by lia.
  destruct (Z.le_ge_cases (i + n) (Z.of_nat (length l))) as [L|L].
  - rewrite Z.min_l by lia. f_equal. lia.
  - rewrite Z.min_r by lia.
    rewrite !firstn_all2; [reflexivity | |]; rewrite length_skipn; lia.
Qed.

Lemma firstn_plus {A : Type} (a b : nat) (l : list A) :
  firstn (a + b) l = firstn a l ++ firstn b (skipn a l).
Proof.
  revert l; induction a as [|a IH]; intros [|x l]; simpl; auto.
  - rewrite firstn_nil. reflexivity.
  - rewrite IH. reflexivity.
Qed.

Lemma concat_windows {A : Type} (l : list A) (n c : nat) :
  concat (map (fun k => firstn n (skipn (k * n) l)) (seq 0 c)) = firstn (c * n) l.
Proof.
  induction c as [|c IH]; [reflexivity|].
  rewrite seq_S, map_app, concat_app, IH. simpl.
  rewrite app_nil_r, (Nat.add_comm n), firstn_plus. reflexivity.
Qed.

Lemma range_len_ceil (len n : Z) :
  0 <= len -> 0 < n ->
  range_len 0 len n = (len + n - 1) / n /\
  n * (range_len 0 len n - 1) < len <= n * range_len 0 len n.
Proof.
  intros Hl Hn. unfold range_len.
  destruct (Z.ltb_spec 0 n); [|lia].
  destruct (Z.ltb_spec 0 len).
  - replace (len - 0 - 1) with (len - 1) by lia.
    replace (len + n - 1) with ((len - 1) + 1 * n) by lia.
    rewrite Z.div_add by lia. split; [reflexivity|].
    pose proof (Z.div_mod (len - 1) n ltac:(lia)).
    pose proof (Z.mod_pos_bound (len - 1) n ltac:(lia)). lia.
  - assert (len = 0) by lia. subst. simpl.
    rewrite Z.div_small by lia. lia.
Qed.

Lemma chunk_dict_windows (data : dict) (n : Z) :
  NoDup (keys data) -> 0 < n ->
  chunk_dict data n =
  Return (map (fun k => firstn (Z.to_nat n) (skipn (k * Z.to_nat n) data))
              (seq 0 (Z.to_nat (range_len 0 (Z.of_nat (length data)) n)))).
Proof.
  intros ND Hn. unfold chunk_dict, py_range.
  destruct (Z.eqb_spec n 0); [lia|]. simpl. f_equal.
  rewrite map_map. apply map_ext_in. intros k Hk.
  apply in_seq in Hk.
  pose proof (@range_len_ceil (Z.of_nat (length data)) n ltac:(lia) Hn) as [_ B].
  assert (Hi : 0 <= Z.of_nat k * n <= Z.of_nat (length data)) by nia.
  rewrite py_slice_chunk by lia.
  replace (Z.to_nat (Z.of_nat k * n)) with (k * Z.to_nat n)%nat by nia.
  apply dict_of_items_nodup. unfold keys.
  rewrite <- firstn_map, <- skipn_map. apply NoDup_firstn, NoDup_skipn, ND.
Qed.

Lemma chunk_dict_positive (data : dict) (n : Z) (chunks : list dict) :
  chunk_dict data n = Return chunks -> chunks <> [] -> 0 < n.
Proof.
  unfold chunk_dict, py_range. intros C NE.
  destruct (Z.eqb_spec n 0); [discriminate|].
  destruct (Z.ltb_spec 0 n) as [L|L]; [exact L|].
  exfalso. apply NE. simpl in C. inversion C. unfold range_len.
  destruct (Z.ltb_spec 0 n); [lia|].
  destruct (Z.ltb_spec (Z.of_nat (length data)) 0); [lia|]. reflexivity.
Qed.

Lemma chunk_dict_concat (data : dict) (n : Z) (chunks : list dict) :
  NoDup (keys data) -> chunk_dict data n = Return chunks -> chunks <> [] ->
  concat chunks = data.
Proof.
  intros ND C NE. pose proof (chunk_dict_positive _ _ _ C NE) as Hn.
  rewrite (@chunk_dict_windows data n ND Hn) in C. inversion C.
  pose proof (@range_len_ceil (Z.of_nat (length data)) n ltac:(lia) Hn) as [_ B].
  rewrite concat_windows. apply firstn_all2. nia.
Qed.

Lemma out_file_not_temp_file (folder lang : pystr) :
  Translate.out_file_of folder lang <> Translate.temp_file_of folder lang.
Proof.
  unfold Translate.out_file_of, Translate.temp_file_of, path_join.
  assert (S : startswith (lit "/") (lang ++ lit ".json") =
              startswith (lit "/") (lang ++ lit ".temp.json"))
    by (destruct lang; reflexivity).
  rewrite <- S.
  intros E. apply (f_equal (@length N)) in E. revert E.
  destruct (startswith (lit "/") (lang ++ lit ".json")).
  - rewrite !length_app. simpl. lia.
  - destruct folder as [|c folder].
    + rewrite !length_app. simpl. lia.
    + destruct (endswith (lit "/") (c :: folder));
        rewrite !length_app; simpl; lia.
Qed.

(* ================================================================== *)
(** * The Sync Planner *)
(* ================================================================== *)

Lemma NoDup_keys_filter (f : pystr * json -> bool) (d : dict) :
  NoDup (keys d) -> NoDup (keys (filter f d)).
Proof.
  unfold keys. induction d as [|[k v] d IH]; simpl; intros ND; [constructor|].
  inversion ND as [|? ? Hn ND']; subst.
  destruct (f (k, v)); simpl; auto.
  constructor; auto. intros I. apply Hn.
  apply in_map_iff in I. destruct I as [[k' v'] [E I]]. simpl in E. subst.
  apply filter_In in I. destruct I as [I _].
  apply (in_map fst) in I. exact I.
Qed.

Lemma is_update_is_dict (v : json) : Sync.is_update v = true -> is_dict v = true.
Proof. destruct v; simpl; auto; discriminate. Qed.

Lemma updates_of_filter (S : dict) :
  NoDup (keys S) ->
  Sync.updates_of S = filter (fun kv => Sync.is_update (snd kv)) S.
Proof.
  intros ND. apply dict_of_items_nodup, NoDup_keys_filter, ND.
Qed.

Lemma new_keys_of_filter (S : dict) :
  NoDup (keys S) ->
  Sync.new_keys_of S (Sync.updates_of S) =
  filter (fun kv => negb (is_dict (snd kv))) S.
Proof.
  intros ND. unfold Sync.new_keys_of.
  rewrite dict_of_items_nodup by (apply NoDup_keys_filter, ND).
  apply filter_ext_in. intros [k v] I. simpl.
  destruct (is_dict v) eqn:D; simpl; [apply andb_false_r|].
  rewrite andb_true_r. unfold dict_mem, dict_get.
  destruct (assoc_get (Sync.updates_of S) k) as [u|] eqn:G; [|reflexivity].
  exfalso. rewrite updates_of_filter in G by exact ND.
  apply assoc_get_some_in, filter_In in G. destruct G as [I' U]. simpl in U.
  apply (in_assoc_get _ _ _ ND) in I. apply (in_assoc_get _ _ _ ND) in I'.
  rewrite I in I'. inversion I'; subst.
  apply is_update_is_dict in U. congruence.
Qed.

Lemma add_new_keys_filter (T nk acc : dict) :
  NoDup (keys nk) -> (forall k, In k (keys nk) -> ~ In k (keys acc)) ->
  Sync.add_new_keys T nk acc =
  acc ++ filter (fun kv => negb (dict_mem (fst kv) T)) nk.
Proof.
  unfold Sync.add_new_keys, keys. revert acc.
  induction nk as [|[k v] nk IH]; simpl; intros acc ND F.
  - rewrite app_nil_r. reflexivity.
  - inversion ND as [|? ? Hn ND']; subst.
    destruct (dict_mem k T); simpl.
    + apply IH; auto.
    + unfold dict_set. rewrite assoc_set_fresh by (apply F; auto).
      rewrite IH; auto.
      * rewrite <- app_assoc. reflexivity.
      * intros k' I. rewrite map_app, in_app_iff. simpl.
        intros [J|[J|[]]]; [apply (F k'); auto | congruence].
Qed.

Lemma add_updates_items (S ups acc : dict) :
  NoDup (keys ups) ->
  (forall k, In k (keys ups) -> ~ In k (keys acc)) ->
  (forall k u, In (k, u) ups ->
     In k (keys S) /\ Sync.is_update u = true /\ directive_text u <> None) ->
  Sync.add_updates S ups acc = Return (acc ++ directive_items ups).
Proof.
  unfold keys. revert acc.
  induction ups as [|[k u] ups IH]; simpl; intros acc ND F H.
  - rewrite app_nil_r. reflexivity.
  - inversion ND as [|? ? Hn ND']; subst.
    destruct (H k u (or_introl eq_refl)) as [HS [HU HT]].
    unfold dict_mem, dict_get.
    apply assoc_get_in in HS. destruct HS as [v0 ->].
    rewrite HU. destruct u; try discriminate. simpl in *.
    unfold getitem. destruct (dict_get d (lit "text")) as [t|] eqn:G; [|congruence].
    simpl. unfold dict_set. rewrite assoc_set_fresh by (apply F; auto).
    rewrite IH; auto.
    + rewrite <- app_assoc. reflexivity.
    + intros k' I. rewrite map_app, in_app_iff. simpl.
      intros [J|[J|[]]]; [apply (F k'); auto | congruence].
Qed.

Lemma add_new_keys_nodup (T nk acc : dict) :
  NoDup (keys acc) -> NoDup (keys (Sync.add_new_keys T nk acc)).
Proof.
  unfold Sync.add_new_keys. revert acc.
  induction nk as [|[k v] nk IH]; simpl; intros acc ND; [exact ND|].
  apply IH. destruct (dict_mem k T); simpl; [exact ND|].
  apply assoc_set_nodup, ND.
Qed.

Lemma add_updates_nodup (S ups acc W : dict) :
  NoDup (keys acc) -> Sync.add_updates S ups acc = Return W -> NoDup (keys W).
Proof.
  revert acc. induction ups as [|[k u] ups IH]; simpl; intros acc ND E.
  - inversion E; subst; exact ND.
  - destruct (dict_mem k S); [|eauto].
    destruct (Sync.update_text u) as [t|e]; simpl in E; [|discriminate].
    eapply IH; [|exact E]. apply assoc_set_nodup, ND.
Qed.

Lemma filter_twice {A : Type} (f g : A -> bool) (l : list A) :
  filter f (filter g l) = filter (fun x => g x && f x) l.
Proof.
  induction l as [|x l IH]; simpl; [reflexivity|].
  destruct (g x); simpl; [destruct (f x)|]; rewrite IH; reflexivity.
Qed.

Lemma directive_items_filter (S : dict) :
  directive_items (filter (fun kv => Sync.is_update (snd kv)) S) =
  directive_items S.
Proof.
  unfold directive_items.
  induction S as [|[k v] S IH]; simpl; [reflexivity|].
  destruct (Sync.is_update v) eqn:U; simpl; rewrite ?U, IH; reflexivity.
Qed.

Lemma in_directive_items (S : dict) (k : pystr) (v : json) :
  In (k, v) (directive_items S) <->
  exists d, In (k, JObj d) S /\ Sync.is_update (JObj d) = true
            /\ dict_get d (lit "text") = Some v.
Proof.
  unfold directive_items. rewrite in_flat_map. split.
  - intros [[k' u] [I H]]. simpl in H.
    destruct (Sync.is_update u) eqn:U; [|contradiction].
    destruct u; try discriminate. simpl in H.
    destruct (dict_get d (lit "text")) as [t|] eqn:G; [|contradiction].
    destruct H as [H|[]]. inversion H; subst. eauto.
  - intros [d [I [U G]]]. exists (k, JObj d). split; [exact I|].
    simpl fst; simpl snd. rewrite U. simpl. rewrite G. left; reflexivity.
Qed.

(** The work-set of the planner, in closed form. *)
Lemma to_translate_of_items (S T : dict) :
  NoDup (keys S) ->
  (forall k u, In (k, u) S -> Sync.is_update u = true ->
               directive_text u <> None) ->
  Sync.to_translate_of S T = Return (plain_items S T ++ directive_items S).
Proof.
  intros ND HT. unfold Sync.to_translate_of.
  rewrite new_keys_of_filter by exact ND.
  assert (NDf : NoDup (keys (filter (fun kv => negb (is_dict (snd kv))) S)))
    by (apply NoDup_keys_filter, ND).
  rewrite add_new_keys_filter by (auto; intros ? _ []).
  simpl app. rewrite filter_twice. fold (plain_items S T).
  rewrite updates_of_filter by exact ND.
  rewrite add_updates_items.
  - rewrite directive_items_filter. reflexivity.
  - apply NoDup_keys_filter, ND.
  - intros k Ik Ip. unfold keys in *.
    apply in_map_iff in Ik. destruct Ik as [[k1 u] [E1 I1]].
    apply in_map_iff in Ip. destruct Ip as [[k2 v] [E2 I2]].
    simpl in *. subst k1 k2.
    apply filter_In in I1. destruct I1 as [I1 U].
    apply filter_In in I2. destruct I2 as [I2 P]. simpl in *.
    apply (in_assoc_get _ _ _ ND) in I1. apply (in_assoc_get _ _ _ ND) in I2.
    rewrite I1 in I2. inversion I2; subst.
    apply is_update_is_dict in U. rewrite U in P. discriminate.
  - intros k u I. apply filter_In in I. destruct I as [I U]. simpl in U.
    repeat split; [apply (in_map fst) in I; exact I | exact U | eauto].
Qed.

(* ================================================================== *)
(** * Worlds and traces *)
(* ================================================================== *)

Lemma replay_app tr1 tr2 f : replay (tr1 ++ tr2) f = replay tr2 (replay tr1 f).
Proof. apply fold_left_app. Qed.

Lemma advance_nil w : advance w [] 0 = w.
Proof.
  destruct w; unfold advance; simpl. rewrite app_nil_r, Nat.add_0_r. reflexivity.
Qed.

Lemma advance_advance w tr1 c1 tr2 c2 :
  advance (advance w tr1 c1) tr2 c2 = advance w (tr1 ++ tr2) (c1 + c2).
Proof.
  unfold advance; simpl. rewrite replay_app, app_assoc, Nat.add_assoc. reflexivity.
Qed.

Lemma effects_app tr1 tr2 : effects (tr1 ++ tr2) = effects tr1 ++ effects tr2.
Proof. apply filter_app. Qed.

Lemma replay_effects tr f : replay (effects tr) f = replay tr f.
Proof.
  revert f; induction tr as [|e tr IH]; intros f; simpl; [reflexivity|].
  destruct e; simpl; apply IH.
Qed.

Lemma artifacts_effects tr : artifacts (effects tr) = artifacts tr.
Proof.
  unfold artifacts, effects. induction tr as [|e tr IH]; simpl; [reflexivity|].
  destruct e as [m|p [d|s]|p]; simpl; rewrite ?IH; reflexivity.
Qed.

Lemma writes_to_effects p tr : writes_to p (effects tr) = writes_to p tr.
Proof.
  unfold writes_to, effects. induction tr as [|e tr IH]; simpl; [reflexivity|].
  destruct e; simpl; rewrite ?IH; reflexivity.
Qed.

(** Primitive steps as [advance]. *)
Lemma print_run m w : print m w = (Return tt, advance w [EvPrint m] 0).
Proof. unfold print, emit, advance; simpl. rewrite Nat.add_0_r. reflexivity. Qed.

Lemma write_file_run p c w :
  write_file p c w = (Return tt, advance w [EvWrite p c] 0).
Proof. unfold write_file, advance; simpl. rewrite Nat.add_0_r. reflexivity. Qed.

Lemma remove_file_run p w :
  remove_file p w = (Return tt, advance w [EvRemove p] 0).
Proof. unfold remove_file, advance; simpl. rewrite Nat.add_0_r. reflexivity. Qed.

Lemma request_run complete chunk lang w :
  request complete chunk lang w = (complete (calls w) chunk lang, advance w [] 1).
Proof.
  unfold request, advance; simpl. rewrite app_nil_r, Nat.add_1_r. reflexivity.
Qed.

(* ================================================================== *)
(** * The chunk loop of translate.py *)
(* ================================================================== *)

#[local] Arguments print : simpl never.
#[local] Arguments write_file : simpl never.
#[local] Arguments remove_file : simpl never.
#[local] Arguments request : simpl never.
#[local] Arguments path_exists : simpl never.
#[local] Arguments advance : simpl never.

Section Bulk.

Variable complete : endpoint.
Variable json_loads : pystr -> decoded.
Variable folder lang : pystr.

Lemma translate_chunk_run chunk w :
  exists tr, effects tr = [] /\
    Translate.translate_chunk complete json_loads chunk lang w =
    (bulk_outcome complete json_loads lang (calls w) chunk, advance w tr 1).
Proof.
  unfold Translate.translate_chunk, bindM. rewrite print_run, request_run.
  rewrite advance_advance. unfold bulk_outcome. simpl calls.
  rewrite Nat.add_0_r.
  destruct (complete (calls w) chunk lang) as [raw|e].
  - unfold Translate.decode_content.
    destruct (json_loads (Translate.clean_content raw)) as [d|msg].
    + unfold bindM. rewrite print_run, advance_advance. unfold ret.
      eexists; split; [|reflexivity]. reflexivity.
    + unfold bindM. rewrite print_run, advance_advance.
      rewrite print_run, advance_advance. unfold throw.
      eexists; split; [|reflexivity]. reflexivity.
  - eexists; split; [|reflexivity]. reflexivity.
Qed.

Lemma bulk_chunk_step_run total acc idx chunk w :
  let o := bulk_outcome complete json_loads lang (calls w) chunk in
  exists tr,
    effects tr = [bulk_effect folder lang idx acc o] /\
    Translate.chunk_step complete json_loads folder lang total acc
                         (idx, chunk) w =
    (Return (merge_outcome acc o), advance w tr 1).
Proof.
  cbv zeta.
  destruct (translate_chunk_run chunk w) as [tr0 [E0 R0]].
  unfold Translate.chunk_step, try_except, bindM. rewrite R0.
  destruct (bulk_outcome complete json_loads lang (calls w) chunk) as [r|e].
  - rewrite write_file_run, advance_advance. unfold ret.
    eexists; split; [|reflexivity].
    rewrite effects_app, E0. reflexivity.
  - rewrite print_run, advance_advance, write_file_run, advance_advance.
    unfold ret. eexists; split; [|reflexivity].
    rewrite !effects_app, E0. reflexivity.
Qed.

Lemma bulk_loop_run total chunks : forall idx acc w,
  let outs := bulk_outcomes complete json_loads lang (calls w) chunks in
  exists tr,
    effects tr = bulk_effects folder lang idx outs acc /\
    for_loop (Translate.chunk_step complete json_loads folder lang total)
             (combine (seq idx (length chunks)) chunks) acc w =
    (Return (fold_left merge_outcome outs acc),
     advance w tr (length chunks)).
Proof.
  cbv zeta.
  induction chunks as [|chunk rest IH]; intros idx acc w;
    cbn [length seq combine for_loop bulk_outcomes bulk_effects fold_left].
  - exists []. rewrite advance_nil. split; reflexivity.
  - destruct (bulk_chunk_step_run total acc idx chunk w) as [tr1 [E1 R1]].
    unfold bindM. rewrite R1.
    destruct (IH (Datatypes.S idx)
                 (merge_outcome acc
                    (bulk_outcome complete json_loads lang (calls w) chunk))
                 (advance w tr1 1)) as [tr2 [E2 R2]].
    rewrite R2, advance_advance. simpl calls in *.
    rewrite Nat.add_1_r in *.
    exists (tr1 ++ tr2). split; [|reflexivity].
    rewrite effects_app, E1, E2. reflexivity.
Qed.

End Bulk.

(* ================================================================== *)
(** * One locale of translate.py *)
(* ================================================================== *)

Lemma path_exists_run p w :
  path_exists p w =
  (Return (match assoc_get (files w) p with Some _ => true | None => false end),
   w).
Proof. reflexivity. Qed.

Lemma lift_run {A : Type} (r : result A) w : lift r w = (r, w).
Proof. reflexivity. Qed.

Lemma enumerate_seq {A : Type} (l : list A) :
  enumerate l = combine (seq 0 (length l)) l.
Proof. reflexivity. Qed.

Lemma advance_eq w tr c c' : c = c' -> advance w tr c = advance w tr c'.
Proof. intros ->; reflexivity. Qed.

(** Close a goal [exists tr, m w = (r, advance w tr c) /\ ...] once the left
    side is an [advance] of [w]. *)
Ltac run_done :=
  eexists; split;
  [ apply (f_equal (pair _)); apply advance_eq; simpl; lia | ].

Section BulkLocale.

Variable complete : endpoint.
Variable json_loads : pystr -> decoded.
Variable folder lang : pystr.

Let out_file := Translate.out_file_of folder lang.
Let temp_file := Translate.temp_file_of folder lang.

(** The file system effects of one locale: those of the chunk loop, then
    the Locale File and the removal of the intermediate file when some
    translated data was produced. *)
Lemma translate_lang_run data n chunks w :
  chunk_dict data n = Return chunks ->
  let outs := bulk_outcomes complete json_loads lang (calls w) chunks in
  let loop := bulk_effects folder lang 0 outs [] in
  let saved := EvWrite out_file (FJson (merged outs)) in
  exists tr,
    Translate.translate_lang complete json_loads data folder n lang w =
    (Return tt, advance w tr (length chunks)) /\
    effects tr =
      loop ++
      (if dict_nonempty (merged outs) then
         saved ::
         match assoc_get (replay (loop ++ [saved]) (files w)) temp_file with
         | Some _ => [EvRemove temp_file]
         | None => []
         end
       else []) /\
    (dict_nonempty (merged outs) = false ->
     In (EvPrint (MsgNoTranslationData lang)) tr).
Proof.
  intros C outs loop saved.
  unfold Translate.translate_lang, bindM.
  rewrite print_run, lift_run, C, enumerate_seq.
  destruct (bulk_loop_run complete json_loads folder lang (length chunks)
              chunks 0%nat [] (advance w [EvPrint (MsgStarting lang)] 0))
    as [tr1 [E1 R1]].
  rewrite R1, advance_advance. simpl calls in E1.
  rewrite Nat.add_0_r in E1. fold outs in E1. fold loop in E1.
  change (fold_left merge_outcome
            (bulk_outcomes complete json_loads lang
               (calls (advance w [EvPrint (MsgStarting lang)] 0)) chunks) [])
    with (merged (bulk_outcomes complete json_loads lang
               (calls w + 0) chunks)).
  rewrite Nat.add_0_r. fold outs.
  destruct (dict_nonempty (merged outs)) eqn:NE.
  - fold out_file. fold temp_file.
    rewrite write_file_run, advance_advance, print_run, advance_advance.
    rewrite path_exists_run.
    match goal with |- context [assoc_get (files (advance w ?t ?c)) temp_file] =>
      assert (X : assoc_get (files (advance w t c)) temp_file =
                  assoc_get (replay (loop ++ [saved]) (files w)) temp_file)
    end.
    { unfold advance; simpl files. rewrite <- replay_effects.
      rewrite !effects_app, E1. simpl. rewrite ?app_nil_r, <- ?app_assoc. reflexivity. }
    rewrite X.
    destruct (assoc_get (replay (loop ++ [saved]) (files w)) temp_file).
    + rewrite remove_file_run, advance_advance, print_run, advance_advance.
      run_done. split; [|discriminate].
      rewrite !effects_app, E1. simpl. rewrite ?app_nil_r, <- ?app_assoc. reflexivity.
    + unfold ret. run_done. split; [|discriminate].
      rewrite !effects_app, E1. simpl. rewrite ?app_nil_r, <- ?app_assoc. reflexivity.
  - rewrite print_run, advance_advance.
    run_done. split.
    + rewrite !effects_app, E1. simpl. rewrite ?app_nil_r, <- ?app_assoc. reflexivity.
    + intros _. rewrite !in_app_iff. right. left; reflexivity.
Qed.

End BulkLocale.

(** ** Outcomes and what the loop writes *)

Lemma dict_get_update_other (d d' : dict) (k : pystr) :
  ~ In k (keys d') -> dict_get (dict_update d d') k = dict_get d k.
Proof.
  unfold dict_update, dict_get, keys. revert d.
  induction d' as [|[k0 v0] d' IH]; simpl; intros d H; [reflexivity|].
  rewrite IH by tauto. unfold dict_set. rewrite assoc_get_set.
  rewrite (proj2 (str_eqb_neq k k0)); [reflexivity|].
  intros ->. tauto.
Qed.

Lemma merge_keys (outs : list (result dict)) : forall acc k,
  In k (keys (fold_left merge_outcome outs acc)) <->
  In k (keys acc) \/ exists r, In (Return r) outs /\ In k (keys r).
Proof.
  induction outs as [|o outs IH]; intros acc k; simpl.
  - split; [auto | intros [?|[r [[] _]]]; auto].
  - rewrite IH. destruct o as [r|e]; simpl.
    + rewrite dict_update_keys_in. split.
      * intros [[?|?]|[r' [? ?]]]; eauto 6.
      * intros [?|[r' [[E|?] ?]]]; eauto 6.
        inversion E; subst; auto.
    + split.
      * intros [?|[r' [? ?]]]; eauto 6.
      * intros [?|[r' [[E|?] ?]]]; eauto 6. discriminate.
Qed.

Lemma merge_nodup (outs : list (result dict)) : forall acc,
  NoDup (keys acc) -> NoDup (keys (fold_left merge_outcome outs acc)).
Proof.
  induction outs as [|[r|e] outs IH]; intros acc ND; simpl; auto.
  apply IH, dict_update_nodup, ND.
Qed.

Lemma merge_all_failed (outs : list (result dict)) : forall acc,
  (forall r, ~ In (Return r) outs) -> fold_left merge_outcome outs acc = acc.
Proof.
  induction outs as [|[r|e] outs IH]; intros acc H; simpl; auto.
  - exfalso. apply (H r). left; reflexivity.
  - apply IH. intros r I. apply (H r). right; exact I.
Qed.

Lemma merged_nonempty_success (outs : list (result dict)) :
  dict_nonempty (merged outs) = true -> exists r, In (Return r) outs.
Proof.
  intros NE. destruct (merged outs) as [|[k v] m] eqn:E; [discriminate|].
  assert (I : In k (keys (merged outs))) by (rewrite E; left; reflexivity).
  apply merge_keys in I. destruct I as [[]|[r [I _]]]. eauto.
Qed.

(** The last response that mentions [k] decides its value. *)
Lemma merge_get (outs1 outs2 : list (result dict)) (r acc : dict)
    (k : pystr) (v : json) :
  NoDup (keys r) -> dict_get r k = Some v ->
  (forall r', In (Return r') outs2 -> ~ In k (keys r')) ->
  dict_get (fold_left merge_outcome (outs1 ++ Return r :: outs2) acc) k
  = Some v.
Proof.
  intros ND G H. rewrite fold_left_app. simpl.
  set (a := dict_update (fold_left merge_outcome outs1 acc) r).
  assert (Ga : dict_get a k = Some v).
  { unfold a. rewrite dict_get_update by exact ND. rewrite G. reflexivity. }
  clearbody a. revert a Ga.
  induction outs2 as [|[r'|e] outs2 IH]; intros a Ga; simpl; auto.
  - apply IH; [intros r0 I; apply H; right; exact I|].
    rewrite dict_get_update_other; [exact Ga|]. apply H. left; reflexivity.
  - apply IH; [intros r0 I; apply H; right; exact I | exact Ga].
Qed.

Section BulkEffects.

Variable folder lang : pystr.

Lemma artifacts_bulk_effects (outs : list (result dict)) : forall idx acc,
  artifacts (bulk_effects folder lang idx outs acc) =
  error_logs folder lang idx outs.
Proof.
  induction outs as [|[r|e] outs IH]; intros idx acc; simpl; auto.
  unfold artifacts in *. simpl. rewrite IH. reflexivity.
Qed.

Lemma error_logs_one (rs1 rs2 : list dict) (e : exn) : forall idx,
  error_logs folder lang idx (map Return rs1 ++ Raise e :: map Return rs2) =
  [EvWrite (Translate.error_log_of folder lang (idx + length rs1))
           (FText (str_of_exn e))].
Proof.
  assert (Z : forall rs idx,
             error_logs folder lang idx (map Return rs) = []).
  { induction rs as [|r rs IH]; intros idx; simpl; auto. }
  induction rs1 as [|r rs1 IH]; intros idx; simpl.
  - rewrite Z, Nat.add_0_r. reflexivity.
  - rewrite IH.
    replace (Datatypes.S idx + length rs1)%nat
      with (idx + Datatypes.S (length rs1))%nat by lia.
    reflexivity.
Qed.

Lemma bulk_effects_json (outs : list (result dict)) : forall idx acc p d k,
  In (EvWrite p (FJson d)) (bulk_effects folder lang idx outs acc) ->
  In k (keys d) ->
  In k (keys acc) \/ exists r, In (Return r) outs /\ In k (keys r).
Proof.
  induction outs as [|o outs IH]; intros idx acc p d k; simpl; [tauto|].
  intros [E|I] K.
  - destruct o as [r|e]; simpl in E; inversion E; subst.
    apply dict_update_keys_in in K. destruct K; eauto.
  - destruct (IH _ _ _ _ _ I K) as [A|[r [A B]]];
      [|right; exists r; split; [right; exact A | exact B]].
    destruct o as [r|e]; simpl in A; auto.
    apply dict_update_keys_in in A. destruct A; eauto.
Qed.

Lemma bulk_effects_no_remove (outs : list (result dict)) : forall idx acc q,
  ~ In (EvRemove q) (bulk_effects folder lang idx outs acc).
Proof.
  induction outs as [|o outs IH]; intros idx acc q; simpl; [tauto|].
  intros [E|I]; [destruct o; discriminate | eapply IH; eauto].
Qed.

Lemma bulk_effects_temp (outs : list (result dict)) : forall idx acc r,
  In (Return r) outs ->
  exists c, In (EvWrite (Translate.temp_file_of folder lang) c)
               (bulk_effects folder lang idx outs acc).
Proof.
  induction outs as [|o outs IH]; intros idx acc r; simpl; [tauto|].
  intros [->|I].
  - eexists. left. reflexivity.
  - destruct (IH (Datatypes.S idx) (merge_outcome acc o) r I) as [c Hc].
    eauto.
Qed.

End BulkEffects.

Lemma replay_exists (tr : list event) (p : pystr) : forall f,
  (forall q, ~ In (EvRemove q) tr) ->
  assoc_get f p <> None \/ (exists c, In (EvWrite p c) tr) ->
  assoc_get (replay tr f) p <> None.
Proof.
  induction tr as [|e tr IH]; intros f NR H; simpl.
  - destruct H as [H|[c []]]. exact H.
  - apply IH; [intros q I; apply (NR q); right; exact I|].
    destruct e as [m|q c|q]; simpl.
    + destruct H as [H|[c [E|I]]]; [auto | discriminate | eauto].
    + rewrite assoc_get_set. destruct (str_eqb p q) eqn:E.
      * left; discriminate.
      * destruct H as [H|[c' [E'|I]]]; [auto | | eauto].
        inversion E'; subst. rewrite str_eqb_refl in E. discriminate.
    + exfalso. apply (NR q). left; reflexivity.
Qed.

Lemma replay_untouched (tr : list event) (p : pystr) : forall f,
  touches p tr = false -> assoc_get (replay tr f) p = assoc_get f p.
Proof.
  induction tr as [|e tr IH]; intros f H; simpl in *; [reflexivity|].
  apply orb_false_iff in H. destruct H as [H1 H2].
  rewrite IH by exact H2. destruct e as [m|q c|q]; simpl; auto.
  - rewrite assoc_get_set.
    destruct (str_eqb p q) eqn:E; [|reflexivity].
    apply str_eqb_eq in E. subst. rewrite str_eqb_refl in H1. discriminate.
  - rewrite assoc_get_del.
    destruct (str_eqb p q) eqn:E; [|reflexivity].
    apply str_eqb_eq in E. subst. rewrite str_eqb_refl in H1. discriminate.
Qed.

Lemma NoDup_app_disjoint {A : Type} (l1 l2 : list A) (a : A) :
  NoDup (l1 ++ l2) -> In a l1 -> ~ In a l2.
Proof.
  induction l1 as [|x l1 IH]; simpl; intros ND I; [tauto|].
  inversion ND as [|? ? Hn ND']; subst.
  destruct I as [->|I]; [|auto].
  intros J. apply Hn. apply in_or_app. right; exact J.
Qed.

(** Chunks of a mapping have disjoint keys. *)
Lemma chunks_disjoint (before after : list dict) (failed : dict) (k : pystr) :
  NoDup (keys (concat (before ++ failed :: after))) ->
  In k (keys failed) ->
  forall chunk, In chunk (before ++ after) -> ~ In k (keys chunk).
Proof.
  unfold keys. rewrite concat_app. simpl. rewrite !map_app.
  intros ND K chunk I KC.
  apply in_app_iff in I. destruct I as [I|I].
  - apply NoDup_app_disjoint with (a := k) in ND.
    + apply ND. apply in_or_app. left; exact K.
    + apply in_map_iff in KC. destruct KC as [[k' v] [E J]]. simpl in E. subst.
      apply in_map_iff. exists (k, v). split; [reflexivity|].
      apply in_concat. eauto.
  - apply NoDup_app_remove_l in ND.
    apply NoDup_app_disjoint with (a := k) in ND; [|exact K].
    apply ND. apply in_map_iff in KC. destruct KC as [[k' v] [E J]].
    simpl in E. subst. apply in_map_iff. exists (k, v). split; [reflexivity|].
    apply in_concat. eauto.
Qed.

(** ** Paths of one locale *)

Lemma path_join_suffix (a b : pystr) : exists pre, path_join a b = pre ++ b.
Proof.
  unfold path_join. destruct (startswith (lit "/") b); [exists []; reflexivity|].
  destruct a as [|c a]; [exists []; reflexivity|].
  destruct (endswith (lit "/") (c :: a)).
  - exists (c :: a). reflexivity.
  - exists ((c :: a) ++ lit "/"). rewrite <- app_assoc. reflexivity.
Qed.

Lemma out_file_not_error_log (folder lang : pystr) (idx : nat) :
  Translate.out_file_of folder lang <> Translate.error_log_of folder lang idx.
Proof.
  unfold Translate.out_file_of, Translate.error_log_of.
  destruct (path_join_suffix folder (lang ++ lit ".json")) as [p1 ->].
  destruct (path_join_suffix folder
              (lang ++ lit "_error_chunk_" ++ str_of_nat (idx + 1) ++ lit ".log"))
    as [p2 ->].
  intros E. apply (f_equal (@rev N)) in E.
  rewrite !app_assoc in E. rewrite !rev_app_distr in E. simpl in E.
  discriminate.
Qed.

Section BulkLocaleFacts.

Variable complete : endpoint.
Variable json_loads : pystr -> decoded.
Variable folder lang : pystr.

Let out_file := Translate.out_file_of folder lang.
Let temp_file := Translate.temp_file_of folder lang.

Lemma bulk_effects_out_file (outs : list (result dict)) : forall idx acc,
  touches out_file (bulk_effects folder lang idx outs acc) = false.
Proof.
  induction outs as [|o outs IH]; intros idx acc; simpl; [reflexivity|].
  rewrite IH, orb_false_r. destruct o as [r|e]; simpl; apply str_eqb_neq.
  - intros E. symmetry in E. revert E. apply out_file_not_temp_file.
  - intros E. symmetry in E. revert E. apply out_file_not_error_log.
Qed.

Lemma touches_app p tr1 tr2 :
  touches p (tr1 ++ tr2) = touches p tr1 || touches p tr2.
Proof. apply existsb_app. Qed.

Lemma touches_effects p tr : touches p (effects tr) = touches p tr.
Proof.
  induction tr as [|e tr IH]; simpl; [reflexivity|].
  destruct e; simpl; rewrite IH; reflexivity.
Qed.

Lemma writes_to_app p tr1 tr2 :
  writes_to p (tr1 ++ tr2) = writes_to p tr1 ++ writes_to p tr2.
Proof. apply flat_map_app. Qed.

Lemma writes_to_untouched p tr : touches p tr = false -> writes_to p tr = [].
Proof.
  induction tr as [|e tr IH]; simpl; [reflexivity|].
  intros H. apply orb_false_iff in H. destruct H as [H1 H2].
  rewrite IH by exact H2. destruct e; simpl; auto. rewrite H1. reflexivity.
Qed.

(** What one locale of translate.py leaves behind: with translated data,
    the Locale File holds exactly that data and the intermediate file is
    gone; without, the Locale File is not touched and the failure is
    printed. *)
Lemma bulk_locale_outcome data n chunks w :
  chunk_dict data n = Return chunks ->
  let outs := bulk_outcomes complete json_loads lang (calls w) chunks in
  exists tr,
    Translate.translate_lang complete json_loads data folder n lang w =
    (Return tt, advance w tr (length chunks)) /\
    (dict_nonempty (merged outs) = true ->
       writes_to out_file tr = [FJson (merged outs)] /\
       json_file (advance w tr (length chunks)) out_file = Some (merged outs) /\
       In (EvRemove temp_file) tr /\
       assoc_get (files (advance w tr (length chunks))) temp_file = None) /\
    (dict_nonempty (merged outs) = false ->
       touches out_file tr = false /\
       assoc_get (files (advance w tr (length chunks))) out_file =
       assoc_get (files w) out_file /\
       In (EvPrint (MsgNoTranslationData lang)) tr).
Proof.
  intros C outs.
  destruct (@translate_lang_run complete json_loads folder lang data n chunks w C)
    as [tr [R [E P]]].
  fold outs in E, P. fold out_file in E. fold temp_file in E.
  exists tr. split; [exact R|].
  pose proof (bulk_effects_out_file outs 0%nat []) as TO.
  split; intros NE; rewrite NE in E.
  - destruct (@merged_nonempty_success outs NE) as [r Ir].
    destruct (@bulk_effects_temp folder lang outs 0%nat [] r Ir) as [c Ic].
    set (loop := bulk_effects folder lang 0 outs []) in *.
    set (saved := EvWrite out_file (FJson (merged outs))) in *.
    assert (X : assoc_get (replay (loop ++ [saved]) (files w)) temp_file
                <> None).
    { apply replay_exists.
      - intros q I. apply in_app_iff in I. destruct I as [I|[I|[]]].
        + revert I. apply bulk_effects_no_remove.
        + discriminate.
      - right. exists c. apply in_or_app. left; exact Ic. }
    destruct (assoc_get (replay (loop ++ [saved]) (files w)) temp_file)
      as [c0|]; [clear X | congruence].
    assert (NT : str_eqb out_file temp_file = false)
      by (apply str_eqb_neq, out_file_not_temp_file).
    repeat split.
    + rewrite <- writes_to_effects, E, writes_to_app.
      rewrite (@writes_to_untouched _ _ TO). simpl.
      rewrite str_eqb_refl. reflexivity.
    + unfold json_file, advance. simpl files.
      rewrite <- replay_effects, E, replay_app. simpl.
      rewrite assoc_get_del, NT, assoc_get_set, str_eqb_refl. reflexivity.
    + assert (I : In (EvRemove temp_file) (effects tr))
        by (rewrite E; apply in_or_app; right; right; left; reflexivity).
      apply filter_In in I. tauto.
    + unfold advance. simpl files.
      rewrite <- replay_effects, E, replay_app. simpl.
      rewrite assoc_get_del, str_eqb_refl. reflexivity.
  - rewrite app_nil_r in E.
    assert (T : touches out_file tr = false)
      by (rewrite <- touches_effects, E; exact TO).
    repeat split; [exact T | | auto].
    unfold advance. simpl files. apply replay_untouched, T.
Qed.

End BulkLocaleFacts.

(** ** One failed chunk *)

Lemma Forall2_same_keys_l (rs cs : list dict) (r : dict) :
  Forall2 same_keys rs cs -> In r rs -> exists c, In c cs /\ same_keys r c.
Proof.
  induction 1 as [|r0 c0 rs cs H F IH]; simpl; [tauto|].
  intros [->|I]; [eauto|]. destruct (IH I) as [c [? ?]]. eauto.
Qed.

Lemma Forall2_same_keys_r (rs cs : list dict) (c : dict) :
  Forall2 same_keys rs cs -> In c cs -> exists r, In r rs /\ same_keys r c.
Proof.
  induction 1 as [|r0 c0 rs cs H F IH]; simpl; [tauto|].
  intros [->|I]; [eauto|]. destruct (IH I) as [r [? ?]]. eauto.
Qed.

Lemma in_one_failure (rs1 rs2 : list dict) (e : exn) (r : dict) :
  In (Return r) (map Return rs1 ++ Raise e :: map Return rs2) <->
  In r (rs1 ++ rs2).
Proof.
  rewrite !in_app_iff. simpl. rewrite !in_map_iff. split.
  - intros [[x [E I]]|[E|[x [E I]]]]; try discriminate;
      inversion E; subst; auto.
  - intros [I|I]; eauto.
Qed.

(** With one failed chunk, the responses of the others have the keys of the
    other chunks: none of them is a key of the failed chunk. *)
Lemma one_failure_keys (data : dict) (before after : list dict)
    (failed : dict) (rs1 rs2 : list dict) (e : exn) :
  NoDup (keys data) ->
  concat (before ++ failed :: after) = data ->
  Forall2 same_keys rs1 before -> Forall2 same_keys rs2 after ->
  forall k r, In k (keys failed) ->
    In (Return r) (map Return rs1 ++ Raise e :: map Return rs2) ->
    ~ In k (keys r).
Proof.
  intros ND C F1 F2 k r K I KR. apply in_one_failure in I.
  assert (X : exists c, In c (before ++ after) /\ same_keys r c).
  { apply in_app_iff in I. destruct I as [I|I].
    - destruct (Forall2_same_keys_l _ _ _ F1 I) as [c [? ?]].
      exists c. rewrite in_app_iff. auto.
    - destruct (Forall2_same_keys_l _ _ _ F2 I) as [c [? ?]].
      exists c. rewrite in_app_iff. auto. }
  destruct X as [c [Ic Sc]]. rewrite <- C in ND.
  apply (chunks_disjoint before after failed k ND K c Ic). apply Sc, KR.
Qed.

Section BulkFailure.

Variable complete : endpoint.
Variable json_loads : pystr -> decoded.
Variable folder lang : pystr.

Lemma artifacts_app tr1 tr2 :
  artifacts (tr1 ++ tr2) = artifacts tr1 ++ artifacts tr2.
Proof. apply filter_app. Qed.

Lemma bulk_failure_isolated data n w before failed after rs1 e rs2 :
  NoDup (keys data) ->
  chunk_dict data n = Return (before ++ failed :: after) ->
  bulk_outcomes complete json_loads lang (calls w) (before ++ failed :: after)
    = map Return rs1 ++ Raise e :: map Return rs2 ->
  Forall2 same_keys rs1 before -> Forall2 same_keys rs2 after ->
  exists tr,
    Translate.translate_lang complete json_loads data folder n lang w =
    (Return tt, advance w tr (length (before ++ failed :: after))) /\
    artifacts tr =
      [EvWrite (Translate.error_log_of folder lang (length before))
               (FText (str_of_exn e))] /\
    (forall chunk k, In chunk (before ++ after) -> In k (keys chunk) ->
       exists d,
         json_file (advance w tr (length (before ++ failed :: after)))
                   (Translate.out_file_of folder lang) = Some d
         /\ In k (keys d)) /\
    (forall k p d, In k (keys failed) -> In (EvWrite p (FJson d)) tr ->
                   ~ In k (keys d)).
Proof.
  intros ND C O F1 F2.
  assert (CC : concat (before ++ failed :: after) = data).
  { apply (chunk_dict_concat _ _ _ ND C). destruct before; discriminate. }
  destruct (@translate_lang_run complete json_loads folder lang data n _ w C)
    as [tr [R [E _]]].
  destruct (@bulk_locale_outcome complete json_loads folder lang data n _ w C)
    as [tr' [R' [S' _]]].
  rewrite R in R'. apply (f_equal snd) in R'. simpl in R'.
  assert (tr' = tr) as ->.
  { apply (f_equal trace) in R'. unfold advance in R'. simpl in R'.
    apply app_inv_head in R'. congruence. }
  clear R'. rewrite O in E, S'.
  set (outs := map Return rs1 ++ Raise e :: map Return rs2) in *.
  exists tr. split; [exact R|]. split; [|split].
  - rewrite <- artifacts_effects, E, artifacts_app, artifacts_bulk_effects.
    unfold outs. rewrite error_logs_one. simpl.
    rewrite (Forall2_length F1).
    match goal with |- context [dict_nonempty ?m] =>
      destruct (dict_nonempty m); [|reflexivity] end.
    simpl. destruct (assoc_get _ _); reflexivity.
  - intros chunk k Ic K.
    assert (X : exists r, In (Return r) outs /\ In k (keys r)).
    { apply in_app_iff in Ic. destruct Ic as [Ic|Ic].
      - destruct (Forall2_same_keys_r _ _ _ F1 Ic) as [r [Ir Sr]].
        exists r. split; [|apply Sr, K].
        apply in_one_failure, in_app_iff. auto.
      - destruct (Forall2_same_keys_r _ _ _ F2 Ic) as [r [Ir Sr]].
        exists r. split; [|apply Sr, K].
        apply in_one_failure, in_app_iff. auto. }
    assert (KM : In k (keys (merged outs)))
      by (apply merge_keys; right; exact X).
    assert (NE : dict_nonempty (merged outs) = true)
      by (destruct (merged outs); [destruct KM | reflexivity]).
    destruct (S' NE) as [_ [J _]]. exists (merged outs). split; assumption.
  - intros k p d K I KD.
    assert (I' : In (EvWrite p (FJson d)) (effects tr))
      by (apply filter_In; split; [exact I | reflexivity]).
    rewrite E in I'. apply in_app_iff in I'.
    assert (X : exists r, In (Return r) outs /\ In k (keys r)).
    { destruct I' as [I'|I'].
      - destruct (bulk_effects_json _ _ _ _ _ _ _ _ I' KD) as [[]|X]. exact X.
      - destruct (dict_nonempty (merged outs)); [|destruct I'].
        destruct I' as [X|I'].
        + inversion X; subst. apply merge_keys in KD.
          destruct KD as [[]|X']. exact X'.
        + destruct (assoc_get _ _); [destruct I' as [X|[]]|destruct I'].
          discriminate. }
    destruct X as [r [Ir Kr]].
    apply (one_failure_keys _ _ _ _ _ _ e ND CC F1 F2 k r K Ir Kr).
Qed.

End BulkFailure.

(* ================================================================== *)
(** * One locale of translation_sync.py *)
(* ================================================================== *)

Section SyncLocale.

Variable complete : endpoint.
Variable json_loads : pystr -> decoded.
Variable folder lang : pystr.

Let out_path := Sync.out_path_of folder lang.

Lemma sync_translate_chunk_run chunk w :
  Sync.translate_chunk complete json_loads chunk lang w =
  (sync_outcome complete json_loads lang (calls w) chunk, advance w [] 1).
Proof.
  unfold Sync.translate_chunk, bindM. rewrite request_run.
  unfold sync_outcome.
  destruct (complete (calls w) chunk lang) as [raw|e]; [|reflexivity].
  unfold Sync.decode_content.
  destruct (json_loads (Sync.clean_content raw)); reflexivity.
Qed.

Lemma sync_chunk_step_run acc chunk w :
  let o := sync_outcome complete json_loads lang (calls w) chunk in
  Sync.chunk_step complete json_loads lang acc chunk w =
  (Return (merge_outcome acc o), advance w (error_prints (failures [o])) 1).
Proof.
  intros o. unfold Sync.chunk_step, try_except, bindM.
  rewrite sync_translate_chunk_run. fold o.
  destruct o as [r|e]; cbv beta iota.
  - reflexivity.
  - rewrite print_run, advance_advance. reflexivity.
Qed.

Lemma failures_app outs1 outs2 :
  failures (outs1 ++ outs2) = failures outs1 ++ failures outs2.
Proof. apply flat_map_app. Qed.

Lemma sync_loop_run chunks : forall acc w,
  let outs := sync_outcomes complete json_loads lang (calls w) chunks in
  for_loop (Sync.chunk_step complete json_loads lang) chunks acc w =
  (Return (fold_left merge_outcome outs acc),
   advance w (error_prints (failures outs)) (length chunks)).
Proof.
  induction chunks as [|chunk rest IH]; intros acc w;
    cbn [for_loop sync_outcomes fold_left length].
  - simpl. rewrite advance_nil. reflexivity.
  - unfold bindM. rewrite sync_chunk_step_run, IH, advance_advance.
    unfold advance at 1 2. simpl calls. rewrite Nat.add_1_r.
    change (sync_outcome complete json_loads lang (calls w) chunk
              :: sync_outcomes complete json_loads lang
                   (Datatypes.S (calls w)) rest)
      with ([sync_outcome complete json_loads lang (calls w) chunk]
              ++ sync_outcomes complete json_loads lang
                   (Datatypes.S (calls w)) rest).
    rewrite failures_app. unfold error_prints. rewrite map_app.
    reflexivity.
Qed.

Lemma locale_data_run w T :
  locale_data w out_path = Some T ->
  bindM (path_exists out_path)
        (fun out_exists : bool =>
           if out_exists then read_json json_loads out_path else ret []) w
  = (Return T, w).
Proof.
  unfold locale_data, bindM, path_exists, read_json, ret.
  destruct (assoc_get (files w) out_path) as [[d|s]|] eqn:G;
    intros E; inversion E; subst; cbv beta iota; rewrite ?G; reflexivity.
Qed.

(** The trace of one locale: nothing but a line on the console when the
    work-set is empty; otherwise one line per failed chunk, then the
    Locale File, merged. *)
Lemma sync_lang_run en_data n w T W :
  locale_data w out_path = Some T ->
  Sync.to_translate_of en_data T = Return W ->
  (W = [] ->
   Sync.sync_lang complete json_loads en_data folder n lang w =
   (Return tt,
    advance w [EvPrint (MsgSyncing lang); EvPrint MsgNoTranslationNeeded] 0))
  /\
  (W <> [] -> forall chunks, chunk_dict W n = Return chunks ->
   let outs := sync_outcomes complete json_loads lang (calls w) chunks in
   Sync.sync_lang complete json_loads en_data folder n lang w =
   (Return tt,
    advance w
      (EvPrint (MsgSyncing lang) :: error_prints (failures outs)
       ++ [EvWrite out_path (FJson (dict_update T (merged outs)));
           EvPrint (MsgSynced lang)])
      (length chunks))).
Proof.
  intros L P.
  assert (H : Sync.sync_lang complete json_loads en_data folder n lang w =
    bindM (print (MsgSyncing lang)) (fun _ =>
    bindM (bindM (path_exists out_path)
            (fun out_exists : bool =>
               if out_exists then read_json json_loads out_path else ret []))
      (fun target_data =>
    bindM (lift (Sync.to_translate_of en_data target_data)) (fun to_translate =>
    if negb (dict_nonempty to_translate) then print MsgNoTranslationNeeded
    else
      bindM (lift (chunk_dict to_translate n)) (fun chunks =>
      bindM (Sync.translate_chunks complete json_loads lang chunks)
        (fun translated_data =>
      bindM (write_file out_path
               (FJson (dict_update target_data translated_data)))
        (fun _ => print (MsgSynced lang))))))) w).
  { unfold Sync.sync_lang, bindM, path_exists. fold out_path.
    destruct (print (MsgSyncing lang) w) as [[[]|e] w1]; [|reflexivity].
    destruct (assoc_get (files w1) out_path); reflexivity. }
  assert (L' : locale_data (advance w [EvPrint (MsgSyncing lang)] 0) out_path
               = Some T) by exact L.
  assert (H2 : Sync.sync_lang complete json_loads en_data folder n lang w =
    (if negb (dict_nonempty W) then print MsgNoTranslationNeeded
     else
      bindM (lift (chunk_dict W n)) (fun chunks =>
      bindM (Sync.translate_chunks complete json_loads lang chunks)
        (fun translated_data =>
      bindM (write_file out_path (FJson (dict_update T translated_data)))
        (fun _ => print (MsgSynced lang)))))
      (advance w [EvPrint (MsgSyncing lang)] 0)).
  { rewrite H. unfold bindM at 1. rewrite print_run.
    unfold bindM at 1. rewrite (locale_data_run _ _ L').
    unfold bindM at 1. rewrite lift_run, P. reflexivity. }
  rewrite H2. clear H H2. split.
  - intros ->. cbn [negb dict_nonempty].
    rewrite print_run, advance_advance. reflexivity.
  - intros NE chunks C.
    set (outs := sync_outcomes complete json_loads lang (calls w) chunks).
    destruct W as [|kv W']; [congruence|]. cbn [negb dict_nonempty].
    unfold bindM. rewrite lift_run, C. unfold Sync.translate_chunks.
    rewrite sync_loop_run, advance_advance.
    rewrite write_file_run, advance_advance, print_run, advance_advance.
    unfold advance at 1. simpl calls. rewrite Nat.add_0_r. fold outs.
    apply (f_equal (pair _)).
    change (fold_left merge_outcome outs []) with (merged outs).
    rewrite <- !app_assoc. simpl app. apply advance_eq. lia.
Qed.

End SyncLocale.

(** ** One failed chunk, and no translated data at all *)

Section SyncFailure.

Variable complete : endpoint.
Variable json_loads : pystr -> decoded.
Variable folder lang : pystr.

Let out_path := Sync.out_path_of folder lang.

Lemma failures_one (rs1 rs2 : list dict) (e : exn) :
  failures (map Return rs1 ++ Raise e :: map Return rs2) = [e].
Proof.
  assert (Z : forall rs, failures (map Return rs) = [])
    by (induction rs as [|r rs IH]; simpl; auto).
  rewrite failures_app. simpl. rewrite !Z. reflexivity.
Qed.

Lemma artifacts_error_prints es : artifacts (error_prints es) = [].
Proof. induction es; simpl; auto. Qed.

Lemma effects_error_prints es : effects (error_prints es) = [].
Proof. induction es; simpl; auto. Qed.

Lemma printed_errors_error_prints es : printed_errors (error_prints es) = es.
Proof. induction es as [|e es IH]; simpl; [|rewrite IH]; reflexivity. Qed.

Lemma printed_errors_app tr1 tr2 :
  printed_errors (tr1 ++ tr2) = printed_errors tr1 ++ printed_errors tr2.
Proof. apply flat_map_app. Qed.

Lemma merged_nodup outs : NoDup (keys (merged outs)).
Proof. apply merge_nodup. constructor. Qed.

(** The Locale File after a locale of the sync script. *)
Lemma sync_locale_outcome en_data n w T W chunks :
  locale_data w out_path = Some T ->
  Sync.to_translate_of en_data T = Return W -> W <> [] ->
  chunk_dict W n = Return chunks ->
  let outs := sync_outcomes complete json_loads lang (calls w) chunks in
  let final := dict_update T (merged outs) in
  exists tr,
    Sync.sync_lang complete json_loads en_data folder n lang w =
    (Return tt, advance w tr (length chunks)) /\
    effects tr = [EvWrite out_path (FJson final)] /\
    printed_errors tr = failures outs /\
    In (EvPrint (MsgSynced lang)) tr /\
    json_file (advance w tr (length chunks)) out_path = Some final /\
    (forall k, dict_get final k =
               match dict_get (merged outs) k with
               | Some v => Some v
               | None => dict_get T k
               end).
Proof.
  intros L P NE C outs final.
  destruct (sync_lang_run complete json_loads folder lang en_data n w T W L P)
    as [_ R].
  specialize (R NE chunks C). fold outs in R. fold out_path in R.
  fold final in R. eexists. split; [exact R|].
  repeat split.
  - change (effects (([EvPrint (MsgSyncing lang)] ++ error_prints (failures outs))
                       ++ [EvWrite out_path (FJson final);
                           EvPrint (MsgSynced lang)])
            = [EvWrite out_path (FJson final)]).
    rewrite !effects_app, effects_error_prints. reflexivity.
  - change (printed_errors
              (([EvPrint (MsgSyncing lang)] ++ error_prints (failures outs))
                 ++ [EvWrite out_path (FJson final);
                     EvPrint (MsgSynced lang)]) = failures outs).
    rewrite !printed_errors_app, printed_errors_error_prints. simpl.
    apply app_nil_r.
  - right. apply in_or_app. right. right. left. reflexivity.
  - unfold json_file, advance. simpl files.
    change (EvPrint (MsgSyncing lang)
              :: error_prints (failures outs)
                 ++ [EvWrite out_path (FJson final); EvPrint (MsgSynced lang)])
      with (([EvPrint (MsgSyncing lang)] ++ error_prints (failures outs))
              ++ [EvWrite out_path (FJson final); EvPrint (MsgSynced lang)]).
    rewrite replay_app. simpl. rewrite assoc_get_set, str_eqb_refl.
    reflexivity.
  - intros k. unfold final. apply dict_get_update, merged_nodup.
Qed.

Lemma sync_failure_isolated en_data n w T W before failed after rs1 e rs2 :
  locale_data w out_path = Some T ->
  Sync.to_translate_of en_data T = Return W ->
  NoDup (keys W) ->
  chunk_dict W n = Return (before ++ failed :: after) ->
  sync_outcomes complete json_loads lang (calls w) (before ++ failed :: after)
    = map Return rs1 ++ Raise e :: map Return rs2 ->
  Forall2 same_keys rs1 before -> Forall2 same_keys rs2 after ->
  exists tr d,
    Sync.sync_lang complete json_loads en_data folder n lang w =
    (Return tt, advance w tr (length (before ++ failed :: after))) /\
    artifacts tr = [] /\
    printed_errors tr = [e] /\
    json_file (advance w tr (length (before ++ failed :: after))) out_path
      = Some d /\
    (forall chunk k, In chunk (before ++ after) -> In k (keys chunk) ->
       In k (keys d)) /\
    (forall k, In k (keys failed) -> dict_get d k = dict_get T k).
Proof.
  intros L P ND C O F1 F2.
  assert (NB : before ++ failed :: after <> [])
    by (destruct before; discriminate).
  assert (CC : concat (before ++ failed :: after) = W)
    by (apply (chunk_dict_concat _ _ _ ND C NB)).
  assert (NE : W <> []).
  { intros ->. pose proof (chunk_dict_positive _ _ _ C NB) as Hn.
    pose proof (chunk_dict_windows [] n ltac:(constructor) Hn) as X.
    rewrite C in X. unfold range_len in X. simpl in X.
    destruct (0 <? n); simpl in X; destruct before; discriminate. }
  destruct (sync_locale_outcome en_data n w T W _ L P NE C)
    as [tr [R [E [PE [_ [J G]]]]]].
  rewrite O in *.
  set (outs := map Return rs1 ++ Raise e :: map Return rs2) in *.
  exists tr, (dict_update T (merged outs)).
  split; [exact R|]. split; [|split; [|split; [exact J|split]]].
  - rewrite <- artifacts_effects, E. reflexivity.
  - rewrite PE. apply failures_one.
  - intros chunk k Ic K. apply dict_update_keys_in. right.
    apply merge_keys. right.
    apply in_app_iff in Ic. destruct Ic as [Ic|Ic].
    + destruct (Forall2_same_keys_r _ _ _ F1 Ic) as [r [Ir Sr]].
      exists r. split; [|apply Sr, K]. apply in_one_failure, in_app_iff. auto.
    + destruct (Forall2_same_keys_r _ _ _ F2 Ic) as [r [Ir Sr]].
      exists r. split; [|apply Sr, K]. apply in_one_failure, in_app_iff. auto.
  - intros k K. rewrite G.
    destruct (dict_get (merged outs) k) as [v|] eqn:X; [|reflexivity].
    exfalso.
    assert (KM : In k (keys (merged outs))).
    { apply assoc_get_in. exists v. exact X. }
    apply merge_keys in KM. destruct KM as [[]|[r [Ir Kr]]].
    apply (one_failure_keys _ _ _ _ _ _ e ND CC F1 F2 k r K Ir Kr).
Qed.

End SyncFailure.

(* ================================================================== *)
(** * A whole run of translation_sync.py *)
(* ================================================================== *)

Lemma assoc_ext {V : Type} (d1 d2 : list (pystr * V)) :
  map fst d1 = map fst d2 -> NoDup (map fst d1) ->
  (forall k, assoc_get d1 k = assoc_get d2 k) -> d1 = d2.
Proof.
  revert d2. induction d1 as [|[k v] d1 IH]; intros [|[k2 v2] d2]; simpl;
    try discriminate; [reflexivity|].
  intros E ND H. injection E as E1 E2. subst k2.
  inversion ND as [|? ? Hn ND']; subst.
  pose proof (H k) as Hk. rewrite str_eqb_refl in Hk. inversion Hk; subst.
  f_equal. apply IH; auto. intros k'.
  destruct (str_eqb k' k) eqn:X.
  - apply str_eqb_eq in X. subst.
    rewrite (proj2 (assoc_get_none d1 k)) by exact Hn.
    rewrite (proj2 (assoc_get_none d2 k)) by (rewrite <- E2; exact Hn).
    reflexivity.
  - specialize (H k'). rewrite X in H. exact H.
Qed.

Lemma collapse_keys (S : dict) : keys (collapse S) = keys S.
Proof. unfold keys, collapse. rewrite map_map. reflexivity. Qed.

Lemma collapse_get (S : dict) (k : pystr) :
  dict_get (collapse S) k = option_map collapse_value (dict_get S k).
Proof.
  unfold dict_get, collapse.
  induction S as [|[k0 v0] S IH]; simpl; [reflexivity|].
  destruct (str_eqb k k0); [reflexivity | exact IH].
Qed.

Lemma collapsed_value (u : json) :
  Sync.is_update u = true -> Sync.collapsed u = Return (collapse_value u).
Proof.
  intros U. unfold collapse_value. rewrite U.
  destruct u; try discriminate. simpl.
  unfold dict_mem, getitem. destruct (dict_get d (lit "text")); reflexivity.
Qed.

Lemma clean_up_run (updates : dict) (ks : list pystr) : forall E,
  NoDup ks ->
  (forall k, In k ks -> exists u, dict_get updates k = Some u
                                  /\ dict_get E k = Some u
                                  /\ Sync.is_update u = true) ->
  exists E',
    Sync.clean_up updates ks E = Return E' /\
    keys E' = keys E /\
    (forall k, dict_get E' k =
               if in_dec (list_eq_dec N.eq_dec) k ks
               then option_map collapse_value (dict_get E k)
               else dict_get E k).
Proof.
  induction ks as [|key ks IH]; intros E ND H; simpl.
  - exists E. repeat split. 
  - inversion ND as [|? ? Hn ND']; subst.
    destruct (H key (or_introl eq_refl)) as [u [GU [GE U]]].
    unfold getitem at 1. rewrite GE. simpl.
    rewrite (is_update_is_dict _ U). unfold getitem at 1. rewrite GU. simpl.
    rewrite (collapsed_value _ U). simpl.
    destruct (IH (dict_set E key (collapse_value u)) ND') as [E' [R [K G]]].
    { intros k I. destruct (H k (or_intror I)) as [u' [GU' [GE' U']]].
      exists u'. repeat split; auto.
      unfold dict_get, dict_set. rewrite assoc_get_set.
      rewrite (proj2 (str_eqb_neq k key)); [exact GE'|].
      intros ->. tauto. }
    exists E'. split; [exact R|]. split.
    + rewrite K. unfold keys, dict_set. apply assoc_set_keys.
      apply assoc_get_in. eauto.
    + intros k. rewrite G. unfold dict_get, dict_set. rewrite assoc_get_set.
      destruct (list_eq_dec N.eq_dec key k) as [->|NK].
      * rewrite str_eqb_refl.
        destruct (in_dec (list_eq_dec N.eq_dec) k ks); [tauto|].
        unfold dict_get in GE. rewrite GE. reflexivity.
      * rewrite (proj2 (str_eqb_neq k key)) by congruence.
        destruct (in_dec (list_eq_dec N.eq_dec) k ks); reflexivity.
Qed.

Lemma clean_up_collapse (S : dict) :
  NoDup (keys S) ->
  Sync.clean_up (Sync.updates_of S) (keys (Sync.updates_of S)) S =
  Return (collapse S).
Proof.
  intros ND. rewrite (updates_of_filter S ND).
  set (ups := filter (fun kv => Sync.is_update (snd kv)) S).
  assert (NU : NoDup (keys ups)) by (apply NoDup_keys_filter, ND).
  destruct (clean_up_run ups (keys ups) S NU) as [E' [R [K G]]].
  { intros k I. apply assoc_get_in in I. destruct I as [u GU].
    exists u. split; [exact GU|].
    apply assoc_get_some_in, filter_In in GU. destruct GU as [I U].
    split; [apply (in_assoc_get _ _ _ ND I) | exact U]. }
  rewrite R. f_equal. apply assoc_ext.
  - fold (keys E'). fold (keys (collapse S)). rewrite K, collapse_keys.
    reflexivity.
  - fold (keys E'). rewrite K. exact ND.
  - intros k. fold (dict_get E' k). fold (dict_get (collapse S) k).
    rewrite G, collapse_get.
    destruct (in_dec (list_eq_dec N.eq_dec) k (keys ups)) as [I|I];
      [reflexivity|].
    destruct (dict_get S k) as [v|] eqn:GS; [|reflexivity]. simpl. f_equal.
    unfold collapse_value. destruct (Sync.is_update v) eqn:U; [|reflexivity].
    exfalso. apply I. apply (in_map fst ups (k, v)). apply filter_In.
    split; [apply assoc_get_some_in, GS | exact U].
Qed.

Lemma chunk_dict_total (data : dict) (n : Z) :
  n <> 0 -> exists chunks, chunk_dict data n = Return chunks.
Proof.
  intros Hn. unfold chunk_dict, py_range.
  destruct (Z.eqb_spec n 0); [contradiction|]. simpl. eauto.
Qed.

Lemma to_translate_total (S T : dict) :
  NoDup (keys S) ->
  (forall k u, In (k, u) S -> Sync.is_update u = true ->
               directive_text u <> None) ->
  exists W, Sync.to_translate_of S T = Return W.
Proof.
  intros ND HT. eexists. apply to_translate_of_items; assumption.
Qed.

Lemma read_json_run json_loads p w d :
  json_file w p = Some d -> read_json json_loads p w = (Return d, w).
Proof.
  unfold json_file, read_json.
  destruct (assoc_get (files w) p) as [[d'|s]|]; intros E; inversion E.
  reflexivity.
Qed.

Lemma locale_data_advance w tr c p :
  (effects tr = [] \/ exists q d, effects tr = [EvWrite q (FJson d)]) ->
  locale_data w p <> None -> locale_data (advance w tr c) p <> None.
Proof.
  unfold locale_data, advance. simpl files. rewrite <- replay_effects.
  intros [->|[q [d ->]]]; simpl; [auto|].
  rewrite assoc_get_set. destruct (str_eqb p q); [discriminate | auto].
Qed.

Section SyncRun.

Variable complete : endpoint.
Variable json_loads : pystr -> decoded.
Variable folder : pystr.
Variable n : Z.
Variable S : dict.

Hypothesis S_nodup : NoDup (keys S).
Hypothesis S_text :
  forall k u, In (k, u) S -> Sync.is_update u = true ->
              directive_text u <> None.
Hypothesis n_nonzero : n <> 0.

Lemma sync_lang_total lang w :
  locale_data w (Sync.out_path_of folder lang) <> None ->
  exists tr c,
    Sync.sync_lang complete json_loads S folder n lang w =
    (Return tt, advance w tr c) /\
    (effects tr = [] \/
     exists d, effects tr = [EvWrite (Sync.out_path_of folder lang) (FJson d)]).
Proof.
  intros L.
  destruct (locale_data w (Sync.out_path_of folder lang)) as [T|] eqn:LT;
    [clear L | congruence].
  destruct (to_translate_total S T S_nodup S_text) as [W P].
  destruct (sync_lang_run complete json_loads folder lang S n w T W LT P)
    as [R0 R1].
  destruct W as [|kv W'].
  - rewrite (R0 eq_refl). eexists _, _. split; [reflexivity|].
    left. reflexivity.
  - destruct (chunk_dict_total (kv :: W') n n_nonzero) as [chunks C].
    rewrite (R1 ltac:(discriminate) chunks C).
    eexists _, _. split; [reflexivity|]. right. eexists.
    match goal with |- effects (?a :: ?b ++ ?c) = _ =>
      replace (a :: b ++ c) with (([a] ++ b) ++ c) by reflexivity end.
    rewrite !effects_app, effects_error_prints. reflexivity.
Qed.

Lemma sync_langs_run input_file langs : forall w,
  (forall lang, In lang langs ->
                locale_data w (Sync.out_path_of folder lang) <> None) ->
  ~ In input_file (map (Sync.out_path_of folder) langs) ->
  exists tr c,
    for_loop (fun _ lang => Sync.sync_lang complete json_loads S folder n lang)
             langs tt w = (Return tt, advance w tr c) /\
    touches input_file tr = false.
Proof.
  induction langs as [|lang langs IH]; intros w L NI; cbn [for_loop].
  - exists [], 0%nat. rewrite advance_nil. split; reflexivity.
  - destruct (sync_lang_total lang w (L lang (or_introl eq_refl)))
      as [tr1 [c1 [R1 E1]]].
    unfold bindM. rewrite R1.
    destruct (IH (advance w tr1 c1)) as [tr2 [c2 [R2 T2]]].
    + intros l I. apply locale_data_advance.
      * destruct E1 as [E1|[d E1]]; [left; exact E1 | right; eauto].
      * apply L. right; exact I.
    + intros I. apply NI. right; exact I.
    + rewrite R2, advance_advance. eexists _, _. split; [reflexivity|].
      rewrite touches_app, T2, orb_false_r.
      rewrite <- touches_effects.
      destruct E1 as [->|[d ->]]; [reflexivity|]. simpl.
      rewrite orb_false_r. apply str_eqb_neq. intros E. apply NI.
      left. exact E.
Qed.

(** The run: console lines, the locales, then the String Table with its
    directives collapsed, written once as the last effect. *)
Lemma translate_sync_run input_file langs w :
  json_file w input_file = Some S ->
  (forall lang, In lang langs ->
                locale_data w (Sync.out_path_of folder lang) <> None) ->
  ~ In input_file (map (Sync.out_path_of folder) langs) ->
  exists locales c,
    Sync.translate_sync complete json_loads input_file folder langs n w =
    (Return tt,
     advance w (locales ++ [EvWrite input_file (FJson (collapse S));
                            EvPrint MsgCleanedUp]) c) /\
    touches input_file locales = false.
Proof.
  intros J L NI. unfold Sync.translate_sync, bindM.
  rewrite print_run.
  rewrite (read_json_run json_loads input_file _ S) by exact J.
  rewrite print_run, advance_advance.
  match goal with |- context [for_loop ?f langs tt ?w0] =>
    destruct (sync_langs_run input_file langs w0) as [tr [c [R T]]]
  end.
  { intros l I. apply locale_data_advance; [left; reflexivity | auto]. }
  { exact NI. }
  rewrite R, advance_advance, lift_run, (clean_up_collapse S S_nodup).
  rewrite write_file_run, advance_advance, print_run, advance_advance.
  exists ([EvPrint MsgLoadingSource;
           EvPrint (MsgCounts
                      (length (Sync.new_keys_of S (Sync.updates_of S)))
                      (length (Sync.updates_of S)))] ++ tr).
  eexists. split.
  - apply (f_equal (pair _)). f_equal.
    repeat (rewrite <- ?app_assoc; cbn [app]). reflexivity.
  - rewrite touches_app, T. reflexivity.
Qed.

End SyncRun.

(* ================================================================== *)
(** * Fence removal *)
(* ================================================================== *)

Lemma lstrip_by_stops p a s :
  forallb p a = true -> stops p s -> lstrip_by p (a ++ s) = s.
Proof.
  induction a as [|c a IH]; simpl; intros A S.
  - destruct s as [|c s]; simpl in *; [reflexivity | rewrite S; reflexivity].
  - apply andb_true_iff in A. destruct A as [-> A]. auto.
Qed.

Lemma rstrip_by_stops p a s :
  forallb p a = true -> stops p (rev s) -> rstrip_by p (s ++ a) = s.
Proof.
  intros A S. unfold rstrip_by. rewrite rev_app_distr.
  rewrite lstrip_by_stops; [apply rev_involutive | | exact S].
  rewrite forallb_forall in *. intros x I. apply A, in_rev, I.
Qed.

Lemma stops_space_then p ws c s :
  (forall x, is_space x = true -> p x = false) ->
  forallb is_space ws = true -> p c = false -> stops p (ws ++ c :: s).
Proof.
  intros H W C. destruct ws as [|x ws]; simpl in *; [exact C|].
  apply andb_true_iff in W. apply H, W.
Qed.

Lemma strip_between ws1 a m b ws2 :
  forallb is_space ws1 = true -> forallb is_space ws2 = true ->
  is_space a = false -> is_space b = false ->
  strip (ws1 ++ (a :: m ++ [b]) ++ ws2) = a :: m ++ [b].
Proof.
  intros W1 W2 A B. unfold strip.
  rewrite lstrip_by_stops by (simpl; auto).
  apply rstrip_by_stops; [exact W2|].
  simpl. rewrite rev_app_distr. simpl. exact B.
Qed.

Lemma space_not_fence_char x :
  is_space x = true -> char_in x fence_json = false.
Proof.
  intros S. unfold char_in, fence_json. simpl.
  repeat match goal with
  | |- context [N.eqb x ?c] =>
      destruct (N.eqb_spec x c); [subst; discriminate|]
  end. reflexivity.
Qed.

Lemma space_not_backtick x : is_space x = true -> char_in x fence = false.
Proof.
  intros S. unfold char_in, fence. simpl.
  repeat match goal with
  | |- context [N.eqb x ?c] =>
      destruct (N.eqb_spec x c); [subst; discriminate|]
  end. reflexivity.
Qed.

Lemma startswith_app a s : startswith a (a ++ s) = true.
Proof.
  induction a as [|c a IH]; simpl; [reflexivity|].
  rewrite N.eqb_refl. exact IH.
Qed.

Lemma startswith_mismatch a c r x s :
  c <> x -> startswith (a ++ c :: r) (a ++ x :: s) = false.
Proof.
  intros NE. induction a as [|y a IH]; simpl.
  - rewrite (proj2 (N.eqb_neq c x)) by exact NE. reflexivity.
  - rewrite N.eqb_refl. exact IH.
Qed.

Lemma endswith_app a s : endswith a (s ++ a) = true.
Proof. unfold endswith. rewrite rev_app_distr. apply startswith_app. Qed.

Lemma py_slice_from_app {A : Type} (a s : list A) :
  py_slice_from (a ++ s) (Z.of_nat (length a)) = s.
Proof.
  unfold py_slice_from, slice_bound. rewrite length_app.
  destruct (Z.ltb_spec (Z.of_nat (length a)) 0); [lia|].
  rewrite Z.min_l by lia. rewrite Nat2Z.id.
  rewrite skipn_app, skipn_all, Nat.sub_diag. reflexivity.
Qed.

Lemma py_slice_drop_fence (s : pystr) : py_slice (s ++ fence) 0 (-3) = s.
Proof.
  unfold py_slice, slice_bound. rewrite length_app. simpl length.
  destruct (Z.ltb_spec 0 0); [lia|]. destruct (Z.ltb_spec (-3) 0); [|lia].
  rewrite Z.min_l by lia. rewrite Z.max_r by lia. simpl skipn.
  replace (Z.to_nat (-3 + Z.of_nat (length s + 3) - 0)) with (length s) by lia.
  rewrite firstn_app, firstn_all, Nat.sub_diag. simpl. apply app_nil_r.
Qed.

(** Both sides are the same list, up to the bracketing of [++]. *)
Ltac same_list :=
  unfold fence, fence_json;
  change (lit "```") with [96%N; 96%N; 96%N];
  change (lit "```json") with [96%N; 96%N; 96%N; 106%N; 115%N; 111%N; 110%N];
  change (lit "{") with [123%N]; change (lit "}") with [125%N];
  repeat (progress (cbn [app]; rewrite <- ?app_assoc));
  rewrite ?app_nil_r; reflexivity.

Section Fenced.

(** The object text [t = pre ++ "{" ++ body ++ "}" ++ post] inside a fence,
    with [ws1] and [ws2] between the markers and the text. *)
Variables ws1 pre body post ws2 : pystr.
Hypothesis ws1_space : forallb is_space ws1 = true.
Hypothesis pre_space : forallb is_space pre = true.
Hypothesis post_space : forallb is_space post = true.
Hypothesis ws2_space : forallb is_space ws2 = true.

Let core : pystr := 123%N :: body ++ [125%N].
Let t : pystr := pre ++ lit "{" ++ body ++ lit "}" ++ post.

Lemma t_core : t = pre ++ core ++ post.
Proof. unfold t, core. same_list. Qed.

Lemma fenced_shape tag :
  fenced tag ws1 t ws2 = tag ++ ((ws1 ++ pre) ++ core ++ (post ++ ws2)) ++ fence.
Proof. unfold fenced. rewrite t_core. same_list. Qed.

Lemma spaces_app a b :
  forallb is_space a = true -> forallb is_space b = true ->
  forallb is_space (a ++ b) = true.
Proof. intros A B. rewrite forallb_app, A, B. reflexivity. Qed.

Lemma strip_t : strip t = core.
Proof. rewrite t_core. apply strip_between; auto. Qed.

(** The text without the opening marker: stripped, it still ends with the
    closing marker. *)
Lemma strip_opened :
  strip (((ws1 ++ pre) ++ core ++ (post ++ ws2)) ++ fence) =
  (core ++ post ++ ws2) ++ fence.
Proof.
  replace (((ws1 ++ pre) ++ core ++ (post ++ ws2)) ++ fence)
    with ((ws1 ++ pre)
            ++ (123%N :: (body ++ [125%N] ++ (post ++ ws2) ++ [96%N; 96%N])
                  ++ [96%N]) ++ []).
  2:{ unfold core. same_list. }
  rewrite strip_between by (auto using spaces_app).
  unfold core. same_list.
Qed.

Lemma strip_closed : strip (core ++ post ++ ws2) = core.
Proof.
  change (core ++ post ++ ws2) with ([] ++ core ++ (post ++ ws2)).
  apply strip_between; auto using spaces_app.
Qed.

Lemma strip_fenced tag c rest :
  tag = c :: rest -> is_space c = false ->
  strip (fenced tag ws1 t ws2) = fenced tag ws1 t ws2.
Proof.
  intros -> C. rewrite fenced_shape.
  replace ((c :: rest) ++ ((ws1 ++ pre) ++ core ++ post ++ ws2) ++ fence)
    with ([] ++ (c :: (rest ++ ((ws1 ++ pre) ++ core ++ post ++ ws2)
                         ++ [96%N; 96%N]) ++ [96%N]) ++ []).
  2:{ same_list. }
  rewrite strip_between by auto. same_list.
Qed.

Lemma opened_stops p :
  (forall x, is_space x = true -> p x = false) -> p 123%N = false ->
  stops p (((ws1 ++ pre) ++ core ++ (post ++ ws2)) ++ fence).
Proof.
  intros H C.
  replace (((ws1 ++ pre) ++ core ++ (post ++ ws2)) ++ fence)
    with ((ws1 ++ pre)
            ++ 123%N :: (body ++ [125%N] ++ (post ++ ws2) ++ fence))
    by (unfold core; same_list).
  apply stops_space_then; auto using spaces_app.
Qed.

Lemma closed_stops :
  stops (fun c => char_in c fence) (rev (core ++ post ++ ws2)).
Proof.
  replace (core ++ post ++ ws2)
    with ((123%N :: body) ++ 125%N :: (post ++ ws2))
    by (unfold core; same_list).
  rewrite rev_app_distr. simpl rev at 1. rewrite <- app_assoc.
  apply stops_space_then.
  - apply space_not_backtick.
  - rewrite forallb_forall. intros x I. apply in_rev in I.
    pose proof (spaces_app _ _ post_space ws2_space) as S.
    rewrite forallb_forall in S. auto.
  - reflexivity.
Qed.

Lemma opened_not_json :
  startswith fence_json (fence ++ ((ws1 ++ pre) ++ core ++ (post ++ ws2)) ++ fence)
  = false.
Proof.
  change fence_json with (fence ++ 106%N :: [115%N; 111%N; 110%N]).
  destruct (ws1 ++ pre) as [|x s] eqn:E; cbn [app].
  - unfold core. cbn [app]. apply startswith_mismatch. discriminate.
  - assert (S : is_space x = true).
    { pose proof (spaces_app _ _ ws1_space pre_space) as W.
      rewrite E in W. simpl in W. apply andb_true_iff in W. tauto. }
    apply startswith_mismatch. intros <-. discriminate S.
Qed.

(** translate.py and translation_sync.py: [lstrip]/[rstrip]. *)
Lemma translate_clean_fenced tag :
  tag = fence_json \/ tag = fence ->
  Translate.clean_content (fenced tag ws1 t ws2) = core.
Proof.
  intros T. unfold Translate.clean_content.
  rewrite (strip_fenced tag 96%N (tl tag))
    by (destruct T; subst; reflexivity).
  rewrite fenced_shape. destruct T; subst tag.
  - rewrite startswith_app. unfold lstrip_chars.
    rewrite lstrip_by_stops;
      [| reflexivity | apply opened_stops; [apply space_not_fence_char | reflexivity]].
    rewrite strip_opened, endswith_app. unfold rstrip_chars.
    rewrite rstrip_by_stops; [| reflexivity | apply closed_stops].
    apply strip_closed.
  - rewrite opened_not_json, startswith_app. unfold lstrip_chars.
    rewrite lstrip_by_stops;
      [| reflexivity | apply opened_stops; [apply space_not_backtick | reflexivity]].
    rewrite strip_opened, endswith_app. unfold rstrip_chars.
    rewrite rstrip_by_stops; [| reflexivity | apply closed_stops].
    apply strip_closed.
Qed.

Lemma core_no_fence :
  startswith fence_json core = false /\ startswith fence core = false
  /\ endswith fence core = false.
Proof.
  unfold core, endswith. repeat split.
  change (123%N :: body ++ [125%N]) with ((123%N :: body) ++ [125%N]).
  rewrite rev_app_distr. reflexivity.
Qed.

Lemma translate_clean_plain : Translate.clean_content t = core.
Proof.
  unfold Translate.clean_content. rewrite strip_t.
  destruct core_no_fence as [-> [-> ->]]. reflexivity.
Qed.

(** translation_checker.py: slices. *)
Lemma checker_clean_fenced tag :
  tag = fence_json \/ tag = fence ->
  Checker.clean_content (fenced tag ws1 t ws2) = core.
Proof.
  intros T. unfold Checker.clean_content.
  rewrite (strip_fenced tag 96%N (tl tag))
    by (destruct T; subst; reflexivity).
  rewrite fenced_shape. destruct T; subst tag.
  - rewrite startswith_app, py_slice_from_app.
    rewrite strip_opened, endswith_app, py_slice_drop_fence.
    apply strip_closed.
  - rewrite opened_not_json, startswith_app, py_slice_from_app.
    rewrite strip_opened, endswith_app, py_slice_drop_fence.
    apply strip_closed.
Qed.

Lemma checker_clean_plain : Checker.clean_content t = core.
Proof.
  unfold Checker.clean_content. rewrite strip_t.
  destruct core_no_fence as [-> [-> ->]]. reflexivity.
Qed.

End Fenced.

(* ================================================================== *)
(** * The QA pass *)
(* ================================================================== *)

(** The pattern of line 88 does not compile: its look-behinds match 15 or
    16 characters. *)
Lemma pattern_does_not_compile : compiles Checker.pattern = false.
Proof. reflexivity. Qed.

Lemma braces_pattern_compiles : compiles Checker.braces_pattern = true.
Proof. reflexivity. Qed.

Lemma clean_quotes_and_escape_raises eng content :
  Checker.clean_quotes_and_escape eng content =
  Raise (ReError (lit "look-behind requires fixed-width pattern")).
Proof. reflexivity. Qed.

Lemma checker_decode_raises eng json_loads lang content w :
  Checker.decode_content eng json_loads lang content w =
  (Raise (ReError (lit "look-behind requires fixed-width pattern")), w).
Proof. reflexivity. Qed.

Lemma check_translation_chunk_run eng json_loads complete en tc lang w :
  Checker.check_translation_chunk eng json_loads complete en tc lang w =
  (checker_outcome complete (calls w) en tc lang, advance w [] 1).
Proof.
  unfold Checker.check_translation_chunk, Checker.review_request, bindM,
    checker_outcome, advance.
  simpl. rewrite app_nil_r, Nat.add_1_r.
  destruct (complete (calls w) en tc lang); reflexivity.
Qed.

(** The repository's reviewer is a reviewer in the sense of [reviews_as]. *)
Lemma checker_reviews_as eng json_loads complete p :
  reviews_as (Checker.check_translation_chunk eng json_loads complete)
             (checker_outcome complete) p.
Proof.
  intros en tc lang w. exists []. split; [reflexivity|].
  apply check_translation_chunk_run.
Qed.

Lemma simulated_reviews_as outcome p :
  reviews_as (simulated_reviewer outcome) outcome p.
Proof.
  intros en tc lang w. exists []. split; [reflexivity|].
  unfold simulated_reviewer, advance. simpl.
  rewrite app_nil_r, Nat.add_1_r. reflexivity.
Qed.

(** ** The merge of the problems *)

Lemma apply_problems_other (problems : dict) (k : pystr) : forall T,
  ~ In k (keys problems) ->
  dict_get (Checker.apply_problems problems T) k = dict_get T k.
Proof.
  unfold Checker.apply_problems.
  induction problems as [|[k0 v0] problems IH]; intros T H; simpl;
    [reflexivity|].
  rewrite IH by (intros I; apply H; right; exact I).
  destruct v0; try reflexivity.
  destruct (dict_get d (lit "translation")); [|reflexivity].
  unfold dict_get, dict_set. rewrite assoc_get_set.
  rewrite (proj2 (str_eqb_neq k k0)); [reflexivity|].
  intros ->. apply H. left; reflexivity.
Qed.

Lemma apply_problems_get (problems : dict) (k : pystr) (data : dict)
    (t : json) : forall T,
  NoDup (keys problems) ->
  dict_get problems k = Some (JObj data) ->
  dict_get data (lit "translation") = Some t ->
  dict_get (Checker.apply_problems problems T) k = Some t.
Proof.
  unfold Checker.apply_problems, dict_get at 1.
  induction problems as [|[k0 v0] problems IH]; intros T ND G D; simpl in *;
    [discriminate|].
  inversion ND as [|? ? Hn ND']; subst.
  destruct (str_eqb k k0) eqn:E.
  - apply str_eqb_eq in E. subst k0. inversion G; subst. rewrite D.
    fold (Checker.apply_problems problems (dict_set T k t)).
    rewrite apply_problems_other by exact Hn.
    unfold dict_get, dict_set. rewrite assoc_get_set, str_eqb_refl.
    reflexivity.
  - apply IH; assumption.
Qed.

(** An entry that is no record, like the "error" marker, changes nothing. *)
Lemma apply_problems_keys (problems : dict) : forall T k,
  In k (keys (Checker.apply_problems problems T)) ->
  In k (keys T) \/
  exists data t, In (k, JObj data) problems
                 /\ dict_get data (lit "translation") = Some t.
Proof.
  unfold Checker.apply_problems.
  induction problems as [|[k0 v0] problems IH]; intros T k; simpl; [auto|].
  intros I. apply IH in I. destruct I as [I|[data [t [I D]]]]; [|eauto 6].
  destruct v0; auto. destruct (dict_get d (lit "translation")) eqn:D; auto.
  unfold keys, dict_set in I. apply assoc_set_keys_in in I.
  destruct I as [->|I]; [|auto]. right. eauto 6.
Qed.

Lemma review_fold_merged (outs : list (result dict)) : forall acc problems,
  review_fold outs acc = Return problems ->
  problems = fold_left merge_outcome outs acc /\ reviewed outs = length outs.
Proof.
  induction outs as [|[r|e] outs IH]; intros acc problems; simpl.
  - intros E; inversion E; auto.
  - intros E. destruct (IH _ _ E) as [-> ->]. auto.
  - discriminate.
Qed.

Lemma review_fold_empty (outs : list (result dict)) :
  Forall (fun o => o = Return []) outs -> review_fold outs [] = Return [].
Proof.
  induction 1 as [|o outs -> F IH]; simpl; [reflexivity | exact IH].
Qed.

(** ** One locale of the QA pass *)

Section QaLocale.

Variable json_loads : pystr -> decoded.
Variable check_chunk : dict -> dict -> pystr -> M dict.
Variable outcome : nat -> dict -> dict -> pystr -> result dict.
Variable folder lang : pystr.

Let lang_file := path_join folder (lang ++ lit ".json").

Hypothesis reviewer : reviews_as check_chunk outcome lang_file.

Lemma review_step_run T problems chunk w :
  exists tr,
    touches lang_file tr = false /\
    Checker.review_step check_chunk T lang problems chunk w =
    (match outcome (calls w) chunk (Checker.translated_chunk_of T chunk) lang
     with
     | Return issues => Return (dict_update problems issues)
     | Raise e => Raise e
     end, advance w tr 1).
Proof.
  destruct (reviewer chunk (Checker.translated_chunk_of T chunk) lang w)
    as [tr [TT R]].
  exists tr. split; [exact TT|].
  unfold Checker.review_step, bindM. rewrite R.
  destruct (outcome (calls w) chunk (Checker.translated_chunk_of T chunk) lang);
    reflexivity.
Qed.

Lemma review_loop_run T chunks : forall problems w,
  let outs := review_outcomes outcome T lang (calls w) chunks in
  exists tr,
    touches lang_file tr = false /\
    for_loop (Checker.review_step check_chunk T lang) chunks problems w =
    (review_fold outs problems, advance w tr (reviewed outs)).
Proof.
  induction chunks as [|chunk rest IH]; intros problems w;
    cbn [for_loop review_outcomes review_fold reviewed].
  - exists []. rewrite advance_nil. split; reflexivity.
  - destruct (review_step_run T problems chunk w) as [tr1 [T1 R1]].
    unfold bindM. rewrite R1.
    destruct (outcome (calls w) chunk (Checker.translated_chunk_of T chunk)
                lang) as [issues|e].
    + destruct (IH (dict_update problems issues) (advance w tr1 1))
        as [tr2 [T2 R2]].
      rewrite R2, advance_advance. simpl calls. rewrite Nat.add_1_r.
      exists (tr1 ++ tr2). split; [rewrite touches_app, T1, T2; reflexivity|].
      reflexivity.
    + exists tr1. split; [exact T1 | reflexivity].
Qed.

(** The trace of one locale whose file holds [T]: the review of the chunks
    leaves the Locale File alone; it is written afterwards when the review
    ended without an exception and found problems. *)
Lemma check_lang_run en_data n w T chunks :
  json_file w lang_file = Some T ->
  chunk_dict en_data n = Return chunks ->
  let outs := review_outcomes outcome T lang (calls w) chunks in
  exists before,
    touches lang_file before = false /\
    Checker.check_lang json_loads check_chunk en_data folder n lang w =
    match review_fold outs [] with
    | Raise e => (Raise e, advance w before (reviewed outs))
    | Return problems =>
        if dict_nonempty problems then
          (Return tt,
           advance w
             (before ++
              [EvWrite lang_file
                       (FJson (Checker.apply_problems problems T));
               EvPrint (MsgUpdatedWritten lang_file)])
             (reviewed outs))
        else
          (Return tt,
           advance w (before ++ [EvPrint (MsgNoIssues lang)]) (reviewed outs))
    end.
Proof.
  intros J C outs.
  unfold Checker.check_lang. fold lang_file. unfold bindM at 1.
  rewrite path_exists_run.
  assert (X : assoc_get (files w) lang_file = Some (FJson T)).
  { unfold json_file in J.
    destruct (assoc_get (files w) lang_file) as [[d|s]|]; inversion J.
    reflexivity. }
  rewrite X. cbn [negb]. unfold bindM at 1. rewrite print_run.
  unfold bindM at 1.
  rewrite (read_json_run json_loads lang_file _ T) by exact J.
  unfold bindM at 1. rewrite lift_run, C. unfold bindM at 1.
  destruct (review_loop_run T chunks []
              (advance w [EvPrint (MsgChecking lang)] 0)) as [tr [TT R]].
  rewrite R, advance_advance. simpl calls. rewrite Nat.add_0_r. fold outs.
  exists ([EvPrint (MsgChecking lang)] ++ tr).
  split; [rewrite touches_app, TT; reflexivity|].
  destruct (review_fold outs []) as [problems|e]; [|reflexivity].
  destruct (dict_nonempty problems).
  - unfold bindM. rewrite write_file_run, advance_advance.
    rewrite print_run, advance_advance.
    apply (f_equal (pair _)). f_equal; [|lia].
    rewrite <- !app_assoc. reflexivity.
  - rewrite print_run, advance_advance.
    apply (f_equal (pair _)). f_equal. lia.
Qed.

End QaLocale.

(* ================================================================== *)
(** * The claims *)
(* ================================================================== *)

Lemma distinct_sound (l : list pystr) : distinct l = true -> NoDup l.
Proof.
  induction l as [|k l IH]; simpl; intros H; constructor.
  - apply andb_true_iff in H. destruct H as [H _].
    apply negb_true_iff in H. intros I.
    assert (X : existsb (str_eqb k) l = true)
      by (apply existsb_exists; exists k; split;
          [exact I | apply str_eqb_refl]).
    congruence.
  - apply IH. apply andb_true_iff in H. tauto.
Qed.

(** C2. For every mapping and every positive chunk size [n], [chunk_dict]
    yields ceil(len/n) chunks (the count [c] with
    [n*(c-1) < len <= n*c], which is [(len + n - 1) / n]), each with at
    most [n] entries; the chunks concatenated in order are the mapping
    itself, keys and values in their order; the empty mapping yields no
    chunk at all. *)
Theorem chunk_dict_partition (data : dict) (n : Z) :
  NoDup (keys data) -> 0 < n ->
  exists chunks,
    chunk_dict data n = Return chunks /\
    Z.of_nat (length chunks) = (Z.of_nat (length data) + n - 1) / n /\
    n * (Z.of_nat (length chunks) - 1) < Z.of_nat (length data)
      <= n * Z.of_nat (length chunks) /\
    Forall (fun c => Z.of_nat (length c) <= n) chunks /\
    concat chunks = data /\
    (data = [] -> chunks = []).
Proof.
  intros ND Hn. eexists. split; [apply chunk_dict_windows; assumption|].
  pose proof (@range_len_ceil (Z.of_nat (length data)) n ltac:(lia) Hn) as [C B].
  assert (C0 : 0 <= range_len 0 (Z.of_nat (length data)) n) by nia.
  rewrite length_map, length_seq, Z2Nat.id by exact C0.
  repeat split; try lia.
  - apply Forall_forall. intros c Hc. apply in_map_iff in Hc.
    destruct Hc as [k [<- _]]. rewrite length_firstn. lia.
  - rewrite concat_windows. apply firstn_all2. nia.
  - intros ->. simpl in *. unfold range_len.
    destruct (0 <? n); reflexivity.
Qed.

(** C2, at three entries and chunk size 2: two chunks, of two and of one. *)
Lemma chunk_dict_partition_witness :
  NoDup (keys Example.three) /\ 0 < 2 /\
  exists chunks,
    chunk_dict Example.three 2 = Return chunks /\
    length chunks = 2%nat /\ concat chunks = Example.three.
Proof.
  assert (ND : NoDup (keys Example.three))
    by (apply distinct_sound; reflexivity).
  assert (P : 0 < 2) by lia.
  split; [exact ND|]. split; [exact P|].
  destruct (chunk_dict_partition Example.three 2 ND P)
    as [chunks [E [L [_ [_ [C _]]]]]].
  exists chunks. split; [exact E|]. split; [|exact C].
  change ((Z.of_nat (length Example.three) + 2 - 1) / 2) with 2 in L. lia.
Defined.

(** C1, as stated, fails: a record that is no update directive (its
    [update] is false) and whose key the Locale File lacks is a plain entry
    in the words of the claim, yet the work-set leaves it out. *)
Lemma work_set_skips_unflagged_record :
  dict_get Example.unflagged (lit "a")
    = Some (JObj [(lit "text", JStr (lit "Hi")); (lit "update", JBool false)])
  /\ Sync.is_update
       (JObj [(lit "text", JStr (lit "Hi")); (lit "update", JBool false)])
     = false
  /\ dict_mem (lit "a") [] = false
  /\ Sync.to_translate_of Example.unflagged [] = Return [].
Proof. repeat split. Qed.

(** C1, amended. For a String Table [S] (keys unique) whose update
    directives all carry a [text], and every Locale File [T], the work-set
    is the entries of [S] that are no records and whose key [T] lacks, with
    their values, followed by the directives of [S] (records with a truthy
    [update]) with their [text], whatever [T] holds; its keys are unique;
    a key is in it exactly on one of these two grounds; and a record that
    is no directive is never in it. *)
Theorem work_set_exact (S T : dict) :
  NoDup (keys S) ->
  (forall k u, In (k, u) S -> Sync.is_update u = true ->
               directive_text u <> None) ->
  exists W,
    Sync.to_translate_of S T = Return W /\
    W = plain_items S T ++ directive_items S /\
    NoDup (keys W) /\
    (forall k v,
       dict_get W k = Some v <->
       (dict_get S k = Some v /\ is_dict v = false /\ dict_mem k T = false)
       \/ (exists d, dict_get S k = Some (JObj d)
                     /\ Sync.is_update (JObj d) = true
                     /\ dict_get d (lit "text") = Some v)) /\
    (forall k u, dict_get S k = Some u -> is_dict u = true ->
                 Sync.is_update u = false -> dict_get W k = None).
Proof.
  intros ND HT. eexists. split; [apply to_translate_of_items; assumption|].
  split; [reflexivity|].
  assert (NW : NoDup (keys (plain_items S T ++ directive_items S))).
  { pose proof (to_translate_of_items S T ND HT) as E.
    unfold Sync.to_translate_of in E.
    eapply add_updates_nodup; [|exact E].
    apply add_new_keys_nodup. constructor. }
  split; [exact NW|].
  assert (Hget : forall k v,
    dict_get (plain_items S T ++ directive_items S) k = Some v <->
       (dict_get S k = Some v /\ is_dict v = false /\ dict_mem k T = false)
       \/ (exists d, dict_get S k = Some (JObj d)
                     /\ Sync.is_update (JObj d) = true
                     /\ dict_get d (lit "text") = Some v)).
  { intros k v. unfold dict_get at 1. split.
    - intros G. apply assoc_get_some_in, in_app_iff in G.
      destruct G as [G|G].
      + left. apply filter_In in G. destruct G as [I P]. simpl in P.
        apply andb_true_iff in P. destruct P as [P1 P2].
        apply negb_true_iff in P1, P2.
        split; [apply (in_assoc_get _ _ _ ND I) | auto].
      + right. apply in_directive_items in G.
        destruct G as [d [I [U G]]]. exists d.
        split; [apply (in_assoc_get _ _ _ ND I) | auto].
    - intros H. apply (in_assoc_get _ _ _ NW), in_app_iff.
      destruct H as [[G [D M]]|[d [G [U X]]]].
      + left. apply filter_In. split; [apply assoc_get_some_in, G|].
        simpl. rewrite D, M. reflexivity.
      + right. apply in_directive_items. exists d.
        split; [apply assoc_get_some_in, G | auto]. }
  split; [exact Hget|].
  intros k u G D U.
  destruct (dict_get (plain_items S T ++ directive_items S) k) as [v|] eqn:E;
    [|reflexivity].
  exfalso. apply Hget in E. destruct E as [[G' [D' _]]|[d [G' [U' _]]]];
    rewrite G in G'; inversion G'; subst; congruence.
Qed.

(** C1, amended, at the end-to-end scenario with a Locale File that already
    holds both keys: the plain entry is left out, the directive is in. *)
Lemma work_set_exact_witness :
  NoDup (keys Example.table) /\
  (forall k u, In (k, u) Example.table -> Sync.is_update u = true ->
               directive_text u <> None) /\
  Sync.to_translate_of Example.table
    [(lit "a", JStr (lit "Bonjour")); (lit "b", JStr (lit "Adieu"))]
  = Return [(lit "b", JStr (lit "Goodbye"))].
Proof.
  assert (ND : NoDup (keys Example.table))
    by (apply distinct_sound; reflexivity).
  assert (HT : forall k u, In (k, u) Example.table ->
                 Sync.is_update u = true -> directive_text u <> None).
  { intros k u [E|[E|[]]] U; inversion E; subst; discriminate. }
  split; [exact ND|]. split; [exact HT|].
  destruct (work_set_exact Example.table
              [(lit "a", JStr (lit "Bonjour")); (lit "b", JStr (lit "Adieu"))]
              ND HT) as [W [E [-> _]]].
  exact E.
Defined.

(** C3: the code fails where the claim promises the raw value.  A directive
    without [text] makes the planner raise [KeyError('text')] at line 151,
    whatever the Locale File holds, and [translate_sync] ends there: nothing
    is written.  The clean-up of line 173 has the fallback the claim
    describes. *)
Theorem textless_directive_raises :
  (forall T, Sync.to_translate_of Example.textless T
             = Raise (KeyError (lit "text"))) /\
  (forall complete json_loads,
     let run := Sync.translate_sync complete json_loads Example.en_path
                  Example.folder [Example.fr] 36
                  (start [(Example.en_path, FJson Example.textless)]) in
     fst run = Raise (KeyError (lit "text")) /\
     effects (trace (snd run)) = []) /\
  Sync.collapsed (JObj [(lit "update", JBool true)])
    = Return (JObj [(lit "update", JBool true)]).
Proof.
  split; [|split].
  - intros T. reflexivity.
  - intros complete json_loads. split; reflexivity.
  - reflexivity.
Qed.

Lemma to_translate_nodup (S T W : dict) :
  Sync.to_translate_of S T = Return W -> NoDup (keys W).
Proof.
  unfold Sync.to_translate_of. intros E.
  eapply add_updates_nodup; [|exact E].
  apply add_new_keys_nodup. constructor.
Qed.

(** C4, as stated, fails on the sync path: with three chunks of which the
    second fails, the run completes and keeps the two translated keys, but
    records no diagnostic artifact at all; the error is only printed. *)
Lemma sync_failure_leaves_no_artifact :
  let run := Sync.translate_sync Example.flaky Example.decoder
               Example.en_path Example.folder [Example.fr] 1
               (start [(Example.en_path, FJson Example.three)]) in
  fst run = Return tt /\
  printed_errors (trace (snd run)) = [Example.timed_out] /\
  artifacts (trace (snd run)) = [] /\
  json_file (snd run) Example.fr_path
    = Some [(lit "a", JStr (lit "Bonjour")); (lit "c", JStr (lit "Merci"))].
Proof. vm_compute. repeat split. Qed.

(** C4, amended. One chunk of a locale fails, every other chunk is answered
    with a response keyed like the chunk.  Then the locale completes after
    a request for every chunk; every key of the other chunks is in the
    final Locale File; no key of the failed chunk is in anything this run
    translated (translate.py: in no JSON it writes; translation_sync.py:
    the Locale File keeps what it had for such a key).  translate.py
    records exactly one diagnostic artifact, the error log of the failed
    chunk; translation_sync.py records none and prints the error once. *)
Theorem chunk_failure_isolated :
  (forall complete json_loads folder lang data n w before failed after rs1 e rs2,
     NoDup (keys data) ->
     chunk_dict data n = Return (before ++ failed :: after) ->
     bulk_outcomes complete json_loads lang (calls w)
                   (before ++ failed :: after)
       = map Return rs1 ++ Raise e :: map Return rs2 ->
     Forall2 same_keys rs1 before -> Forall2 same_keys rs2 after ->
     exists tr,
       Translate.translate_lang complete json_loads data folder n lang w =
       (Return tt, advance w tr (length (before ++ failed :: after))) /\
       artifacts tr =
         [EvWrite (Translate.error_log_of folder lang (length before))
                  (FText (str_of_exn e))] /\
       (forall chunk k, In chunk (before ++ after) -> In k (keys chunk) ->
          exists d,
            json_file (advance w tr (length (before ++ failed :: after)))
                      (Translate.out_file_of folder lang) = Some d
            /\ In k (keys d)) /\
       (forall k p d, In k (keys failed) -> In (EvWrite p (FJson d)) tr ->
                      ~ In k (keys d)))
  /\
  (forall complete json_loads folder lang en_data n w T W
          before failed after rs1 e rs2,
     locale_data w (Sync.out_path_of folder lang) = Some T ->
     Sync.to_translate_of en_data T = Return W ->
     chunk_dict W n = Return (before ++ failed :: after) ->
     sync_outcomes complete json_loads lang (calls w)
                   (before ++ failed :: after)
       = map Return rs1 ++ Raise e :: map Return rs2 ->
     Forall2 same_keys rs1 before -> Forall2 same_keys rs2 after ->
     exists tr d,
       Sync.sync_lang complete json_loads en_data folder n lang w =
       (Return tt, advance w tr (length (before ++ failed :: after))) /\
       artifacts tr = [] /\
       printed_errors tr = [e] /\
       json_file (advance w tr (length (before ++ failed :: after)))
                 (Sync.out_path_of folder lang) = Some d /\
       (forall chunk k, In chunk (before ++ after) -> In k (keys chunk) ->
          In k (keys d)) /\
       (forall k, In k (keys failed) -> dict_get d k = dict_get T k)).
Proof.
  split.
  - intros. apply bulk_failure_isolated with (rs1 := rs1) (rs2 := rs2);
      assumption.
  - intros complete json_loads folder lang en_data n w T W
           before failed after rs1 e rs2 L P C O F1 F2.
    apply sync_failure_isolated with (W := W) (rs1 := rs1) (rs2 := rs2);
      try assumption.
    apply (to_translate_nodup en_data T W P).
Qed.

(** C4, amended, on translate.py with three chunks and a client that fails
    on the second: the locale completes and the one artifact is the error
    log of chunk 2. *)
Lemma chunk_failure_isolated_witness :
  exists tr,
    Translate.translate_lang Example.flaky Example.decoder Example.three
      Example.folder 1 Example.fr (start []) =
    (Return tt, advance (start []) tr 3) /\
    artifacts tr =
      [EvWrite (lit "messages/fr_error_chunk_2.log") (FText (lit "timeout"))].
Proof.
  destruct (proj1 chunk_failure_isolated
              Example.flaky Example.decoder Example.folder Example.fr
              Example.three 1 (start [])
              [[(lit "a", JStr (lit "Hello"))]]
              [(lit "b", JStr (lit "Goodbye"))]
              [[(lit "c", JStr (lit "Thanks"))]]
              [[(lit "a", JStr (lit "Bonjour"))]]
              Example.timed_out
              [[(lit "c", JStr (lit "Merci"))]])
    as [tr [R [A _]]].
  - apply distinct_sound. reflexivity.
  - reflexivity.
  - reflexivity.
  - constructor; [|constructor]. intros k. simpl. tauto.
  - constructor; [|constructor]. intros k. simpl. tauto.
  - exists tr. split; [exact R | exact A].
Defined.

(** C5, as stated, fails on both paths.  translation_sync.py: every chunk
    fails, yet the Locale File is written (with its old content) and the
    locale is reported as synced.  translate.py: translated data was
    produced, and the Locale File is replaced by it, not merged: the key [z]
    of the existing file is gone. *)
Lemma write_back_differs_by_path :
  (let run := Sync.translate_sync Example.down Example.decoder
                Example.en_path Example.folder [Example.fr] 1
                (start [(Example.en_path, FJson Example.three);
                        (Example.fr_path, FJson Example.old_fr)]) in
   fst run = Return tt /\
   length (printed_errors (trace (snd run))) = 3%nat /\
   writes_to Example.fr_path (trace (snd run)) = [FJson Example.old_fr] /\
   In (EvPrint (MsgSynced Example.fr)) (trace (snd run)))
  /\
  (let run := Translate.translate_file Example.flaky Example.decoder
                Example.en_path Example.folder [Example.fr] 1
                (start [(Example.en_path, FJson Example.three);
                        (Example.fr_path, FJson Example.old_fr)]) in
   fst run = Return tt /\
   json_file (snd run) Example.fr_path
     = Some [(lit "a", JStr (lit "Bonjour")); (lit "c", JStr (lit "Merci"))]).
Proof.
  split.
  - vm_compute. repeat split. right. right. right. right. right. right.
    right. left. reflexivity.
  - vm_compute. repeat split.
Qed.

(** C5, amended.  translate.py, for a locale whose table was chunked: when
    some translated data was produced, the Locale File is written once and
    holds exactly that data, and the intermediate file is removed; when
    none was produced, the Locale File is not touched and the failure is
    printed.  translation_sync.py, for a locale with a non-empty work-set:
    the translated data, empty or not, is merged into the existing Locale
    File (a translated key takes the translated value, every other key
    keeps its own) and the file is written, as the only effect on the file
    system: there is no intermediate file, and the locale is reported as
    synced. *)
Theorem locale_write_back :
  (forall complete json_loads folder lang data n chunks w,
     chunk_dict data n = Return chunks ->
     let outs := bulk_outcomes complete json_loads lang (calls w) chunks in
     let out_file := Translate.out_file_of folder lang in
     let temp_file := Translate.temp_file_of folder lang in
     exists tr,
       Translate.translate_lang complete json_loads data folder n lang w =
       (Return tt, advance w tr (length chunks)) /\
       (dict_nonempty (merged outs) = true ->
          writes_to out_file tr = [FJson (merged outs)] /\
          json_file (advance w tr (length chunks)) out_file
            = Some (merged outs) /\
          In (EvRemove temp_file) tr /\
          assoc_get (files (advance w tr (length chunks))) temp_file = None) /\
       (dict_nonempty (merged outs) = false ->
          touches out_file tr = false /\
          assoc_get (files (advance w tr (length chunks))) out_file =
          assoc_get (files w) out_file /\
          In (EvPrint (MsgNoTranslationData lang)) tr))
  /\
  (forall complete json_loads folder lang en_data n w T W chunks,
     locale_data w (Sync.out_path_of folder lang) = Some T ->
     Sync.to_translate_of en_data T = Return W -> W <> [] ->
     chunk_dict W n = Return chunks ->
     let outs := sync_outcomes complete json_loads lang (calls w) chunks in
     let out_path := Sync.out_path_of folder lang in
     let final := dict_update T (merged outs) in
     exists tr,
       Sync.sync_lang complete json_loads en_data folder n lang w =
       (Return tt, advance w tr (length chunks)) /\
       effects tr = [EvWrite out_path (FJson final)] /\
       printed_errors tr = failures outs /\
       In (EvPrint (MsgSynced lang)) tr /\
       json_file (advance w tr (length chunks)) out_path = Some final /\
       (forall k, dict_get final k =
                  match dict_get (merged outs) k with
                  | Some v => Some v
                  | None => dict_get T k
                  end)).
Proof.
  split.
  - intros complete json_loads folder lang data n chunks w C.
    apply (bulk_locale_outcome complete json_loads folder lang data n chunks
             w C).
  - intros complete json_loads folder lang en_data n w T W chunks L P NE C.
    apply (sync_locale_outcome complete json_loads folder lang en_data n w
             T W chunks L P NE C).
Qed.

(** C5, amended, on translation_sync.py at the end-to-end scenario with an
    existing Locale File: the two translated keys are added, [z] stays. *)
Lemma locale_write_back_witness :
  exists tr,
    Sync.sync_lang Example.inventive Example.decoder Example.table
      Example.folder 1 Example.fr
      (start [(Example.fr_path, FJson Example.old_fr)]) =
    (Return tt,
     advance (start [(Example.fr_path, FJson Example.old_fr)]) tr 2) /\
    effects tr =
      [EvWrite Example.fr_path
         (FJson [(lit "z", JStr (lit "Zut"));
                 (lit "zz", JStr (lit "Surprise"));
                 (lit "b", JStr (lit "Au revoir"))])].
Proof.
  destruct (proj2 locale_write_back
              Example.inventive Example.decoder Example.folder Example.fr
              Example.table 1
              (start [(Example.fr_path, FJson Example.old_fr)])
              Example.old_fr
              [(lit "a", JStr (lit "Hello")); (lit "b", JStr (lit "Goodbye"))]
              [[(lit "a", JStr (lit "Hello"))];
               [(lit "b", JStr (lit "Goodbye"))]])
    as [tr [R [E _]]].
  - reflexivity.
  - reflexivity.
  - discriminate.
  - reflexivity.
  - exists tr. split; [exact R | exact E].
Defined.

(** C6. A sync run that reaches its end (the String Table [S] is a mapping
    whose directives carry a [text], the chunk size is not zero, the Locale
    Files are missing or hold JSON, and the String Table is none of them)
    returns normally and writes the String Table exactly once, as its last
    effect, after every locale: the file then holds [S] with every update
    directive replaced by its [text], all other entries and the key order
    unchanged. *)
Theorem update_directives_collapsed
    (complete : endpoint) (json_loads : pystr -> decoded)
    (input_file folder : pystr) (langs : list pystr) (n : Z) (w : world)
    (S : dict) :
  json_file w input_file = Some S ->
  NoDup (keys S) ->
  (forall k u, In (k, u) S -> Sync.is_update u = true ->
               directive_text u <> None) ->
  n <> 0 ->
  (forall lang, In lang langs ->
                locale_data w (Sync.out_path_of folder lang) <> None) ->
  ~ In input_file (map (Sync.out_path_of folder) langs) ->
  exists locales c,
    let tr := locales ++ [EvWrite input_file (FJson (collapse S));
                          EvPrint MsgCleanedUp] in
    Sync.translate_sync complete json_loads input_file folder langs n w =
    (Return tt, advance w tr c) /\
    touches input_file locales = false /\
    writes_to input_file tr = [FJson (collapse S)] /\
    json_file (advance w tr c) input_file = Some (collapse S) /\
    keys (collapse S) = keys S /\
    (forall k d t,
       dict_get S k = Some (JObj d) -> Sync.is_update (JObj d) = true ->
       dict_get d (lit "text") = Some t ->
       dict_get (collapse S) k = Some t) /\
    (forall k v,
       dict_get S k = Some v -> Sync.is_update v = false ->
       dict_get (collapse S) k = Some v).
Proof.
  intros J ND HT Hn L NI.
  destruct (translate_sync_run complete json_loads folder n S ND HT Hn
              input_file langs w J L NI) as [locales [c [R T]]].
  exists locales, c. cbv zeta. split; [exact R|]. split; [exact T|].
  split; [|split; [|split; [|split]]].
  - rewrite writes_to_app, (writes_to_untouched _ _ T). simpl.
    rewrite str_eqb_refl. reflexivity.
  - unfold json_file, advance. simpl files. rewrite replay_app. simpl.
    rewrite assoc_get_set, str_eqb_refl. reflexivity.
  - apply collapse_keys.
  - intros k d t G U D. rewrite collapse_get, G. simpl.
    unfold collapse_value. rewrite U. simpl. rewrite D. reflexivity.
  - intros k v G U. rewrite collapse_get, G. simpl.
    unfold collapse_value. rewrite U. reflexivity.
Qed.

(** C6, at the end-to-end scenario: ["b"] collapses to ["Goodbye"]. *)
Lemma update_directives_collapsed_witness :
  exists w',
    Sync.translate_sync Example.inventive Example.decoder Example.en_path
      Example.folder [Example.fr] 1
      (start [(Example.en_path, FJson Example.table)]) = (Return tt, w') /\
    json_file w' Example.en_path
      = Some [(lit "a", JStr (lit "Hello")); (lit "b", JStr (lit "Goodbye"))].
Proof.
  destruct (update_directives_collapsed
              Example.inventive Example.decoder Example.en_path
              Example.folder [Example.fr] 1
              (start [(Example.en_path, FJson Example.table)])
              Example.table)
    as [locales [c [R [_ [_ [J _]]]]]].
  - reflexivity.
  - apply distinct_sound. reflexivity.
  - intros k u [E|[E|[]]] U; inversion E; subst; discriminate.
  - discriminate.
  - intros lang [<-|[]]. discriminate.
  - intros [E|[]]. discriminate E.
  - eexists. split; [exact R | exact J].
Defined.

(** C7: the claim holds on translate.py and translation_sync.py and fails
    on translation_checker.py.  For the text [t] of a JSON object (a
    brace-delimited body, whitespace around it) that the decoder parses to
    [d], in a fenced code block, tagged as json or untagged, with any
    whitespace between the markers and the text: the two translators
    return [d] for the fenced text as for the text alone.  The QA script
    cleans both to the same content, the stripped object text, and then
    raises [re.error] at line 113 for both, whatever the endpoint answered:
    no parsed structure is produced (the defect of C8). *)
Theorem fenced_object_parsed
    (tag ws1 t ws2 : pystr) (json_loads : pystr -> decoded) (d : dict) :
  object_text t ->
  forallb is_space ws1 = true -> forallb is_space ws2 = true ->
  tag = fence_json \/ tag = fence ->
  json_loads (strip t) = Decoded d ->
  (forall w,
     Translate.decode_content json_loads
       (Translate.clean_content (fenced tag ws1 t ws2)) w =
     (Return d, advance w [EvPrint MsgChunkTranslated] 0) /\
     Translate.decode_content json_loads (Translate.clean_content t) w =
     (Return d, advance w [EvPrint MsgChunkTranslated] 0)) /\
  (forall w,
     Sync.decode_content json_loads
       (Sync.clean_content (fenced tag ws1 t ws2)) w = (Return d, w) /\
     Sync.decode_content json_loads (Sync.clean_content t) w = (Return d, w))
  /\
  (Checker.clean_content (fenced tag ws1 t ws2) = strip t /\
   Checker.clean_content t = strip t) /\
  (forall eng complete en_chunk translated_chunk lang w raw,
     raw = fenced tag ws1 t ws2 \/ raw = t ->
     complete (calls w) en_chunk translated_chunk lang = Return raw ->
     Checker.check_translation_chunk eng json_loads complete
       en_chunk translated_chunk lang w =
     (Raise (ReError (lit "look-behind requires fixed-width pattern")),
      advance w [] 1)).
Proof.
  intros [pre [body [post [P1 [P2 ->]]]]] W1 W2 T D.
  pose proof (translate_clean_fenced ws1 pre body post ws2 W1 P1 P2 W2 tag T)
    as TF.
  pose proof (translate_clean_plain pre body post P1 P2) as TP.
  pose proof (checker_clean_fenced ws1 pre body post ws2 W1 P1 P2 W2 tag T)
    as CF.
  pose proof (checker_clean_plain pre body post P1 P2) as CP.
  pose proof (strip_t pre body post P1 P2) as ST.
  rewrite ST in D.
  change Sync.clean_content with Translate.clean_content.
  rewrite TF, TP, CF, CP, ST.
  split; [|split; [|split]].
  - intros w. unfold Translate.decode_content. rewrite D.
    unfold bindM. rewrite print_run. split; reflexivity.
  - intros w. unfold Sync.decode_content. rewrite D. split; reflexivity.
  - split; reflexivity.
  - intros eng complete en tc lang w raw _ A.
    rewrite check_translation_chunk_run. unfold checker_outcome.
    rewrite A. reflexivity.
Qed.

(** C7, at a small object in a tagged fence with line breaks: translate.py
    returns the parsed object, the QA script raises. *)
Lemma fenced_object_parsed_witness :
  Translate.decode_content Example.decoder
    (Translate.clean_content
       (fenced fence_json newline Example.reply_a newline)) (start [])
  = (Return [(lit "a", JStr (lit "Bonjour"))],
     advance (start []) [EvPrint MsgChunkTranslated] 0)
  /\
  Checker.check_translation_chunk
    (mkEngine (fun _ _ s => s) (fun _ _ => None)) Example.decoder
    (fun _ _ _ _ =>
       Return (fenced fence_json newline Example.reply_a newline))
    Example.en_x Example.es_x Example.es (start [])
  = (Raise (ReError (lit "look-behind requires fixed-width pattern")),
     advance (start []) [] 1).
Proof.
  assert (O : object_text Example.reply_a).
  { exists [], (lit "a: Bonjour"), []. repeat split. }
  destruct (fenced_object_parsed fence_json newline Example.reply_a newline
              Example.decoder [(lit "a", JStr (lit "Bonjour"))]
              O eq_refl eq_refl (or_introl eq_refl) eq_refl)
    as [A [_ [_ B]]].
  split.
  - apply (A (start [])).
  - apply (B (mkEngine (fun _ _ s => s) (fun _ _ => None))
             (fun _ _ _ _ =>
                Return (fenced fence_json newline Example.reply_a newline))
             Example.en_x Example.es_x Example.es (start [])
             (fenced fence_json newline Example.reply_a newline)
             (or_introl eq_refl) eq_refl).
Defined.

(** C8: the code fails where the claim promises a marker.  The pattern of
    line 88 does not compile, so [clean_quotes_and_escape] raises [re.error]
    on every text; the call of line 113 is outside the [try], so decoding a
    response raises too, before [json.loads] is tried and before anything is
    logged, and [check_translation_chunk] never returns: neither a Problem
    Record nor the ["error"] marker. *)
Theorem qa_normalizer_raises :
  compiles Checker.pattern = false /\
  (forall eng content,
     Checker.clean_quotes_and_escape eng content =
     Raise (ReError (lit "look-behind requires fixed-width pattern"))) /\
  (forall eng json_loads lang content w,
     Checker.decode_content eng json_loads lang content w =
     (Raise (ReError (lit "look-behind requires fixed-width pattern")), w)) /\
  (forall eng json_loads complete en_chunk translated_chunk lang w d w',
     Checker.check_translation_chunk eng json_loads complete
       en_chunk translated_chunk lang w <> (Return d, w')).
Proof.
  split; [reflexivity|]. split; [reflexivity|]. split; [reflexivity|].
  intros eng json_loads complete en tc lang w d w'.
  rewrite check_translation_chunk_run. unfold checker_outcome.
  destruct (complete (calls w) en tc lang); discriminate.
Qed.

(** The other half of C8 holds: an entry that is no record, like the
    ["error"] marker, is skipped by the merge. *)
Lemma error_entry_skipped (content : pystr) (T : dict) :
  Checker.apply_problems [(lit "error", JStr content)] T = T.
Proof. reflexivity. Qed.

(** Where an entry of the accumulated Problem Record comes from. *)
Lemma in_assoc_set {V : Type} (d : list (pystr * V)) k0 v0 k v :
  In (k, v) (assoc_set d k0 v0) -> In (k, v) d \/ (k, v) = (k0, v0).
Proof.
  induction d as [|[k1 v1] d IH]; simpl.
  - intros [E|[]]. right. symmetry. exact E.
  - destruct (str_eqb k0 k1) eqn:E; simpl.
    + apply str_eqb_eq in E. subst k1.
      intros [X|I]; [right; symmetry; exact X | left; right; exact I].
    + intros [X|I]; [left; left; exact X|].
      destruct (IH I) as [J|J]; [left; right; exact J | right; exact J].
Qed.

Lemma in_dict_update (d' : dict) : forall d k v,
  In (k, v) (dict_update d d') -> In (k, v) d \/ In (k, v) d'.
Proof.
  unfold dict_update.
  induction d' as [|[k0 v0] d' IH]; intros d k v; simpl; [auto|].
  intros I. destruct (IH _ _ _ I) as [J|J]; [|auto].
  unfold dict_set in J. apply in_assoc_set in J.
  destruct J as [J|J]; [auto | right; left; symmetry; exact J].
Qed.

Lemma in_review_fold (outs : list (result dict)) : forall acc problems k v,
  review_fold outs acc = Return problems -> In (k, v) problems ->
  In (k, v) acc \/ exists issues, In (Return issues) outs /\ In (k, v) issues.
Proof.
  induction outs as [|[r|e] outs IH]; intros acc problems k v; simpl.
  - intros E I. inversion E; subst. auto.
  - intros E I. destruct (IH _ _ _ _ E I) as [J|[issues [J1 J2]]].
    + apply in_dict_update in J. destruct J as [J|J]; [auto|].
      right. exists r. auto.
    + right. exists issues. auto.
  - discriminate.
Qed.

Lemma in_review_outcomes outcome T lang issues chunks : forall m,
  In (Return issues) (review_outcomes outcome T lang m chunks) ->
  exists i chunk,
    outcome i chunk (Checker.translated_chunk_of T chunk) lang = Return issues.
Proof.
  induction chunks as [|chunk rest IH]; intros m; simpl; [tauto|].
  intros [E|I]; [eauto | exact (IH _ I)].
Qed.

(** The repository's reviewer answers with Problem Records, having no
    answer at all. *)
Lemma checker_problem_records (complete : Checker.review_endpoint) :
  problem_records (checker_outcome complete).
Proof.
  intros i en tc lang issues k v E. unfold checker_outcome in E.
  destruct (complete i en tc lang); discriminate.
Qed.

(** Outside the Problem Record contract, and so with a reviewer other than
    the repository's: an issue reported without a correction changes
    nothing in the Locale File, and the file is written all the same (the
    guard of line 160 looks at the Problem Record, not at what line 163
    did). *)
Lemma issue_without_correction_is_written :
  let run := Checker.check_translations_with Example.decoder
               (simulated_reviewer (Example.reviewer_of Example.issue_only_x))
               Example.en_path Example.folder [Example.es] 36
               (start [(Example.en_path, FJson Example.en_x);
                       (Example.es_path, FJson Example.es_x)]) in
  fst run = Return tt /\
  Checker.apply_problems Example.issue_only_x Example.es_x = Example.es_x /\
  writes_to Example.es_path (trace (snd run)) = [FJson Example.es_x].
Proof. vm_compute. repeat split. Qed.



Lemma dict_get_nonempty (d : dict) (k : pystr) (v : json) :
  dict_get d k = Some v -> dict_nonempty d = true.
Proof. destruct d; [discriminate | reflexivity]. Qed.

(** C10, as stated, fails where two responses of a locale hold the same
    key: the client answers the first two of three chunks of translate.py
    with the key [zz], which is in no chunk and not in the String Table;
    both responses are parsed, and the Locale File holds [zz] with the
    value of the second: the pair of the first response is not in it. *)
Lemma later_response_replaces_value :
  let run := Translate.translate_file Example.repeating Example.decoder_again
               Example.en_path Example.folder [Example.fr] 1
               (start [(Example.en_path, FJson Example.three)]) in
  dict_get Example.three (lit "zz") = None /\
  bulk_outcome Example.repeating Example.decoder_again Example.fr 0
    [(lit "a", JStr (lit "Hello"))]
  = Return [(lit "zz", JStr (lit "Surprise"))] /\
  bulk_outcome Example.repeating Example.decoder_again Example.fr 1
    [(lit "b", JStr (lit "Goodbye"))]
  = Return [(lit "zz", JStr (lit "Encore"))] /\
  fst run = Return tt /\
  json_file (snd run) Example.fr_path
  = Some [(lit "zz", JStr (lit "Encore")); (lit "c", JStr (lit "Merci"))].
Proof. vm_compute. repeat split. Qed.

(** C10, amended. A decoded response is merged as it is: the statements
    below ask nothing about the key [k] but that the response holds it, in
    particular not that [k] is a key of the chunk, of the String Table or
    of the Locale File.  On the bulk and on the sync path the key is in the
    final Locale File with the value of the last decoded response of the
    locale that holds it: the value [v] of a response after which no
    response holds [k]. *)
Theorem merge_unchecked :
  (forall complete json_loads folder lang data n chunks w outs1 r outs2 k v,
     chunk_dict data n = Return chunks ->
     bulk_outcomes complete json_loads lang (calls w) chunks
       = outs1 ++ Return r :: outs2 ->
     NoDup (keys r) -> dict_get r k = Some v ->
     (forall r', In (Return r') outs2 -> ~ In k (keys r')) ->
     exists tr d,
       Translate.translate_lang complete json_loads data folder n lang w =
       (Return tt, advance w tr (length chunks)) /\
       json_file (advance w tr (length chunks))
                 (Translate.out_file_of folder lang) = Some d /\
       dict_get d k = Some v)
  /\
  (forall complete json_loads folder lang en_data n w T W chunks
          outs1 r outs2 k v,
     locale_data w (Sync.out_path_of folder lang) = Some T ->
     Sync.to_translate_of en_data T = Return W -> W <> [] ->
     chunk_dict W n = Return chunks ->
     sync_outcomes complete json_loads lang (calls w) chunks
       = outs1 ++ Return r :: outs2 ->
     NoDup (keys r) -> dict_get r k = Some v ->
     (forall r', In (Return r') outs2 -> ~ In k (keys r')) ->
     exists tr d,
       Sync.sync_lang complete json_loads en_data folder n lang w =
       (Return tt, advance w tr (length chunks)) /\
       json_file (advance w tr (length chunks))
                 (Sync.out_path_of folder lang) = Some d /\
       dict_get d k = Some v).
Proof.
  split.
  - intros complete json_loads folder lang data n chunks w outs1 r outs2 k v
           C O ND G H.
    destruct (bulk_locale_outcome complete json_loads folder lang data n
                chunks w C) as [tr [R [S1 _]]].
    rewrite O in S1.
    pose proof (merge_get outs1 outs2 r [] k v ND G H) as GM.
    fold (merged (outs1 ++ Return r :: outs2)) in GM.
    destruct (S1 (dict_get_nonempty _ _ _ GM)) as [_ [J _]].
    exists tr, (merged (outs1 ++ Return r :: outs2)). auto.
  - intros complete json_loads folder lang en_data n w T W chunks
           outs1 r outs2 k v L P NE C O ND G H.
    destruct (sync_locale_outcome complete json_loads folder lang en_data n
                w T W chunks L P NE C) as [tr [R [_ [_ [_ [J F]]]]]].
    rewrite O in J, F.
    pose proof (merge_get outs1 outs2 r [] k v ND G H) as GM.
    fold (merged (outs1 ++ Return r :: outs2)) in GM.
    exists tr, (dict_update T (merged (outs1 ++ Return r :: outs2))).
    split; [exact R|]. split; [exact J|]. rewrite F, GM. reflexivity.
Qed.

(** C10, amended, at a client that answers the first chunk with the key
    [zz], which is in no chunk: [zz] is in the Locale File, on translate.py
    with three chunks and on translation_sync.py at the end-to-end
    scenario. *)
Lemma merge_unchecked_witness :
  dict_get Example.three (lit "zz") = None /\
  (exists tr d,
     Translate.translate_lang Example.inventive Example.decoder Example.three
       Example.folder 1 Example.fr (start []) =
     (Return tt, advance (start []) tr 3) /\
     json_file (advance (start []) tr 3) Example.fr_path = Some d /\
     dict_get d (lit "zz") = Some (JStr (lit "Surprise"))) /\
  (exists tr d,
     Sync.sync_lang Example.inventive Example.decoder Example.table
       Example.folder 1 Example.fr (start []) =
     (Return tt, advance (start []) tr 2) /\
     json_file (advance (start []) tr 2) Example.fr_path = Some d /\
     dict_get d (lit "zz") = Some (JStr (lit "Surprise"))).
Proof.
  split; [reflexivity|]. split.
  - apply (proj1 merge_unchecked
             Example.inventive Example.decoder Example.folder Example.fr
             Example.three 1
             [[(lit "a", JStr (lit "Hello"))];
              [(lit "b", JStr (lit "Goodbye"))];
              [(lit "c", JStr (lit "Thanks"))]]
             (start []) []
             [(lit "zz", JStr (lit "Surprise"))]
             [Return [(lit "b", JStr (lit "Au revoir"))];
              Return [(lit "c", JStr (lit "Merci"))]]
             (lit "zz") (JStr (lit "Surprise"))).
    + reflexivity.
    + reflexivity.
    + apply distinct_sound. reflexivity.
    + reflexivity.
    + intros r' [E|[E|[]]]; inversion E; subst; simpl;
        intros [X|[]]; discriminate X.
  - apply (proj2 merge_unchecked
             Example.inventive Example.decoder Example.folder Example.fr
             Example.table 1 (start []) []
             [(lit "a", JStr (lit "Hello")); (lit "b", JStr (lit "Goodbye"))]
             [[(lit "a", JStr (lit "Hello"))];
              [(lit "b", JStr (lit "Goodbye"))]]
             []
             [(lit "zz", JStr (lit "Surprise"))]
             [Return [(lit "b", JStr (lit "Au revoir"))]]
             (lit "zz") (JStr (lit "Surprise"))).
    + reflexivity.
    + reflexivity.
    + discriminate.
    + reflexivity.
    + reflexivity.
    + apply distinct_sound. reflexivity.
    + reflexivity.
    + intros r' [E|[]]; inversion E; subst; simpl;
        intros [X|[]]; discriminate X.
Defined.

(* ================================================================== *)
(** * Further properties *)
(* ================================================================== *)

(** ** The Chunker at its edges *)

(** X1. [chunk_dict] with a chunk size that is not positive: zero is a
    [ValueError] (raised by [range] when the generator is first advanced),
    a negative size yields no chunk at all, whatever the mapping holds. *)
Theorem chunk_dict_nonpositive (data : dict) (n : Z) :
  n <= 0 ->
  chunk_dict data n =
  if n =? 0 then Raise (ValueError (lit "range() arg 3 must not be zero"))
  else Return [].
Proof.
  intros Hn. unfold chunk_dict, py_range.
  destruct (Z.eqb_spec n 0) as [E|E]; [reflexivity|].
  simpl. unfold range_len.
  destruct (Z.ltb_spec 0 n); [lia|].
  destruct (Z.ltb_spec (Z.of_nat (length data)) 0); [lia|]. reflexivity.
Qed.

(** X1, at three entries and chunk size -1: no chunk. *)
Lemma chunk_dict_nonpositive_witness :
  -1 <= 0 /\ chunk_dict Example.three (-1) = Return [].
Proof.
  assert (H : -1 <= 0) by lia. split; [exact H|].
  rewrite (chunk_dict_nonpositive Example.three (-1) H). reflexivity.
Defined.

Lemma in_firstn_le {A : Type} (a b : nat) (l : list A) (x : A) :
  (a <= b)%nat -> In x (firstn a l) -> In x (firstn b l).
Proof.
  intros L I. replace b with (a + (b - a))%nat by lia.
  rewrite firstn_plus. apply in_or_app. left; exact I.
Qed.

Lemma nth_map_seq {B : Type} (f : nat -> B) (d : B) (c : nat) :
  forall s i, (i < c)%nat -> nth i (map f (seq s c)) d = f (s + i)%nat.
Proof.
  induction c as [|c IH]; intros s i L; [lia|].
  destruct i as [|i]; simpl.
  - rewrite Nat.add_0_r. reflexivity.
  - rewrite IH by lia. f_equal. lia.
Qed.

Lemma window_nth {A : Type} (l : list A) (n c i : nat) :
  (i < c)%nat ->
  nth i (map (fun k => firstn n (skipn (k * n) l)) (seq 0 c)) [] =
  firstn n (skipn (i * n) l).
Proof. intros L. rewrite nth_map_seq by exact L. reflexivity. Qed.

(** X2. For a mapping and a positive chunk size [n], the [i]-th chunk is
    the [i]-th window of [n] entries of the mapping; no chunk is empty;
    every chunk but the last has exactly [n] entries; and two different
    chunks share no key. *)
Theorem chunk_dict_windows_shape (data : dict) (n : Z) :
  NoDup (keys data) -> 0 < n ->
  exists chunks,
    chunk_dict data n = Return chunks /\
    (forall i, (i < length chunks)%nat ->
       nth i chunks [] = firstn (Z.to_nat n) (skipn (i * Z.to_nat n) data) /\
       nth i chunks [] <> [] /\
       ((Datatypes.S i < length chunks)%nat ->
        length (nth i chunks []) = Z.to_nat n)) /\
    (forall i j k, (i < j < length chunks)%nat ->
       In k (keys (nth i chunks [])) -> ~ In k (keys (nth j chunks []))).
Proof.
  intros ND Hn. eexists. split; [apply chunk_dict_windows; assumption|].
  pose proof (@range_len_ceil (Z.of_nat (length data)) n ltac:(lia) Hn)
    as [_ B].
  set (c := Z.to_nat (range_len 0 (Z.of_nat (length data)) n)) in *.
  set (m := Z.to_nat n) in *.
  assert (Hm : (0 < m)%nat) by (unfold m; lia).
  assert (B1 : (m * (c - 1) < length data)%nat \/ c = 0%nat) by (unfold c, m; nia).
  rewrite length_map, length_seq. unfold dict in *. split.
  - intros i L. rewrite (window_nth data m c i L).
    assert (I : (i * m < length data)%nat) by nia.
    split; [reflexivity|]. split.
    + intros E. apply (f_equal (@length _)) in E.
      rewrite length_firstn, length_skipn in E. simpl in E. lia.
    + intros L2. rewrite length_firstn, length_skipn.
      assert ((i + 1) * m <= m * (c - 1))%nat by nia. nia.
  - intros i j k [L1 L2] I J.
    rewrite (window_nth data m c i) in I by lia.
    rewrite (window_nth data m c j) in J by lia.
    unfold keys in *. rewrite <- (firstn_skipn (j * m) data) in ND.
    rewrite map_app in ND.
    apply (NoDup_app_disjoint _ _ k ND).
    + rewrite <- firstn_map. rewrite <- firstn_map, <- skipn_map in I.
      apply (in_firstn_le (i * m + m) (j * m)); [nia|].
      rewrite firstn_plus. apply in_or_app. right; exact I.
    + rewrite <- firstn_map, <- skipn_map in J. rewrite <- skipn_map.
      rewrite <- (firstn_skipn m (skipn (j * m) (map fst data))).
      apply in_or_app. left; exact J.
Qed.

(** X2, at three entries and chunk size 2. *)
Lemma chunk_dict_windows_shape_witness :
  NoDup (keys Example.three) /\ 0 < 2 /\
  exists chunks,
    chunk_dict Example.three 2 = Return chunks /\
    nth 1 chunks [] = [(lit "c", JStr (lit "Thanks"))].
Proof.
  assert (ND : NoDup (keys Example.three))
    by (apply distinct_sound; reflexivity).
  assert (P : 0 < 2) by lia.
  split; [exact ND|]. split; [exact P|].
  destruct (chunk_dict_windows_shape Example.three 2 ND P)
    as [chunks [E [W _]]].
  exists chunks. split; [exact E|].
  assert (L : (1 < length chunks)%nat).
  { vm_compute in E. inversion E. simpl. lia. }
  destruct (W 1%nat L) as [X _]. rewrite X. reflexivity.
Defined.

(** ** A whole run of translate.py *)

Lemma translate_langs_run complete json_loads data folder n chunks :
  chunk_dict data n = Return chunks ->
  forall langs w,
  exists tr,
    for_loop (fun _ lang =>
                Translate.translate_lang complete json_loads data folder n lang)
             langs tt w =
    (Return tt, advance w tr (length langs * length chunks)).
Proof.
  intros C. induction langs as [|lang langs IH]; intros w; cbn [for_loop].
  - exists []. rewrite advance_nil. reflexivity.
  - destruct (translate_lang_run complete json_loads folder lang data n
                chunks w C) as [tr1 [R1 _]].
    unfold bindM. rewrite R1.
    destruct (IH (advance w tr1 (length chunks))) as [tr2 R2].
    rewrite R2, advance_advance. exists (tr1 ++ tr2).
    apply (f_equal (pair _)). apply advance_eq. simpl. lia.
Qed.

Lemma makedirs_run (path : pystr) (w : world) (tr : list event) (c : nat) :
  effects tr = [] ->
  makedirs path (advance w tr c) =
  (match makedirs_check (files w) path with
   | Some e => Raise e
   | None => Return tt
   end, advance w tr c).
Proof.
  intros E. unfold makedirs, advance. cbn [files].
  rewrite <- replay_effects, E. simpl replay.
  destruct (makedirs_check (files w) path); reflexivity.
Qed.



(** X4. translate.py stops at once, before any request and any write: when
    the String Table file is missing ([FileNotFoundError], after one line
    on the console); when the output folder cannot be made, the empty path
    or a path that holds a file being cases of it (the exception of
    [os.makedirs], after two lines); and, with the folder there and at
    least one language, when the chunk size is zero ([ValueError], after
    three lines).  None of them is caught by the per-chunk [try]. *)
Theorem translate_file_aborts
    (complete : endpoint) (json_loads : pystr -> decoded)
    (input_file folder : pystr) :
  (forall langs n w,
     assoc_get (files w) input_file = None ->
     Translate.translate_file complete json_loads input_file folder langs n w
     = (Raise (FileNotFoundError input_file),
        advance w [EvPrint MsgLoadingEnglish] 0))
  /\
  (forall langs n w data e,
     json_file w input_file = Some data ->
     makedirs_check (files w) folder = Some e ->
     Translate.translate_file complete json_loads input_file folder langs n w
     = (Raise e,
        advance w [EvPrint MsgLoadingEnglish; EvPrint MsgEnglishLoaded] 0))
  /\
  (forall fs, makedirs_check fs [] = Some (FileNotFoundError []))
  /\
  (forall fs c,
     folder <> [] -> rstrip_chars (lit "/") folder = folder ->
     assoc_get fs folder = Some c ->
     makedirs_check fs folder = Some (FileExistsError folder)
     \/ makedirs_check fs folder = Some (NotADirectoryError folder))
  /\
  (forall lang rest w data,
     json_file w input_file = Some data ->
     makedirs_check (files w) folder = None ->
     Translate.translate_file complete json_loads input_file folder
       (lang :: rest) 0 w
     = (Raise (ValueError (lit "range() arg 3 must not be zero")),
        advance w [EvPrint MsgLoadingEnglish; EvPrint MsgEnglishLoaded;
                   EvPrint (MsgStarting lang)] 0)).
Proof.
  split; [|split; [|split; [|split]]].
  - intros langs n w H. unfold Translate.translate_file, bindM.
    rewrite print_run. unfold read_json.
    change (files (advance w [EvPrint MsgLoadingEnglish] 0)) with (files w).
    rewrite H. reflexivity.
  - intros langs n w data e J MK. unfold Translate.translate_file, bindM.
    rewrite print_run.
    rewrite (read_json_run json_loads input_file _ data) by exact J.
    rewrite print_run, advance_advance.
    rewrite makedirs_run by reflexivity. rewrite MK. reflexivity.
  - reflexivity.
  - intros fs c NE TS G. unfold makedirs_check. rewrite TS.
    destruct folder as [|x f]; [congruence|].
    destruct (existsb (is_file fs) (ancestors_from [] (x :: f)));
      [right; reflexivity|].
    unfold is_file. rewrite G. left. reflexivity.
  - intros lang rest w data J MK. unfold Translate.translate_file, bindM.
    rewrite print_run.
    rewrite (read_json_run json_loads input_file _ data) by exact J.
    rewrite print_run, advance_advance.
    rewrite makedirs_run by reflexivity. rewrite MK.
    cbn [for_loop]. unfold bindM.
    unfold Translate.translate_lang, bindM.
    rewrite print_run, advance_advance, lift_run. reflexivity.
Qed.

(** X4, with the table of three entries: no String Table; the output
    folder is a file; chunk size zero. *)
Lemma translate_file_aborts_witness :
  fst (Translate.translate_file Example.flaky Example.decoder Example.en_path
         Example.folder [Example.fr] 1 (start []))
  = Raise (FileNotFoundError Example.en_path)
  /\
  makedirs_check [(Example.en_path, FJson Example.three);
                  (lit "out", FText (lit "not a folder"))] (lit "out")
  = Some (FileExistsError (lit "out"))
  /\
  fst (Translate.translate_file Example.flaky Example.decoder Example.en_path
         (lit "out") [Example.fr] 1
         (start [(Example.en_path, FJson Example.three);
                 (lit "out", FText (lit "not a folder"))]))
  = Raise (FileExistsError (lit "out"))
  /\
  fst (Translate.translate_file Example.flaky Example.decoder Example.en_path
         Example.folder [Example.fr] 0
         (start [(Example.en_path, FJson Example.three)]))
  = Raise (ValueError (lit "range() arg 3 must not be zero")).
Proof.
  split; [|split; [|split]].
  - rewrite (proj1 (translate_file_aborts Example.flaky Example.decoder
                      Example.en_path Example.folder)
               [Example.fr] 1 (start []) eq_refl).
    reflexivity.
  - destruct (proj1 (proj2 (proj2 (proj2
                (translate_file_aborts Example.flaky Example.decoder
                   Example.en_path (lit "out")))))
                [(Example.en_path, FJson Example.three);
                 (lit "out", FText (lit "not a folder"))]
                (FText (lit "not a folder"))
                ltac:(discriminate) eq_refl eq_refl) as [E|E].
    + exact E.
    + discriminate E.
  - rewrite (proj1 (proj2 (translate_file_aborts Example.flaky Example.decoder
                             Example.en_path (lit "out")))
               [Example.fr] 1
               (start [(Example.en_path, FJson Example.three);
                       (lit "out", FText (lit "not a folder"))])
               Example.three (FileExistsError (lit "out")) eq_refl eq_refl).
    reflexivity.
  - rewrite (proj2 (proj2 (proj2 (proj2
               (translate_file_aborts Example.flaky Example.decoder
                  Example.en_path Example.folder))))
               Example.fr [] (start [(Example.en_path, FJson Example.three)])
               Example.three eq_refl eq_refl).
    reflexivity.
Defined.

(** ** Intermediate file, error logs and a locale without failures *)

Lemma bulk_effects_progress folder lang outs1 r outs2 : forall idx acc,
  In (EvWrite (Translate.temp_file_of folder lang)
        (FJson (fold_left merge_outcome (outs1 ++ [Return r]) acc)))
     (bulk_effects folder lang idx (outs1 ++ Return r :: outs2) acc).
Proof.
  induction outs1 as [|o outs1 IH]; intros idx acc; simpl.
  - left. reflexivity.
  - right. apply IH.
Qed.

(** X5. translate.py saves its progress: for every chunk that succeeds,
    the intermediate file is written with all the data translated so far
    for the locale, that chunk included. *)
Theorem progress_is_saved
    (complete : endpoint) (json_loads : pystr -> decoded)
    (folder lang : pystr) (data : dict) (n : Z) (chunks : list dict)
    (w : world) (outs1 outs2 : list (result dict)) (r : dict) :
  chunk_dict data n = Return chunks ->
  bulk_outcomes complete json_loads lang (calls w) chunks
    = outs1 ++ Return r :: outs2 ->
  exists tr,
    Translate.translate_lang complete json_loads data folder n lang w =
    (Return tt, advance w tr (length chunks)) /\
    In (EvWrite (Translate.temp_file_of folder lang)
          (FJson (merged (outs1 ++ [Return r]))))
       tr.
Proof.
  intros C O.
  destruct (translate_lang_run complete json_loads folder lang data n chunks
              w C) as [tr [R [E _]]].
  exists tr. split; [exact R|]. rewrite O in E.
  assert (I : In (EvWrite (Translate.temp_file_of folder lang)
                    (FJson (merged (outs1 ++ [Return r])))) (effects tr)).
  { rewrite E. apply in_or_app. left. apply bulk_effects_progress. }
  apply filter_In in I. tauto.
Qed.

(** X5, with the client that fails on the second of three chunks: after
    the third chunk the intermediate file holds the first and the third. *)
Lemma progress_is_saved_witness :
  exists tr,
    Translate.translate_lang Example.flaky Example.decoder Example.three
      Example.folder 1 Example.fr (start []) =
    (Return tt, advance (start []) tr 3) /\
    In (EvWrite (lit "messages/fr.temp.json")
          (FJson [(lit "a", JStr (lit "Bonjour"));
                  (lit "c", JStr (lit "Merci"))])) tr.
Proof.
  apply (progress_is_saved Example.flaky Example.decoder Example.folder
           Example.fr Example.three 1
           [[(lit "a", JStr (lit "Hello"))];
            [(lit "b", JStr (lit "Goodbye"))];
            [(lit "c", JStr (lit "Thanks"))]]
           (start [])
           [Return [(lit "a", JStr (lit "Bonjour"))]; Raise Example.timed_out]
           []
           [(lit "c", JStr (lit "Merci"))]).
  - reflexivity.
  - reflexivity.
Defined.

Lemma failures_length_error_logs folder lang outs : forall idx,
  length (error_logs folder lang idx outs) = length (failures outs).
Proof.
  induction outs as [|[r|e] outs IH]; intros idx; simpl; auto.
Qed.

(** X6. The diagnostic artifacts of a locale of translate.py are the error
    logs of its failed chunks, one per failed chunk and in chunk order:
    the log of the chunk at position [i] (from 0) is named
    [{lang}_error_chunk_{i+1}.log] and holds the text of the exception. *)
Theorem one_log_per_failed_chunk
    (complete : endpoint) (json_loads : pystr -> decoded)
    (folder lang : pystr) (data : dict) (n : Z) (chunks : list dict)
    (w : world) :
  chunk_dict data n = Return chunks ->
  let outs := bulk_outcomes complete json_loads lang (calls w) chunks in
  exists tr,
    Translate.translate_lang complete json_loads data folder n lang w =
    (Return tt, advance w tr (length chunks)) /\
    artifacts tr = error_logs folder lang 0 outs /\
    length (artifacts tr) = length (failures outs).
Proof.
  intros C outs.
  destruct (translate_lang_run complete json_loads folder lang data n chunks
              w C) as [tr [R [E _]]].
  fold outs in E. exists tr. split; [exact R|].
  assert (A : artifacts tr = error_logs folder lang 0 outs).
  { rewrite <- artifacts_effects, E, artifacts_app, artifacts_bulk_effects.
    destruct (dict_nonempty (merged outs)); simpl; [|apply app_nil_r].
    destruct (assoc_get _ _); apply app_nil_r. }
  split; [exact A|]. rewrite A. apply failures_length_error_logs.
Qed.

(** X6, with a client that is down and three chunks: three logs. *)
Lemma one_log_per_failed_chunk_witness :
  exists tr,
    Translate.translate_lang Example.down Example.decoder Example.three
      Example.folder 1 Example.fr (start []) =
    (Return tt, advance (start []) tr 3) /\
    artifacts tr =
      [EvWrite (lit "messages/fr_error_chunk_1.log") (FText (lit "no reply"));
       EvWrite (lit "messages/fr_error_chunk_2.log") (FText (lit "no reply"));
       EvWrite (lit "messages/fr_error_chunk_3.log") (FText (lit "no reply"))].
Proof.
  destruct (one_log_per_failed_chunk Example.down Example.decoder
              Example.folder Example.fr Example.three 1
              [[(lit "a", JStr (lit "Hello"))];
               [(lit "b", JStr (lit "Goodbye"))];
               [(lit "c", JStr (lit "Thanks"))]]
              (start []) eq_refl) as [tr [R [A _]]].
  exists tr. split; [exact R | exact A].
Defined.

Lemma Forall2_same_keys_concat (rs cs : list dict) (k : pystr) :
  Forall2 same_keys rs cs ->
  (exists r, In r rs /\ In k (keys r)) <-> In k (keys (concat cs)).
Proof.
  intros F. unfold keys. rewrite concat_map, in_concat. split.
  - intros [r [I K]].
    destruct (Forall2_same_keys_l _ _ _ F I) as [c [Ic Sc]].
    exists (map fst c). split; [apply in_map; exact Ic | apply Sc, K].
  - intros [l [I K]]. apply in_map_iff in I. destruct I as [c [<- Ic]].
    destruct (Forall2_same_keys_r _ _ _ F Ic) as [r [Ir Sr]].
    exists r. split; [exact Ir | apply Sr, K].
Qed.

Lemma in_map_return (rs : list dict) (r : dict) :
  In (Return r) (map Return rs) <-> In r rs.
Proof.
  rewrite in_map_iff. split.
  - intros [x [E I]]. inversion E; subst. exact I.
  - intros I. eauto.
Qed.

Lemma failures_map_return (rs : list dict) : failures (map Return rs) = [].
Proof. induction rs as [|r rs IH]; simpl; auto. Qed.

(** X7. A locale of translate.py all of whose chunks succeed with responses
    keyed like their chunks: the Locale File holds exactly the keys of the
    String Table, the intermediate file is gone and no error log is
    written. *)
Theorem bulk_locale_complete
    (complete : endpoint) (json_loads : pystr -> decoded)
    (folder lang : pystr) (data : dict) (n : Z) (chunks : list dict)
    (w : world) (rs : list dict) :
  NoDup (keys data) -> data <> [] -> 0 < n ->
  chunk_dict data n = Return chunks ->
  bulk_outcomes complete json_loads lang (calls w) chunks = map Return rs ->
  Forall2 same_keys rs chunks ->
  exists tr d,
    Translate.translate_lang complete json_loads data folder n lang w =
    (Return tt, advance w tr (length chunks)) /\
    json_file (advance w tr (length chunks))
              (Translate.out_file_of folder lang) = Some d /\
    (forall k, In k (keys d) <-> In k (keys data)) /\
    assoc_get (files (advance w tr (length chunks)))
              (Translate.temp_file_of folder lang) = None /\
    artifacts tr = [].
Proof.
  intros ND NE Hn C O F.
  assert (CC : concat chunks = data).
  { rewrite (chunk_dict_windows data n ND Hn) in C. inversion C.
    pose proof (@range_len_ceil (Z.of_nat (length data)) n ltac:(lia) Hn)
      as [_ B].
    rewrite concat_windows. apply firstn_all2. nia. }
  destruct (translate_lang_run complete json_loads folder lang data n chunks
              w C) as [tr [R [E _]]].
  destruct (bulk_locale_outcome complete json_loads folder lang data n chunks
              w C) as [tr' [R' [S1 _]]].
  rewrite R in R'. apply (f_equal snd) in R'. simpl in R'.
  assert (tr' = tr) as ->.
  { apply (f_equal trace) in R'. unfold advance in R'. simpl in R'.
    apply app_inv_head in R'. congruence. }
  clear R'. rewrite O in E, S1.
  assert (K : forall k, In k (keys (merged (map Return rs)))
                        <-> In k (keys data)).
  { intros k. unfold merged. rewrite merge_keys, <- CC.
    rewrite <- (Forall2_same_keys_concat rs chunks k F). split.
    - intros [[]|[r [I Kr]]]. apply in_map_return in I. eauto.
    - intros [r [I Kr]]. right. exists r. rewrite in_map_return. auto. }
  assert (NM : dict_nonempty (merged (map Return rs)) = true).
  { destruct data as [|[k v] data']; [congruence|].
    assert (I : In k (keys (merged (map Return rs))))
      by (apply K; left; reflexivity).
    destruct (merged (map Return rs)); [destruct I | reflexivity]. }
  destruct (S1 NM) as [_ [J [_ T]]].
  exists tr, (merged (map Return rs)).
  split; [exact R|]. split; [exact J|]. split; [exact K|].
  split; [exact T|].
  rewrite <- artifacts_effects, E, artifacts_app, artifacts_bulk_effects.
  rewrite NM. 
  assert (Z0 : forall idx, error_logs folder lang idx (map Return rs) = []).
  { clear. induction rs as [|r rs IH]; intros idx; simpl; auto. }
  rewrite Z0. simpl. destruct (assoc_get _ _); reflexivity.
Qed.

(** X7, at the table of three entries with a client that answers all
    three chunks. *)
Lemma bulk_locale_complete_witness :
  exists tr d,
    Translate.translate_lang
      (scripted [Return Example.reply_a; Return Example.reply_b;
                 Return Example.reply_c])
      Example.decoder Example.three Example.folder 1 Example.fr (start []) =
    (Return tt, advance (start []) tr 3) /\
    json_file (advance (start []) tr 3) Example.fr_path = Some d /\
    (forall k, In k (keys d) <-> In k (keys Example.three)).
Proof.
  destruct (bulk_locale_complete
              (scripted [Return Example.reply_a; Return Example.reply_b;
                         Return Example.reply_c])
              Example.decoder Example.folder Example.fr Example.three 1
              [[(lit "a", JStr (lit "Hello"))];
               [(lit "b", JStr (lit "Goodbye"))];
               [(lit "c", JStr (lit "Thanks"))]]
              (start [])
              [[(lit "a", JStr (lit "Bonjour"))];
               [(lit "b", JStr (lit "Au revoir"))];
               [(lit "c", JStr (lit "Merci"))]])
    as [tr [d [R [J [K _]]]]].
  - apply distinct_sound. reflexivity.
  - discriminate.
  - lia.
  - reflexivity.
  - reflexivity.
  - repeat (constructor; [intros k; simpl; tauto|]). constructor.
  - exists tr, d. split; [exact R|]. split; [exact J | exact K].
Defined.

(** ** Locales of translation_sync.py *)

Lemma filter_none {A : Type} (f : A -> bool) (l : list A) :
  (forall x, In x l -> f x = false) -> filter f l = [].
Proof.
  induction l as [|x l IH]; simpl; intros H; [reflexivity|].
  rewrite (H x (or_introl eq_refl)). apply IH. intros y I. apply H. right; exact I.
Qed.

Lemma directive_items_none (S : dict) :
  (forall k v, In (k, v) S -> Sync.is_update v = false) ->
  directive_items S = [].
Proof.
  unfold directive_items. induction S as [|[k v] S IH]; simpl; intros H;
    [reflexivity|].
  rewrite (H k v (or_introl eq_refl)). simpl. apply IH.
  intros k' v' I. apply (H k' v'). right; exact I.
Qed.

(** X8. A locale that is up to date is skipped: when the String Table
    holds no update directive and the Locale File has every key whose
    value is no record, the work-set is empty and the locale costs two
    lines on the console, no request and no write. *)
Theorem up_to_date_locale_is_skipped
    (complete : endpoint) (json_loads : pystr -> decoded)
    (folder lang : pystr) (S : dict) (n : Z) (w : world) (T : dict) :
  NoDup (keys S) ->
  (forall k v, In (k, v) S -> Sync.is_update v = false) ->
  (forall k v, In (k, v) S -> is_dict v = false -> dict_mem k T = true) ->
  locale_data w (Sync.out_path_of folder lang) = Some T ->
  Sync.to_translate_of S T = Return [] /\
  Sync.sync_lang complete json_loads S folder n lang w =
  (Return tt,
   advance w [EvPrint (MsgSyncing lang); EvPrint MsgNoTranslationNeeded] 0).
Proof.
  intros ND NU UP L.
  assert (P : Sync.to_translate_of S T = Return []).
  { rewrite to_translate_of_items; [|exact ND|].
    - rewrite (directive_items_none S NU). unfold plain_items.
      rewrite filter_none; [reflexivity|].
      intros [k v] I. simpl. destruct (is_dict v) eqn:D; [reflexivity|].
      rewrite (UP k v I D). reflexivity.
    - intros k u I U. rewrite (NU k u I) in U. discriminate. }
  split; [exact P|].
  destruct (sync_lang_run complete json_loads folder lang S n w T [] L P)
    as [R _].
  apply R. reflexivity.
Qed.

(** X8, with a table of three plain entries and a Locale File that has
    them all. *)
Lemma up_to_date_locale_is_skipped_witness :
  Sync.to_translate_of Example.three
    [(lit "a", JStr (lit "Bonjour")); (lit "b", JStr (lit "Au revoir"));
     (lit "c", JStr (lit "Merci"))] = Return [].
Proof.
  apply (up_to_date_locale_is_skipped Example.down Example.decoder
           Example.folder Example.fr Example.three 1
           (start [(Example.fr_path,
                    FJson [(lit "a", JStr (lit "Bonjour"));
                           (lit "b", JStr (lit "Au revoir"));
                           (lit "c", JStr (lit "Merci"))])])).
  - apply distinct_sound. reflexivity.
  - intros k v [E|[E|[E|[]]]]; inversion E; reflexivity.
  - intros k v [E|[E|[E|[]]]] _; inversion E; reflexivity.
  - reflexivity.
Defined.

Lemma assoc_set_keys_shape {V : Type} (d : list (pystr * V)) k v :
  map fst (assoc_set d k v) =
  if existsb (str_eqb k) (map fst d) then map fst d else map fst d ++ [k].
Proof.
  induction d as [|[k0 v0] d IH]; simpl; [reflexivity|].
  destruct (str_eqb k k0) eqn:E; simpl; [reflexivity|].
  rewrite IH. destruct (existsb (str_eqb k) (map fst d)); reflexivity.
Qed.

Lemma dict_update_keys_prefix (d' : dict) : forall d,
  exists added,
    keys (dict_update d d') = keys d ++ added /\
    (forall k, In k added -> In k (keys d') /\ ~ In k (keys d)).
Proof.
  unfold dict_update, keys.
  induction d' as [|[k v] d' IH]; intros d; simpl.
  - exists []. rewrite app_nil_r. split; [reflexivity | intros k []].
  - destruct (IH (dict_set d k v)) as [added [E H]].
    unfold dict_set in *. rewrite E, assoc_set_keys_shape.
    destruct (existsb (str_eqb k) (map fst d)) eqn:X.
    + exists added. split; [reflexivity|].
      intros k' I. destruct (H k' I) as [I1 I2]. split; [right; exact I1|].
      rewrite assoc_set_keys_shape, X in I2. exact I2.
    + exists (k :: added). split; [rewrite <- app_assoc; reflexivity|].
      intros k' [<-|I].
      * split; [left; reflexivity|]. intros I.
        assert (Y : existsb (str_eqb k) (map fst d) = true)
          by (apply existsb_exists; exists k; split;
              [exact I | apply str_eqb_refl]).
        congruence.
      * destruct (H k' I) as [I1 I2]. split; [right; exact I1|].
        rewrite assoc_set_keys_shape, X in I2. intros J. apply I2.
        apply in_or_app. left; exact J.
Qed.

(** X9. translation_sync.py never removes or moves a key of a Locale File:
    after a locale with a non-empty work-set, the keys of the file are its
    old keys, in their old order, followed by keys it did not have. *)
Theorem sync_keeps_locale_keys
    (complete : endpoint) (json_loads : pystr -> decoded)
    (folder lang : pystr) (en_data : dict) (n : Z) (w : world)
    (T W : dict) (chunks : list dict) :
  locale_data w (Sync.out_path_of folder lang) = Some T ->
  Sync.to_translate_of en_data T = Return W -> W <> [] ->
  chunk_dict W n = Return chunks ->
  exists tr d added,
    Sync.sync_lang complete json_loads en_data folder n lang w =
    (Return tt, advance w tr (length chunks)) /\
    json_file (advance w tr (length chunks)) (Sync.out_path_of folder lang)
      = Some d /\
    keys d = keys T ++ added /\
    (forall k, In k added -> ~ In k (keys T)).
Proof.
  intros L P NE C.
  destruct (sync_locale_outcome complete json_loads folder lang en_data n w
              T W chunks L P NE C) as [tr [R [_ [_ [_ [J _]]]]]].
  destruct (dict_update_keys_prefix
              (merged (sync_outcomes complete json_loads lang (calls w)
                         chunks)) T) as [added [E H]].
  eexists tr, _, added. split; [exact R|]. split; [exact J|].
  split; [exact E|]. intros k I. apply (H k I).
Qed.

(** X9, at the end-to-end scenario with an existing Locale File. *)
Lemma sync_keeps_locale_keys_witness :
  exists tr d added,
    Sync.sync_lang Example.inventive Example.decoder Example.table
      Example.folder 1 Example.fr
      (start [(Example.fr_path, FJson Example.old_fr)]) =
    (Return tt,
     advance (start [(Example.fr_path, FJson Example.old_fr)]) tr 2) /\
    json_file (advance (start [(Example.fr_path, FJson Example.old_fr)]) tr 2)
              Example.fr_path = Some d /\
    keys d = keys Example.old_fr ++ added.
Proof.
  destruct (sync_keeps_locale_keys Example.inventive Example.decoder
              Example.folder Example.fr Example.table 1
              (start [(Example.fr_path, FJson Example.old_fr)])
              Example.old_fr
              [(lit "a", JStr (lit "Hello")); (lit "b", JStr (lit "Goodbye"))]
              [[(lit "a", JStr (lit "Hello"))];
               [(lit "b", JStr (lit "Goodbye"))]])
    as [tr [d [added [R [J [K _]]]]]].
  - reflexivity.
  - reflexivity.
  - discriminate.
  - reflexivity.
  - exists tr, d, added. split; [exact R|]. split; [exact J | exact K].
Defined.

Lemma chunk_dict_concat_pos (data : dict) (n : Z) (chunks : list dict) :
  NoDup (keys data) -> 0 < n -> chunk_dict data n = Return chunks ->
  concat chunks = data.
Proof.
  intros ND Hn C. rewrite (chunk_dict_windows data n ND Hn) in C.
  inversion C.
  pose proof (@range_len_ceil (Z.of_nat (length data)) n ltac:(lia) Hn)
    as [_ B].
  rewrite concat_windows. apply firstn_all2. nia.
Qed.

(** X10. A locale of translation_sync.py all of whose chunks succeed with
    responses keyed like their chunks: afterwards the Locale File has every
    key of the String Table whose value is no record, and every key of an
    update directive; no error is printed. *)
Theorem sync_locale_complete
    (complete : endpoint) (json_loads : pystr -> decoded)
    (folder lang : pystr) (S : dict) (n : Z) (w : world)
    (T W : dict) (chunks rs : list dict) :
  NoDup (keys S) ->
  (forall k u, In (k, u) S -> Sync.is_update u = true ->
               directive_text u <> None) ->
  locale_data w (Sync.out_path_of folder lang) = Some T ->
  Sync.to_translate_of S T = Return W -> W <> [] -> 0 < n ->
  chunk_dict W n = Return chunks ->
  sync_outcomes complete json_loads lang (calls w) chunks = map Return rs ->
  Forall2 same_keys rs chunks ->
  exists tr d,
    Sync.sync_lang complete json_loads S folder n lang w =
    (Return tt, advance w tr (length chunks)) /\
    json_file (advance w tr (length chunks)) (Sync.out_path_of folder lang)
      = Some d /\
    (forall k v, dict_get S k = Some v ->
                 is_dict v = false \/ Sync.is_update v = true ->
                 In k (keys d)) /\
    printed_errors tr = [].
Proof.
  intros ND HT L P NE Hn C O F.
  assert (NW : NoDup (keys W)) by (apply (to_translate_nodup S T W P)).
  pose proof (chunk_dict_concat_pos W n chunks NW Hn C) as CC.
  destruct (sync_locale_outcome complete json_loads folder lang S n w
              T W chunks L P NE C) as [tr [R [_ [PE [_ [J _]]]]]].
  rewrite O in J, PE. rewrite failures_map_return in PE.
  exists tr, (dict_update T (merged (map Return rs))).
  split; [exact R|]. split; [exact J|]. split; [|exact PE].
  assert (KW : forall k, In k (keys W) ->
                         In k (keys (dict_update T (merged (map Return rs))))).
  { intros k I. apply dict_update_keys_in. right. apply merge_keys. right.
    rewrite <- CC in I.
    apply (Forall2_same_keys_concat rs chunks k F) in I.
    destruct I as [r [Ir Kr]]. exists r. rewrite in_map_return. auto. }
  rewrite (to_translate_of_items S T ND HT) in P. inversion P as [EW].
  intros k v G [D|U].
  - destruct (dict_mem k T) eqn:M.
    + apply dict_update_keys_in. left. unfold dict_mem in M.
      apply assoc_get_in. unfold dict_get in M.
      destruct (assoc_get T k) as [x|]; [eauto | discriminate].
    + apply KW. rewrite <- EW. unfold keys. rewrite map_app.
      apply in_or_app. left. apply (in_map fst _ (k, v)).
      apply filter_In. split; [apply assoc_get_some_in, G|].
      simpl. rewrite D, M. reflexivity.
  - apply KW. rewrite <- EW. unfold keys. rewrite map_app.
    apply in_or_app. right.
    pose proof (assoc_get_some_in _ _ _ G) as I.
    destruct v as [| | | | |d]; try discriminate.
    destruct (dict_get d (lit "text")) as [t|] eqn:X.
    + apply (in_map fst _ (k, t)). apply in_directive_items.
      exists d. auto.
    + exfalso. apply (HT k (JObj d) I U). exact X.
Qed.

(** X10, at the end-to-end scenario with a client that honours the
    contract. *)
Lemma sync_locale_complete_witness :
  exists tr d,
    Sync.sync_lang
      (scripted [Return Example.reply_a; Return Example.reply_b])
      Example.decoder Example.table Example.folder 1 Example.fr (start []) =
    (Return tt, advance (start []) tr 2) /\
    json_file (advance (start []) tr 2) Example.fr_path = Some d /\
    In (lit "a") (keys d) /\ In (lit "b") (keys d).
Proof.
  destruct (sync_locale_complete
              (scripted [Return Example.reply_a; Return Example.reply_b])
              Example.decoder Example.folder Example.fr Example.table 1
              (start []) []
              [(lit "a", JStr (lit "Hello")); (lit "b", JStr (lit "Goodbye"))]
              [[(lit "a", JStr (lit "Hello"))];
               [(lit "b", JStr (lit "Goodbye"))]]
              [[(lit "a", JStr (lit "Bonjour"))];
               [(lit "b", JStr (lit "Au revoir"))]])
    as [tr [d [R [J [K _]]]]].
  - apply distinct_sound. reflexivity.
  - intros k u [E|[E|[]]] U; inversion E; subst; discriminate.
  - reflexivity.
  - reflexivity.
  - discriminate.
  - lia.
  - reflexivity.
  - reflexivity.
  - repeat (constructor; [intros k; simpl; tauto|]). constructor.
  - exists tr, d. split; [exact R|]. split; [exact J|]. split.
    + apply (K (lit "a") (JStr (lit "Hello")) eq_refl). left; reflexivity.
    + apply (K (lit "b")
               (JObj [(lit "text", JStr (lit "Goodbye"));
                      (lit "update", JBool true)]) eq_refl).
      right; reflexivity.
Defined.

Lemma sync_lang_zero complete json_loads folder lang (S T W : dict) w :
  locale_data w (Sync.out_path_of folder lang) = Some T ->
  Sync.to_translate_of S T = Return W -> W <> [] ->
  Sync.sync_lang complete json_loads S folder 0 lang w =
  (Raise (ValueError (lit "range() arg 3 must not be zero")),
   advance w [EvPrint (MsgSyncing lang)] 0).
Proof.
  intros L P NE.
  unfold Sync.sync_lang. unfold bindM at 1. rewrite print_run.
  unfold bindM at 1. rewrite path_exists_run.
  match goal with |- context [advance ?a ?b ?c] =>
    set (w1 := advance a b c) end.
  assert (L1 : locale_data w1 (Sync.out_path_of folder lang) = Some T)
    by exact L.
  unfold locale_data in L1.
  destruct (assoc_get (files w1) (Sync.out_path_of folder lang))
    as [[d|s]|] eqn:G; inversion L1; subst.
  - unfold bindM at 1.
    assert (JJ : json_file w1 (Sync.out_path_of folder lang) = Some T)
      by (unfold json_file; rewrite G; reflexivity).
    rewrite (read_json_run json_loads _ _ T JJ).
    unfold bindM at 1. rewrite lift_run, P.
    destruct W; [congruence|]. cbn [negb dict_nonempty].
    unfold bindM at 1. rewrite lift_run. reflexivity.
  - unfold bindM at 1. unfold ret. unfold bindM at 1.
    rewrite lift_run, P.
    destruct W; [congruence|]. cbn [negb dict_nonempty].
    unfold bindM at 1. rewrite lift_run. reflexivity.
Qed.

(** The locales before the first one with work to do cost two lines each;
    the chunker raises at that one. *)
Lemma sync_skip_then_zero complete json_loads folder lang rest (S T W : dict) :
  Sync.to_translate_of S T = Return W -> W <> [] ->
  forall skipped w,
  (forall l, In l skipped ->
     exists T', locale_data w (Sync.out_path_of folder l) = Some T' /\
                Sync.to_translate_of S T' = Return []) ->
  locale_data w (Sync.out_path_of folder lang) = Some T ->
  exists tr,
    for_loop (fun _ l => Sync.sync_lang complete json_loads S folder 0 l)
             (skipped ++ lang :: rest) tt w =
    (Raise (ValueError (lit "range() arg 3 must not be zero")),
     advance w tr 0) /\
    effects tr = [].
Proof.
  intros P NE. induction skipped as [|l skipped IH]; intros w SK L;
    cbn [app for_loop]; unfold bindM at 1.
  - rewrite (sync_lang_zero complete json_loads folder lang S T W w L P NE).
    eexists. split; reflexivity.
  - destruct (SK l (or_introl eq_refl)) as [T' [L' P']].
    destruct (sync_lang_run complete json_loads folder l S 0 w T' [] L' P')
      as [R0 _].
    rewrite (R0 eq_refl).
    destruct (IH (advance w [EvPrint (MsgSyncing l);
                             EvPrint MsgNoTranslationNeeded] 0))
      as [tr [R E]].
    + intros l0 I. exact (SK l0 (or_intror I)).
    + exact L.
    + rewrite R, advance_advance. eexists. split; [reflexivity|].
      rewrite effects_app, E. reflexivity.
Qed.

(** X11. translation_sync.py stops at once when the String Table file is
    missing ([FileNotFoundError]), and, when the chunk size is zero, stops
    at the first locale with a non-empty work-set ([ValueError]), the
    locales before it being skipped as up to date: no request is sent,
    nothing is written, and the update directives of the String Table stay
    as they are. *)
Theorem translate_sync_aborts
    (complete : endpoint) (json_loads : pystr -> decoded)
    (input_file folder : pystr) :
  (forall langs n w,
     assoc_get (files w) input_file = None ->
     Sync.translate_sync complete json_loads input_file folder langs n w
     = (Raise (FileNotFoundError input_file),
        advance w [EvPrint MsgLoadingSource] 0))
  /\
  (forall skipped lang rest w S T W,
     json_file w input_file = Some S ->
     (forall l, In l skipped ->
        exists T', locale_data w (Sync.out_path_of folder l) = Some T' /\
                   Sync.to_translate_of S T' = Return []) ->
     locale_data w (Sync.out_path_of folder lang) = Some T ->
     Sync.to_translate_of S T = Return W -> W <> [] ->
     exists tr,
       Sync.translate_sync complete json_loads input_file folder
         (skipped ++ lang :: rest) 0 w
       = (Raise (ValueError (lit "range() arg 3 must not be zero")),
          advance w tr 0)
       /\ effects tr = []
       /\ json_file (advance w tr 0) input_file = Some S).
Proof.
  split.
  - intros langs n w H. unfold Sync.translate_sync, bindM.
    rewrite print_run. unfold read_json.
    change (files (advance w [EvPrint MsgLoadingSource] 0)) with (files w).
    rewrite H. reflexivity.
  - intros skipped lang rest w S T W J SK L P NE.
    unfold Sync.translate_sync. unfold bindM at 1. rewrite print_run.
    unfold bindM at 1.
    rewrite (read_json_run json_loads input_file _ S) by exact J.
    unfold bindM at 1. rewrite print_run, advance_advance.
    unfold bindM at 1.
    match goal with |- context [for_loop _ _ tt ?w0] =>
      destruct (sync_skip_then_zero complete json_loads folder lang rest
                  S T W P NE skipped w0) as [tr [R E]]
    end.
    { intros l I. exact (SK l I). }
    { exact L. }
    rewrite R, advance_advance. eexists. split; [reflexivity|].
    assert (EE : forall pre, effects (pre ++ tr) = effects pre) by
      (intros pre; rewrite effects_app, E; apply app_nil_r).
    split; [rewrite EE; reflexivity|].
    unfold json_file, advance. cbn [files].
    rewrite <- replay_effects, EE. exact J.
Qed.

(** X11, at the end-to-end scenario: no String Table; and chunk size
    zero, where [es] is up to date and skipped and [fr] has work to do. *)
Lemma translate_sync_aborts_witness :
  fst (Sync.translate_sync Example.inventive Example.decoder Example.en_path
         Example.folder [Example.es; Example.fr] 1 (start []))
  = Raise (FileNotFoundError Example.en_path)
  /\
  fst (Sync.translate_sync Example.inventive Example.decoder Example.en_path
         Example.folder [Example.es; Example.fr] 0
         (start [(Example.en_path, FJson Example.three);
                 (Example.es_path, FJson Example.three)]))
  = Raise (ValueError (lit "range() arg 3 must not be zero")).
Proof.
  split.
  - rewrite (proj1 (translate_sync_aborts Example.inventive Example.decoder
                      Example.en_path Example.folder)
               [Example.es; Example.fr] 1 (start []) eq_refl).
    reflexivity.
  - destruct (proj2 (translate_sync_aborts Example.inventive Example.decoder
                       Example.en_path Example.folder)
                [Example.es] Example.fr []
                (start [(Example.en_path, FJson Example.three);
                        (Example.es_path, FJson Example.three)])
                Example.three [] Example.three eq_refl)
      as [tr [R _]].
    + intros l [<-|[]]. exists Example.three. split; reflexivity.
    + reflexivity.
    + reflexivity.
    + discriminate.
    + change ([Example.es; Example.fr])
        with ([Example.es] ++ Example.fr :: []).
      rewrite R. reflexivity.
Defined.

Lemma startswith_split (p : pystr) : forall s,
  startswith p s = true -> exists r, s = p ++ r.
Proof.
  induction p as [|c p IH]; intros s H; [exists s; reflexivity|].
  destruct s as [|x s]; [discriminate|]. simpl in H.
  apply andb_true_iff in H. destruct H as [E H].
  apply N.eqb_eq in E. subst x.
  destruct (IH s H) as [r ->]. exists r. reflexivity.
Qed.

Lemma endswith_split (suffix s : pystr) :
  endswith suffix s = true -> exists pre, s = pre ++ suffix.
Proof.
  unfold endswith. intros H.
  destruct (startswith_split (rev suffix) (rev s) H) as [r E].
  exists (rev r). apply (f_equal (@rev N)) in E.
  rewrite rev_involutive, rev_app_distr, rev_involutive in E. exact E.
Qed.

Lemma py_slice_drop_json (s : pystr) : py_slice (s ++ lit ".json") 0 (-5) = s.
Proof.
  unfold py_slice, slice_bound. rewrite length_app. simpl length.
  destruct (Z.ltb_spec 0 0); [lia|]. destruct (Z.ltb_spec (-5) 0); [|lia].
  rewrite Z.min_l by lia. rewrite Z.max_r by lia. simpl skipn.
  replace (Z.to_nat (-5 + Z.of_nat (length s + 5) - 0)) with (length s) by lia.
  rewrite firstn_app, firstn_all, Nat.sub_diag. simpl. apply app_nil_r.
Qed.

Lemma detected_languages (listing : list pystr) (lang : pystr) :
  In lang (map (fun f => py_slice f 0 (-5))
             (filter (fun f => endswith (lit ".json") f
                               && negb (str_eqb f (lit "en.json")))
                     listing))
  <-> In (lang ++ lit ".json") listing /\ lang <> lit "en".
Proof.
  rewrite in_map_iff. split.
  - intros [f [E I]]. apply filter_In in I. destruct I as [I H].
    apply andb_true_iff in H. destruct H as [H1 H2].
    destruct (endswith_split _ _ H1) as [pre ->].
    rewrite py_slice_drop_json in E. subst pre. split; [exact I|].
    intros ->. rewrite str_eqb_refl in H2. discriminate.
  - intros [I NE]. exists (lang ++ lit ".json").
    split; [apply py_slice_drop_json|]. apply filter_In. split; [exact I|].
    rewrite endswith_app. simpl andb. apply negb_true_iff, str_eqb_neq.
    intros E. apply NE.
    change (lit "en.json") with (lit "en" ++ lit ".json") in E.
    apply app_inv_tail in E. exact E.
Qed.

Lemma locale_path_not_table (lang : pystr) :
  lang <> lit "en" ->
  path_join (lit "messages") (lang ++ lit ".json") <> lit "messages/en.json".
Proof.
  intros NE. unfold path_join.
  destruct (startswith (lit "/") (lang ++ lit ".json")) eqn:S.
  - destruct (startswith_split _ _ S) as [r ->]. discriminate.
  - change (endswith (lit "/") (lit "messages")) with false.
    cbv iota. intros E.
    change (lit "messages" ++ lit "/" ++ lang ++ lit ".json")
      with (lit "messages/" ++ lang ++ lit ".json") in E.
    change (lit "messages/en.json")
      with (lit "messages/" ++ lit "en" ++ lit ".json") in E.
    apply app_inv_head in E. apply app_inv_tail in E. exact (NE E).
Qed.

(** X12. Language detection of translation_sync.py and
    translation_checker.py: a language is detected exactly when the folder
    lists the file [<lang>.json] and the language is not [en]; hence the
    Locale File of a detected language is never the String Table. *)
Theorem detected_languages_exact (listing : list pystr) (lang : pystr) :
  (In lang (Sync.LANGUAGES_TO_TRANSLATE listing)
   <-> In (lang ++ lit ".json") listing /\ lang <> lit "en")
  /\ (In lang (Checker.LANGUAGES_TO_CHECK listing)
      <-> In (lang ++ lit ".json") listing /\ lang <> lit "en")
  /\ (In lang (Sync.LANGUAGES_TO_TRANSLATE listing) ->
      Sync.out_path_of Sync.OUTPUT_FOLDER lang <> Sync.INPUT_FILE_PATH)
  /\ (In lang (Checker.LANGUAGES_TO_CHECK listing) ->
      path_join Checker.TRANSLATION_FOLDER (lang ++ lit ".json")
      <> Checker.INPUT_FILE_PATH).
Proof.
  split; [apply detected_languages|]. split; [apply detected_languages|].
  split; intros I; apply detected_languages in I; destruct I as [_ NE];
    apply (locale_path_not_table lang NE).
Qed.

(** X12, on a folder with the String Table, two Locale Files and a log. *)
Lemma detected_languages_exact_witness :
  In (lit "es")
     (Sync.LANGUAGES_TO_TRANSLATE
        [lit "en.json"; lit "fr.json"; lit "fr_parse_error.log";
         lit "es.json"])
  /\ Sync.LANGUAGES_TO_TRANSLATE
       [lit "en.json"; lit "fr.json"; lit "fr_parse_error.log"; lit "es.json"]
     = [lit "fr"; lit "es"].
Proof.
  split; [|reflexivity].
  apply (proj2 (proj1 (detected_languages_exact
           [lit "en.json"; lit "fr.json"; lit "fr_parse_error.log";
            lit "es.json"] (lit "es")))).
  split; [simpl; tauto | discriminate].
Defined.

(* ================================================================== *)
(** * The QA pass as a whole *)
(* ================================================================== *)

Lemma quiet_here {A : Type} (m : M A) :
  (forall w, snd (m w) = w) -> quiet m.
Proof.
  intros H w. exists [], 0%nat. rewrite advance_nil. split; [apply H|].
  reflexivity.
Qed.

Lemma quiet_print (m : message) : quiet (print m).
Proof.
  intros w. exists [EvPrint m], 0%nat. rewrite print_run.
  split; reflexivity.
Qed.

Lemma quiet_bind {A B : Type} (m : M A) (k : A -> M B) :
  quiet m -> (forall a, quiet (k a)) -> quiet (bindM m k).
Proof.
  intros Hm Hk w. destruct (Hm w) as [tr1 [c1 [R1 E1]]].
  unfold bindM. destruct (m w) as [[a|e] w1]; simpl in R1; subst w1.
  - destruct (Hk a (advance w tr1 c1)) as [tr2 [c2 [R2 E2]]].
    exists (tr1 ++ tr2), (c1 + c2)%nat.
    rewrite R2, advance_advance, effects_app, E1, E2. split; reflexivity.
  - exists tr1, c1. split; [reflexivity | exact E1].
Qed.

Lemma quiet_for_loop {S A : Type} (body : S -> A -> M S) (l : list A) :
  (forall s a, quiet (body s a)) -> forall s, quiet (for_loop body l s).
Proof.
  intros H. induction l as [|a l IH]; intros s; cbn [for_loop].
  - apply quiet_here. reflexivity.
  - apply quiet_bind; [apply H | exact IH].
Qed.

Lemma quiet_read_json json_loads p : quiet (read_json json_loads p).
Proof.
  apply quiet_here. intros w. unfold read_json.
  destruct (assoc_get (files w) p) as [[d|s]|]; try reflexivity.
  destruct (json_loads s); reflexivity.
Qed.

(** The repository's reviewer changes no file: it raises before the
    parse-error log is written. *)
Lemma quiet_check_translation_chunk eng json_loads complete en tc lang :
  quiet (Checker.check_translation_chunk eng json_loads complete en tc lang).
Proof.
  intros w. exists [], 1%nat. rewrite check_translation_chunk_run.
  split; reflexivity.
Qed.

Lemma quiet_check_lang eng json_loads complete en_data folder n lang :
  quiet (Checker.check_lang json_loads
           (Checker.check_translation_chunk eng json_loads complete)
           en_data folder n lang).
Proof.
  unfold Checker.check_lang.
  apply quiet_bind; [apply quiet_here; reflexivity|].
  intros [|]; cbn [negb]; [|apply quiet_print].
  apply quiet_bind; [apply quiet_print|]. intros _.
  apply quiet_bind; [apply quiet_read_json|]. intros T.
  apply quiet_bind; [apply quiet_here; reflexivity|]. intros chunks.
  destruct chunks as [|chunk rest]; cbn [for_loop].
  - (* nothing to review: the empty Problem Record *)
    intros w. unfold bindM at 1. unfold ret at 1. cbn [dict_nonempty].
    apply quiet_print.
  - (* the first review raises *)
    intros w. exists [], 1%nat. unfold Checker.review_step. unfold bindM.
    rewrite check_translation_chunk_run. unfold checker_outcome.
    destruct (complete (calls w) chunk
                (Checker.translated_chunk_of T chunk) lang);
      split; reflexivity.
Qed.

(** X13. The QA script as it stands changes no file, whatever the folder
    holds and whatever the endpoint, the decoder and the regex engine do:
    its trace has no write and no removal, and the file system after the
    run is the one before. *)
Theorem qa_run_changes_no_file
    (eng : re_engine) (json_loads : pystr -> decoded)
    (complete : Checker.review_endpoint)
    (input_file folder : pystr) (langs : list pystr) (n : Z) (w : world) :
  exists tr c,
    snd (Checker.check_translations eng json_loads complete
           input_file folder langs n w) = advance w tr c /\
    effects tr = [] /\
    files (advance w tr c) = files w.
Proof.
  assert (Q : quiet (Checker.check_translations eng json_loads complete
                       input_file folder langs n)).
  { unfold Checker.check_translations, Checker.check_translations_with.
    apply quiet_bind; [apply quiet_print|]. intros _.
    apply quiet_bind; [apply quiet_read_json|]. intros en_data.
    apply quiet_for_loop. intros _ lang. apply quiet_check_lang. }
  destruct (Q w) as [tr [c [R E]]]. exists tr, c.
  split; [exact R|]. split; [exact E|].
  unfold advance. simpl files. rewrite <- replay_effects, E. reflexivity.
Qed.

(** X14. The QA script stops at its first review: when the String Table
    gives at least one chunk and the Locale File of the first language
    holds JSON, the run ends with an exception after one request, the one
    of the endpoint or, when the endpoint answers, [re.error]; the later
    languages are not looked at. *)
Theorem qa_run_stops_at_first_review
    (eng : re_engine) (json_loads : pystr -> decoded)
    (complete : Checker.review_endpoint)
    (input_file folder lang : pystr) (rest : list pystr) (n : Z) (w : world)
    (S T chunk : dict) (chunks : list dict) :
  json_file w input_file = Some S ->
  json_file w (path_join folder (lang ++ lit ".json")) = Some T ->
  chunk_dict S n = Return (chunk :: chunks) ->
  Checker.check_translations eng json_loads complete
    input_file folder (lang :: rest) n w =
  (Raise (match complete (calls w) chunk
                  (Checker.translated_chunk_of T chunk) lang with
          | Return _ => ReError (lit "look-behind requires fixed-width pattern")
          | Raise e => e
          end),
   advance w [EvPrint MsgLoadingEnglishSource; EvPrint (MsgChecking lang)] 1).
Proof.
  intros J L C.
  unfold Checker.check_translations, Checker.check_translations_with.
  unfold bindM at 1. rewrite print_run. unfold bindM at 1.
  rewrite (read_json_run json_loads input_file _ S) by exact J.
  cbn [for_loop]. unfold bindM at 1.
  unfold Checker.check_lang. unfold bindM at 1. rewrite path_exists_run.
  assert (X : assoc_get (files w) (path_join folder (lang ++ lit ".json"))
              = Some (FJson T)).
  { unfold json_file in L.
    destruct (assoc_get (files w) (path_join folder (lang ++ lit ".json")))
      as [[d|s]|]; inversion L. reflexivity. }
  change (files (advance w [EvPrint MsgLoadingEnglishSource] 0))
    with (files w).
  rewrite X. cbn [negb]. unfold bindM at 1. rewrite print_run, advance_advance.
  unfold bindM at 1.
  rewrite (read_json_run json_loads _ _ T) by exact L.
  unfold bindM at 1. rewrite lift_run, C. cbn [for_loop].
  unfold Checker.review_step. unfold bindM.
  rewrite check_translation_chunk_run, advance_advance. unfold checker_outcome.
  simpl calls. rewrite Nat.add_0_r.
  destruct (complete (calls w) chunk (Checker.translated_chunk_of T chunk)
              lang) as [raw|e]; reflexivity.
Qed.

(** X14, at the QA scenario with an endpoint that answers. *)
Lemma qa_run_stops_at_first_review_witness :
  fst (Checker.check_translations
         (mkEngine (fun _ _ s => s) (fun _ _ => None))
         Example.decoder
         (fun _ _ _ _ => Return (lit "{}"))
         Example.en_path Example.folder [Example.es; Example.fr] 36
         (start [(Example.en_path, FJson Example.en_x);
                 (Example.es_path, FJson Example.es_x)]))
  = Raise (ReError (lit "look-behind requires fixed-width pattern")).
Proof.
  rewrite (qa_run_stops_at_first_review
             (mkEngine (fun _ _ s => s) (fun _ _ => None))
             Example.decoder (fun _ _ _ _ => Return (lit "{}"))
             Example.en_path Example.folder Example.es [Example.fr] 36
             (start [(Example.en_path, FJson Example.en_x);
                     (Example.es_path, FJson Example.es_x)])
             Example.en_x Example.es_x Example.en_x []
             eq_refl eq_refl eq_refl).
  reflexivity.
Defined.

Lemma qa_skip_missing json_loads check_chunk en_data folder n langs :
  forall w,
  (forall lang, In lang langs ->
     assoc_get (files w) (path_join folder (lang ++ lit ".json")) = None) ->
  for_loop (fun _ lang =>
              Checker.check_lang json_loads check_chunk en_data folder n lang)
           langs tt w =
  (Return tt,
   advance w
     (map (fun lang =>
             EvPrint (MsgNotFound (path_join folder (lang ++ lit ".json"))))
          langs) 0).
Proof.
  induction langs as [|lang langs IH]; intros w H; cbn [for_loop map].
  - rewrite advance_nil. reflexivity.
  - unfold bindM at 1. unfold Checker.check_lang at 1. unfold bindM at 1.
    rewrite path_exists_run, (H lang (or_introl eq_refl)). cbn [negb].
    rewrite print_run, IH by (intros l I; apply (H l); right; exact I).
    rewrite advance_advance. reflexivity.
Qed.

(** X15. The QA pass skips a language whose Locale File is missing: with
    none of the Locale Files there, the run prints one warning per
    language, sends no request and returns, whatever the reviewer and the
    chunk size are. *)
Theorem qa_missing_locales_skipped
    (json_loads : pystr -> decoded)
    (check_chunk : dict -> dict -> pystr -> M dict)
    (input_file folder : pystr) (langs : list pystr) (n : Z) (w : world)
    (S : dict) :
  json_file w input_file = Some S ->
  (forall lang, In lang langs ->
     assoc_get (files w) (path_join folder (lang ++ lit ".json")) = None) ->
  Checker.check_translations_with json_loads check_chunk
    input_file folder langs n w =
  (Return tt,
   advance w
     (EvPrint MsgLoadingEnglishSource
        :: map (fun lang =>
                  EvPrint (MsgNotFound
                             (path_join folder (lang ++ lit ".json"))))
               langs) 0).
Proof.
  intros J H. unfold Checker.check_translations_with.
  unfold bindM at 1. rewrite print_run. unfold bindM at 1.
  rewrite (read_json_run json_loads input_file _ S) by exact J.
  rewrite qa_skip_missing by exact H.
  rewrite advance_advance. reflexivity.
Qed.

(** X15, at the QA scenario without the Locale Files, chunk size zero. *)
Lemma qa_missing_locales_skipped_witness :
  Checker.check_translations_with Example.decoder
    (simulated_reviewer (Example.reviewer_of Example.corrected_x))
    Example.en_path Example.folder [Example.es; Example.fr] 0
    (start [(Example.en_path, FJson Example.en_x)]) =
  (Return tt,
   advance (start [(Example.en_path, FJson Example.en_x)])
     [EvPrint MsgLoadingEnglishSource;
      EvPrint (MsgNotFound Example.es_path);
      EvPrint (MsgNotFound Example.fr_path)] 0).
Proof.
  apply (qa_missing_locales_skipped Example.decoder
           (simulated_reviewer (Example.reviewer_of Example.corrected_x))
           Example.en_path Example.folder [Example.es; Example.fr] 0
           (start [(Example.en_path, FJson Example.en_x)]) Example.en_x
           eq_refl).
  intros lang [<-|[<-|[]]]; reflexivity.
Defined.

(** X16. What the reviewer is shown of the Locale File [T] for a chunk: a
    dict with the chunk's keys in the chunk's order, each with the value
    [T] has for it, or the empty string where [T] lacks the key. *)
Theorem reviewer_sees_chunk_keys (T chunk : dict) :
  NoDup (keys chunk) ->
  keys (Checker.translated_chunk_of T chunk) = keys chunk /\
  (forall k, In k (keys chunk) ->
     dict_get (Checker.translated_chunk_of T chunk) k =
     Some (match dict_get T k with Some v => v | None => JStr [] end)).
Proof.
  intros ND. unfold Checker.translated_chunk_of.
  set (items := map (fun k => (k, match dict_get T k with
                                  | Some v => v
                                  | None => JStr []
                                  end)) (keys chunk)).
  assert (K : keys items = keys chunk).
  { unfold items, keys. rewrite map_map. simpl. apply map_id. }
  rewrite dict_of_items_nodup by (rewrite K; exact ND).
  split; [exact K|]. intros k I.
  apply in_assoc_get; [fold (keys items); rewrite K; exact ND|].
  unfold items. apply in_map_iff. exists k. split; [reflexivity | exact I].
Qed.

(** X16, at a chunk with a key the Locale File lacks. *)
Lemma reviewer_sees_chunk_keys_witness :
  Checker.translated_chunk_of Example.es_x
    [(lit "x", JStr (lit "Badly translated")); (lit "y", JStr (lit "New"))]
  = [(lit "x", JStr (lit "Mal traducido")); (lit "y", JStr [])]
  /\ keys (Checker.translated_chunk_of Example.es_x
             [(lit "x", JStr (lit "Badly translated"));
              (lit "y", JStr (lit "New"))])
     = [lit "x"; lit "y"].
Proof.
  split; [reflexivity|].
  apply (reviewer_sees_chunk_keys Example.es_x
           [(lit "x", JStr (lit "Badly translated"));
            (lit "y", JStr (lit "New"))]).
  apply distinct_sound. reflexivity.
Defined.

Lemma apply_problems_unnamed (problems : dict) (k : pystr) : forall T,
  (forall data, In (k, JObj data) problems ->
                dict_get data (lit "translation") = None) ->
  dict_get (Checker.apply_problems problems T) k = dict_get T k.
Proof.
  unfold Checker.apply_problems.
  induction problems as [|[k0 v0] problems IH]; intros T H; simpl;
    [reflexivity|].
  rewrite IH by (intros data I; apply H; right; exact I).
  destruct v0 as [| | | | |d]; try reflexivity.
  destruct (dict_get d (lit "translation")) as [t|] eqn:D; [|reflexivity].
  unfold dict_get, dict_set. rewrite assoc_get_set.
  destruct (str_eqb k k0) eqn:E; [|reflexivity].
  apply str_eqb_eq in E. subst k0.
  rewrite (H d (or_introl eq_refl)) in D. discriminate.
Qed.

Lemma apply_problems_keys_prefix (problems : dict) : forall T,
  exists added,
    keys (Checker.apply_problems problems T) = keys T ++ added /\
    forall k, In k added -> In k (keys problems).
Proof.
  unfold Checker.apply_problems.
  induction problems as [|[k0 v0] problems IH]; intros T; simpl.
  - exists []. rewrite app_nil_r. split; [reflexivity | intros k []].
  - assert (Same : exists added,
              keys (fold_left
                      (fun translated_data kv =>
                         match snd kv with
                         | JObj data =>
                             match dict_get data (lit "translation") with
                             | Some t => dict_set translated_data (fst kv) t
                             | None => translated_data
                             end
                         | _ => translated_data
                         end) problems T) = keys T ++ added /\
              forall k, In k added -> k0 = k \/ In k (keys problems)).
    { destruct (IH T) as [added [E H]]. exists added. split; [exact E|].
      intros k I. right. apply H, I. }
    destruct v0 as [| | | | |d]; try exact Same.
    destruct (dict_get d (lit "translation")) as [t|]; [|exact Same].
    destruct (IH (dict_set T k0 t)) as [added [E H]].
    assert (KS : keys (dict_set T k0 t) =
                 if existsb (str_eqb k0) (keys T) then keys T
                 else keys T ++ [k0])
      by (unfold keys, dict_set; apply assoc_set_keys_shape).
    rewrite KS in E.
    destruct (existsb (str_eqb k0) (keys T)).
    + exists added. split; [exact E|]. intros k I. right. apply H, I.
    + exists (k0 :: added). rewrite <- app_assoc in E. split; [exact E|].
      intros k [<-|I]; [left; reflexivity | right; apply H, I].
Qed.

(** X17. Applying the Problem Record changes the Locale File only where a
    problem carries a [translation]: the keys of the file keep their
    places, new keys (all of them keys of the Problem Record) are added at
    the end, and a key none of whose problems has a [translation] keeps
    its value, or stays absent. *)
Theorem corrections_touch_named_keys_only (problems T : dict) :
  (exists added,
     keys (Checker.apply_problems problems T) = keys T ++ added /\
     forall k, In k added -> In k (keys problems)) /\
  (forall k,
     (forall data, In (k, JObj data) problems ->
                   dict_get data (lit "translation") = None) ->
     dict_get (Checker.apply_problems problems T) k = dict_get T k).
Proof.
  split; [apply apply_problems_keys_prefix|].
  intros k H. apply apply_problems_unnamed, H.
Qed.

(** X17, at a Problem Record with an issue but no correction. *)
Lemma corrections_touch_named_keys_only_witness :
  dict_get (Checker.apply_problems Example.issue_only_x Example.es_x)
           (lit "x")
  = Some (JStr (lit "Mal traducido")).
Proof.
  rewrite (proj2 (corrections_touch_named_keys_only
                    Example.issue_only_x Example.es_x) (lit "x")).
  - reflexivity.
  - intros data [E|[]]. inversion E. reflexivity.
Defined.

(* ================================================================== *)
(** * The sync run and the rest of the folder *)
(* ================================================================== *)

Lemma untouched_by_writes (p : pystr) (tr : list event) :
  Forall (fun e => exists q c, e = EvWrite q c /\ q <> p) (effects tr) ->
  touches p tr = false.
Proof.
  intros F. rewrite <- touches_effects.
  induction F as [|e es [q [c [-> NE]]] F IH]; simpl; [reflexivity|].
  rewrite IH, orb_false_r. apply str_eqb_neq, NE.
Qed.

Section SyncFrame.

Variable complete : endpoint.
Variable json_loads : pystr -> decoded.
Variable folder : pystr.
Variable n : Z.
Variable S : dict.

Hypothesis S_nodup : NoDup (keys S).
Hypothesis S_text :
  forall k u, In (k, u) S -> Sync.is_update u = true ->
              directive_text u <> None.
Hypothesis n_nonzero : n <> 0.

Lemma sync_langs_writes langs : forall w,
  (forall lang, In lang langs ->
                locale_data w (Sync.out_path_of folder lang) <> None) ->
  exists tr c,
    for_loop (fun _ lang => Sync.sync_lang complete json_loads S folder n lang)
             langs tt w = (Return tt, advance w tr c) /\
    Forall (fun e => exists q d,
                       e = EvWrite q (FJson d) /\
                       In q (map (Sync.out_path_of folder) langs))
           (effects tr).
Proof.
  induction langs as [|lang langs IH]; intros w L; cbn [for_loop].
  - exists [], 0%nat. rewrite advance_nil. split; [reflexivity | constructor].
  - destruct (sync_lang_total complete json_loads folder n S S_nodup S_text
                n_nonzero lang w (L lang (or_introl eq_refl)))
      as [tr1 [c1 [R1 E1]]].
    unfold bindM. rewrite R1.
    destruct (IH (advance w tr1 c1)) as [tr2 [c2 [R2 F2]]].
    + intros l I. apply locale_data_advance.
      * destruct E1 as [E1|[d E1]]; [left; exact E1 | right; eauto].
      * apply L. right; exact I.
    + rewrite R2, advance_advance. exists (tr1 ++ tr2), (c1 + c2)%nat.
      split; [reflexivity|]. rewrite effects_app. apply Forall_app. split.
      * destruct E1 as [->|[d ->]]; constructor; [|constructor].
        exists (Sync.out_path_of folder lang), d.
        split; [reflexivity | left; reflexivity].
      * apply (Forall_impl _ (P := fun e => exists q d,
                  e = EvWrite q (FJson d) /\
                  In q (map (Sync.out_path_of folder) langs))); [|exact F2].
        intros e [q [d [-> I]]]. exists q, d.
        split; [reflexivity | right; exact I].
Qed.

Lemma translate_sync_writes input_file langs w :
  json_file w input_file = Some S ->
  (forall lang, In lang langs ->
                locale_data w (Sync.out_path_of folder lang) <> None) ->
  exists tr c,
    Sync.translate_sync complete json_loads input_file folder langs n w =
    (Return tt, advance w tr c) /\
    Forall (fun e => exists q d,
                       e = EvWrite q (FJson d) /\
                       (q = input_file \/
                        In q (map (Sync.out_path_of folder) langs)))
           (effects tr).
Proof.
  intros J L. unfold Sync.translate_sync, bindM.
  rewrite print_run.
  rewrite (read_json_run json_loads input_file _ S) by exact J.
  rewrite print_run, advance_advance.
  match goal with |- context [for_loop ?f langs tt ?w0] =>
    destruct (sync_langs_writes langs w0) as [tr [c [R F]]]
  end.
  { intros l I. apply locale_data_advance; [left; reflexivity | auto]. }
  rewrite R, advance_advance, lift_run, (clean_up_collapse S S_nodup).
  rewrite write_file_run, advance_advance, print_run, advance_advance.
  eexists _, _. split; [reflexivity|].
  match goal with |- Forall _ (effects ?t) =>
    assert (E : effects t =
                effects tr ++ [EvWrite input_file (FJson (collapse S))])
      by (rewrite !effects_app; simpl; rewrite ?app_nil_r; reflexivity)
  end.
  rewrite E. apply Forall_app. split.
  - apply (Forall_impl _ (P := fun e => exists q d,
              e = EvWrite q (FJson d) /\
              In q (map (Sync.out_path_of folder) langs))); [|exact F].
    intros e [q [d [-> I]]]. exists q, d. split; [reflexivity | right; exact I].
  - constructor; [|constructor]. exists input_file, (collapse S).
    split; [reflexivity | left; reflexivity].
Qed.

End SyncFrame.

(** X18. A sync run that reaches its end writes JSON only, and only to the
    String Table and to the Locale Files of its languages: it removes
    nothing, writes no log and no intermediate file, and every other path
    of the folder is after the run what it was before. *)
Theorem sync_writes_locales_and_table_only
    (complete : endpoint) (json_loads : pystr -> decoded)
    (input_file folder : pystr) (langs : list pystr) (n : Z) (w : world)
    (S : dict) :
  json_file w input_file = Some S ->
  NoDup (keys S) ->
  (forall k u, In (k, u) S -> Sync.is_update u = true ->
               directive_text u <> None) ->
  n <> 0 ->
  (forall lang, In lang langs ->
                locale_data w (Sync.out_path_of folder lang) <> None) ->
  exists tr c,
    Sync.translate_sync complete json_loads input_file folder langs n w =
    (Return tt, advance w tr c) /\
    Forall (fun e => exists q d,
                       e = EvWrite q (FJson d) /\
                       (q = input_file \/
                        In q (map (Sync.out_path_of folder) langs)))
           (effects tr) /\
    artifacts tr = [] /\
    (forall p, p <> input_file ->
               ~ In p (map (Sync.out_path_of folder) langs) ->
               assoc_get (files (advance w tr c)) p = assoc_get (files w) p).
Proof.
  intros J ND HT Hn L.
  destruct (translate_sync_writes complete json_loads folder n S ND HT Hn
              input_file langs w J L) as [tr [c [R F]]].
  exists tr, c. split; [exact R|]. split; [exact F|]. split.
  - rewrite <- artifacts_effects. clear R.
    induction F as [|e es [q [d [-> _]]] F IH]; [reflexivity|].
    unfold artifacts in *. simpl. exact IH.
  - intros p NP NI. unfold advance. simpl files.
    apply replay_untouched, untouched_by_writes.
    apply (Forall_impl _ (P := fun e => exists q d,
              e = EvWrite q (FJson d) /\
              (q = input_file \/
               In q (map (Sync.out_path_of folder) langs)))); [|exact F].
    intros e [q [d [-> [E|I]]]]; exists q, (FJson d);
      (split; [reflexivity|]); intros ->; [apply NP, E | apply NI, I].
Qed.

(** X18, at the end-to-end scenario with a log lying in the folder. *)
Lemma sync_writes_locales_and_table_only_witness :
  exists w',
    Sync.translate_sync Example.inventive Example.decoder Example.en_path
      Example.folder [Example.fr] 1
      (start [(Example.en_path, FJson Example.table);
              (lit "messages/fr_error_chunk_1.log", FText (lit "old"))])
    = (Return tt, w') /\
    assoc_get (files w') (lit "messages/fr_error_chunk_1.log")
    = Some (FText (lit "old")).
Proof.
  destruct (sync_writes_locales_and_table_only
              Example.inventive Example.decoder Example.en_path
              Example.folder [Example.fr] 1
              (start [(Example.en_path, FJson Example.table);
                      (lit "messages/fr_error_chunk_1.log",
                       FText (lit "old"))])
              Example.table)
    as [tr [c [R [_ [_ K]]]]].
  - reflexivity.
  - apply distinct_sound. reflexivity.
  - intros k u [E|[E|[]]] U; inversion E; subst; discriminate.
  - discriminate.
  - intros lang [<-|[]]. discriminate.
  - eexists. split; [exact R|].
    rewrite (K (lit "messages/fr_error_chunk_1.log")).
    + reflexivity.
    + discriminate.
    + intros [E|[]]. discriminate E.
Defined.

(* ================================================================== *)
(** * A sync run whose chunks all fail *)
(* ================================================================== *)

Lemma all_fail_merged complete json_loads lang chunks : forall m,
  (forall i c l, exists e, sync_outcome complete json_loads l i c = Raise e) ->
  merged (sync_outcomes complete json_loads lang m chunks) = [].
Proof.
  intros m H. unfold merged. apply merge_all_failed. revert m.
  induction chunks as [|chunk rest IH]; intros m r; simpl; [tauto|].
  intros [E|I]; [|exact (IH _ r I)].
  destruct (H m chunk lang) as [e X]. congruence.
Qed.

Lemma collapse_no_directive (S : dict) :
  (forall k u, In (k, u) S -> Sync.is_update u = true ->
     exists t, directive_text u = Some t /\ Sync.is_update t = false) ->
  forall k v, In (k, v) (collapse S) -> Sync.is_update v = false.
Proof.
  intros HT k v I. unfold collapse in I. apply in_map_iff in I.
  destruct I as [[k0 v0] [E I]]. simpl in E. inversion E; subst.
  unfold collapse_value. destruct (Sync.is_update v0) eqn:U; [|exact U].
  destruct (HT k v0 I U) as [t [-> Ut]]. exact Ut.
Qed.

Lemma work_set_after_clean_up (S T : dict) :
  NoDup (keys S) ->
  (forall k u, In (k, u) S -> Sync.is_update u = true ->
     exists t, directive_text u = Some t /\ Sync.is_update t = false) ->
  Sync.to_translate_of (collapse S) T = Return (plain_items (collapse S) T)
  /\ forall k, In k (keys T) -> ~ In k (keys (plain_items (collapse S) T)).
Proof.
  intros ND HT. pose proof (collapse_no_directive S HT) as NU. split.
  - rewrite to_translate_of_items.
    + rewrite (directive_items_none _ NU), app_nil_r. reflexivity.
    + rewrite collapse_keys. exact ND.
    + intros k u I U. rewrite (NU k u I) in U. discriminate.
  - intros k I J. unfold keys, plain_items in J. apply in_map_iff in J.
    destruct J as [[k0 v0] [E J]]. simpl in E. subst k0.
    apply filter_In in J. destruct J as [_ J]. simpl in J.
    apply andb_true_iff in J. destruct J as [_ J].
    apply negb_true_iff in J. unfold dict_mem, dict_get in J.
    apply assoc_get_in in I. destruct I as [v G]. rewrite G in J.
    discriminate.
Qed.

Section SyncDown.

Variable complete : endpoint.
Variable json_loads : pystr -> decoded.
Variable folder : pystr.
Variable n : Z.
Variable S : dict.

Hypothesis S_nodup : NoDup (keys S).
Hypothesis S_text :
  forall k u, In (k, u) S -> Sync.is_update u = true ->
              directive_text u <> None.
Hypothesis n_nonzero : n <> 0.
Hypothesis all_fail :
  forall i c l, exists e, sync_outcome complete json_loads l i c = Raise e.

Lemma sync_lang_failing lang w :
  locale_data w (Sync.out_path_of folder lang) <> None ->
  exists tr c,
    Sync.sync_lang complete json_loads S folder n lang w =
    (Return tt, advance w tr c) /\
    forall p, locale_data (advance w tr c) p = locale_data w p.
Proof.
  intros L.
  destruct (locale_data w (Sync.out_path_of folder lang)) as [T|] eqn:LT;
    [clear L | congruence].
  destruct (to_translate_total S T S_nodup S_text) as [W P].
  destruct (sync_lang_run complete json_loads folder lang S n w T W LT P)
    as [R0 R1].
  destruct W as [|kv W'].
  - rewrite (R0 eq_refl). eexists _, _. split; [reflexivity|].
    intros p. reflexivity.
  - destruct (chunk_dict_total (kv :: W') n n_nonzero) as [chunks C].
    rewrite (R1 ltac:(discriminate) chunks C).
    rewrite (all_fail_merged complete json_loads lang chunks (calls w)
               all_fail).
    change (dict_update T []) with T.
    set (fails := failures (sync_outcomes complete json_loads lang (calls w)
                              chunks)).
    assert (E : effects (EvPrint (MsgSyncing lang) :: error_prints fails
                         ++ [EvWrite (Sync.out_path_of folder lang) (FJson T);
                             EvPrint (MsgSynced lang)])
                = [EvWrite (Sync.out_path_of folder lang) (FJson T)]).
    { match goal with |- effects (?a :: ?b ++ ?c) = _ =>
        replace (a :: b ++ c) with (([a] ++ b) ++ c) by reflexivity end.
      rewrite !effects_app, effects_error_prints. reflexivity. }
    eexists _, _. split; [reflexivity|]. intros p.
    unfold locale_data, advance. cbn [files].
    rewrite <- replay_effects, E. simpl.
    rewrite assoc_get_set.
    destruct (str_eqb p (Sync.out_path_of folder lang)) eqn:X;
      [|reflexivity].
    apply str_eqb_eq in X. subst p. unfold locale_data in LT.
    rewrite LT. reflexivity.
Qed.

Lemma sync_langs_failing langs : forall w,
  (forall lang, In lang langs ->
                locale_data w (Sync.out_path_of folder lang) <> None) ->
  exists tr c,
    for_loop (fun _ lang => Sync.sync_lang complete json_loads S folder n lang)
             langs tt w = (Return tt, advance w tr c) /\
    forall p, locale_data (advance w tr c) p = locale_data w p.
Proof.
  induction langs as [|lang langs IH]; intros w L; cbn [for_loop].
  - exists [], 0%nat. rewrite advance_nil. split; reflexivity.
  - destruct (sync_lang_failing lang w (L lang (or_introl eq_refl)))
      as [tr1 [c1 [R1 K1]]].
    unfold bindM. rewrite R1.
    destruct (IH (advance w tr1 c1)) as [tr2 [c2 [R2 K2]]].
    + intros l I. rewrite K1. apply L. right; exact I.
    + rewrite R2, advance_advance. eexists _, _. split; [reflexivity|].
      intros p. rewrite <- advance_advance, K2, K1. reflexivity.
Qed.

Lemma translate_sync_failing input_file langs w :
  json_file w input_file = Some S ->
  (forall lang, In lang langs ->
                locale_data w (Sync.out_path_of folder lang) <> None) ->
  exists w',
    Sync.translate_sync complete json_loads input_file folder langs n w =
    (Return tt, w') /\
    json_file w' input_file = Some (collapse S) /\
    forall p, p <> input_file -> locale_data w' p = locale_data w p.
Proof.
  intros J L. unfold Sync.translate_sync, bindM.
  rewrite print_run.
  rewrite (read_json_run json_loads input_file _ S) by exact J.
  rewrite print_run.
  match goal with |- context [for_loop ?f langs tt ?w0] =>
    destruct (sync_langs_failing langs w0) as [tr [c [R K]]]
  end.
  { intros l I. exact (L l I). }
  rewrite R, lift_run, (clean_up_collapse S S_nodup).
  rewrite write_file_run, print_run, advance_advance.
  eexists. split; [reflexivity|]. split.
  - unfold json_file, advance at 1. simpl files.
    rewrite assoc_get_set, str_eqb_refl. reflexivity.
  - intros p NP. unfold locale_data, advance at 1. simpl files.
    rewrite assoc_get_set, (proj2 (str_eqb_neq p input_file) NP).
    exact (K p).
Qed.

End SyncDown.

(** X19. A sync run in which every chunk fails consumes the update
    directives all the same: the run returns, every Locale File holds the
    data it held, the String Table has its directives collapsed, and the
    work-set of the next run has none of the keys a Locale File already
    has, so the changed texts are not sent again for them. *)
Theorem failed_updates_are_dropped
    (complete : endpoint) (json_loads : pystr -> decoded)
    (input_file folder : pystr) (langs : list pystr) (n : Z) (w : world)
    (S : dict) :
  json_file w input_file = Some S ->
  NoDup (keys S) ->
  (forall k u, In (k, u) S -> Sync.is_update u = true ->
     exists t, directive_text u = Some t /\ Sync.is_update t = false) ->
  n <> 0 ->
  (forall lang, In lang langs ->
                locale_data w (Sync.out_path_of folder lang) <> None) ->
  ~ In input_file (map (Sync.out_path_of folder) langs) ->
  (forall i c l, exists e, sync_outcome complete json_loads l i c = Raise e) ->
  exists w',
    Sync.translate_sync complete json_loads input_file folder langs n w =
    (Return tt, w') /\
    json_file w' input_file = Some (collapse S) /\
    (forall lang T,
       In lang langs ->
       locale_data w (Sync.out_path_of folder lang) = Some T ->
       locale_data w' (Sync.out_path_of folder lang) = Some T /\
       exists W',
         Sync.to_translate_of (collapse S) T = Return W' /\
         forall k, In k (keys T) -> ~ In k (keys W')).
Proof.
  intros J ND HT Hn L NI AF.
  assert (HT' : forall k u, In (k, u) S -> Sync.is_update u = true ->
                            directive_text u <> None).
  { intros k u I U. destruct (HT k u I U) as [t [-> _]]. discriminate. }
  destruct (translate_sync_failing complete json_loads folder n S ND HT' Hn AF
              input_file langs w J L) as [w' [R [JT K]]].
  exists w'. split; [exact R|]. split; [exact JT|].
  intros lang T I LT. split.
  - rewrite K; [exact LT|]. intros E. apply NI. rewrite <- E.
    apply in_map, I.
  - destruct (work_set_after_clean_up S T ND HT) as [P F].
    eexists. split; [exact P | exact F].
Qed.

(** X19, at the end-to-end scenario with the client down: ["b"] was marked
    for update, the Locale File keeps its old translation of it, and the
    next work-set is empty. *)
Lemma failed_updates_are_dropped_witness :
  exists w',
    Sync.translate_sync Example.down Example.decoder Example.en_path
      Example.folder [Example.fr] 1
      (start [(Example.en_path, FJson Example.table);
              (Example.fr_path,
               FJson [(lit "a", JStr (lit "Bonjour"));
                      (lit "b", JStr (lit "Adieu"))])])
    = (Return tt, w') /\
    locale_data w' Example.fr_path
    = Some [(lit "a", JStr (lit "Bonjour")); (lit "b", JStr (lit "Adieu"))] /\
    Sync.to_translate_of (collapse Example.table)
      [(lit "a", JStr (lit "Bonjour")); (lit "b", JStr (lit "Adieu"))]
    = Return [].
Proof.
  destruct (failed_updates_are_dropped
              Example.down Example.decoder Example.en_path
              Example.folder [Example.fr] 1
              (start [(Example.en_path, FJson Example.table);
                      (Example.fr_path,
                       FJson [(lit "a", JStr (lit "Bonjour"));
                              (lit "b", JStr (lit "Adieu"))])])
              Example.table)
    as [w' [R [_ K]]].
  - reflexivity.
  - apply distinct_sound. reflexivity.
  - intros k u [E|[E|[]]] U; inversion E; subst; [discriminate|].
    eexists. split; reflexivity.
  - discriminate.
  - intros lang [<-|[]]. discriminate.
  - intros [E|[]]. discriminate E.
  - intros i c l. exists (RemoteError (lit "no reply")).
    destruct i; reflexivity.
  - exists w'. split; [exact R|]. split; [|reflexivity].
    apply (K Example.fr
             [(lit "a", JStr (lit "Bonjour")); (lit "b", JStr (lit "Adieu"))]
             (or_introl eq_refl) eq_refl).
Defined.

(* ================================================================== *)
(** * translate.py starts every locale afresh *)
(* ================================================================== *)

(** X20. What a locale of translate.py does to the file system is fixed by
    the outcomes of its chunks alone: the writes of the chunk loop, then,
    when some translated data was produced, the Locale File and the
    removal of the intermediate file.  Nothing of it depends on what the
    folder held: an existing Locale File, intermediate file or log is
    never read, so a second run asks for every chunk again. *)
Theorem bulk_locale_starts_afresh
    (complete : endpoint) (json_loads : pystr -> decoded)
    (folder lang : pystr) (data : dict) (n : Z) (chunks : list dict)
    (w1 w2 : world) :
  chunk_dict data n = Return chunks ->
  calls w1 = calls w2 ->
  let outs := bulk_outcomes complete json_loads lang (calls w1) chunks in
  exists tr1 tr2,
    Translate.translate_lang complete json_loads data folder n lang w1 =
    (Return tt, advance w1 tr1 (length chunks)) /\
    Translate.translate_lang complete json_loads data folder n lang w2 =
    (Return tt, advance w2 tr2 (length chunks)) /\
    effects tr2 = effects tr1 /\
    effects tr1 =
      bulk_effects folder lang 0 outs [] ++
      (if dict_nonempty (merged outs)
       then [EvWrite (Translate.out_file_of folder lang) (FJson (merged outs));
             EvRemove (Translate.temp_file_of folder lang)]
       else []).
Proof.
  intros C EC outs.
  assert (X : forall w, calls w = calls w1 ->
            exists tr,
              Translate.translate_lang complete json_loads data folder n lang w
              = (Return tt, advance w tr (length chunks)) /\
              effects tr =
                bulk_effects folder lang 0 outs [] ++
                (if dict_nonempty (merged outs)
                 then [EvWrite (Translate.out_file_of folder lang)
                               (FJson (merged outs));
                       EvRemove (Translate.temp_file_of folder lang)]
                 else [])).
  { intros w Ew.
    destruct (translate_lang_run complete json_loads folder lang data n
                chunks w C) as [tr [R [E _]]].
    rewrite Ew in E. fold outs in E.
    exists tr. split; [exact R|]. rewrite E. f_equal.
    destruct (dict_nonempty (merged outs)) eqn:NE; [|reflexivity].
    destruct (merged_nonempty_success outs NE) as [r Ir].
    destruct (bulk_effects_temp folder lang outs 0%nat [] r Ir) as [c Ic].
    match goal with |- context [assoc_get ?f ?p] =>
      assert (Y : assoc_get f p <> None)
    end.
    { apply replay_exists.
      - intros q I. apply in_app_iff in I. destruct I as [I|[I|[]]].
        + revert I. apply bulk_effects_no_remove.
        + discriminate.
      - right. exists c. apply in_or_app. left; exact Ic. }
    match goal with |- context [assoc_get ?f ?p] =>
      destruct (assoc_get f p); [reflexivity | congruence]
    end. }
  destruct (X w1 eq_refl) as [tr1 [R1 E1]].
  destruct (X w2 (eq_sym EC)) as [tr2 [R2 E2]].
  exists tr1, tr2. split; [exact R1|]. split; [exact R2|].
  split; [congruence | exact E1].
Qed.

(** X20, at three chunks with a client that fails on the second, once in
    an empty folder and once with a Locale File and an intermediate file
    lying there. *)
Lemma bulk_locale_starts_afresh_witness :
  exists tr1 tr2,
    Translate.translate_lang Example.flaky Example.decoder Example.three
      Example.folder 1 Example.fr (start []) =
    (Return tt, advance (start []) tr1 3) /\
    Translate.translate_lang Example.flaky Example.decoder Example.three
      Example.folder 1 Example.fr
      (start [(Example.fr_path, FJson Example.old_fr);
              (lit "messages/fr.temp.json", FJson Example.old_fr)]) =
    (Return tt,
     advance (start [(Example.fr_path, FJson Example.old_fr);
                     (lit "messages/fr.temp.json", FJson Example.old_fr)])
       tr2 3) /\
    effects tr2 = effects tr1.
Proof.
  destruct (bulk_locale_starts_afresh
              Example.flaky Example.decoder Example.folder Example.fr
              Example.three 1
              [[(lit "a", JStr (lit "Hello"))];
               [(lit "b", JStr (lit "Goodbye"))];
               [(lit "c", JStr (lit "Thanks"))]]
              (start [])
              (start [(Example.fr_path, FJson Example.old_fr);
                      (lit "messages/fr.temp.json", FJson Example.old_fr)])
              eq_refl eq_refl)
    as [tr1 [tr2 [R1 [R2 [E _]]]]].
  exists tr1, tr2. split; [exact R1|]. split; [exact R2 | exact E].
Defined.
